(** * analyze-hack.js: ranking hack targets by gain rate and by experience rate

    A shallow embedding of [src/analyze-hack.js] and the properties its
    specification states about it, followed by further properties of the
    script that are read off the code.

    Conventions of the embedding.
    - A JavaScript number is a real number ([R]): rounding, the infinities
      and NaN of IEEE doubles are outside the model.  No theorem below relies
      on the value Rocq gives to a division by zero or to the logarithm of a
      non-positive number.
    - A field the script attaches to a server object ([estHackPercent],
      [theoreticalGainRate], [gainRate], [expRate]) is an [option R]: [None]
      is the field before its first assignment.  Arithmetic on such a field
      is lifted through [option].
    - Server objects are shared and mutated in place, so they live in a heap
      indexed by reference; arrays of servers are lists of references.
    - A call that may throw (the formulas API) runs in a state-and-exception
      monad; [try]/[catch]/[finally] is a combinator of that monad.
    - Text handed to [ns.print], [ns.tprint] and [ns.write] is kept as a
      structured event carrying the values the message is built from; number
      formatting ([toPrecision], [formatMoney], [formatDuration]) is not
      modelled.
    - A run starts from the parsed options: the parsing ([getConfiguration]
      of helpers.js) and [autocomplete], which hands [argsSchema] to the
      terminal, are outside the model. *)

From Stdlib Require Import Reals Lra ZArith Lia String List Bool Factorial.
From Stdlib Require Import Permutation Sorted.
From Stdlib Require Import FunctionalExtensionality.
Import ListNotations.
Open Scope R_scope.

(* ------------------------------------------------------------------ *)
(** ** Numbers *)

Definition Rltb (x y : R) : bool := if Rlt_dec x y then true else false.
Definition Rleb (x y : R) : bool := if Rle_dec x y then true else false.

(** A number used as a condition: [0] is falsy, every other real is truthy. *)
Definition truthy (x : R) : bool := if Req_dec_T x 0 then false else true.

Module Math.
Definition max (x y : R) : R := Rmax x y.
Definition min (x y : R) : R := Rmin x y.
Definition log (x : R) : R := ln x.
Definition exp (x : R) : R := Rtrigo_def.exp x.
End Math.

(** Arithmetic on a field that may still be unset. *)
Definition lift1 (f : R -> R) (x : option R) : option R :=
  match x with Some a => Some (f a) | None => None end.

Definition lift2 (f : R -> R -> R) (x y : option R) : option R :=
  match x, y with Some a, Some b => Some (f a b) | _, _ => None end.

(** [d > 0] for a difference of two fields. *)
Definition positive (d : option R) : bool :=
  match d with Some v => Rltb 0 v | None => false end.

(* ------------------------------------------------------------------ *)
(** ** Arrays: the stable sort behind [sort] and [toSorted] *)

(** [after x y] is [compare(x, y) > 0]: [x] has to come after [y]. *)
Fixpoint insertBy {A : Type} (after : A -> A -> bool) (x : A) (l : list A) : list A :=
  match l with
  | [] => [x]
  | y :: l' => if after x y then y :: insertBy after x l' else x :: l
  end.

Definition sortBy {A : Type} (after : A -> A -> bool) (l : list A) : list A :=
  fold_right (insertBy after) [] l.

(* ------------------------------------------------------------------ *)
(** ** Data *)

Record Server := mkServer {
  hostname : string;
  hasAdminRights : bool;
  purchasedByPlayer : bool;
  maxRam : R;
  moneyMax : R;
  moneyAvailable : R;
  minDifficulty : R;
  hackDifficulty : R;
  requiredHackingSkill : Z;
  estHackPercent : option R;
  theoreticalGainRate : option R;
  gainRate : option R;
  expRate : option R
}.

Definition set_hackDifficulty (v : R) (s : Server) : Server :=
  mkServer (hostname s) (hasAdminRights s) (purchasedByPlayer s) (maxRam s)
    (moneyMax s) (moneyAvailable s) (minDifficulty s) v
    (requiredHackingSkill s) (estHackPercent s) (theoreticalGainRate s)
    (gainRate s) (expRate s).

Definition set_moneyAvailable (v : R) (s : Server) : Server :=
  mkServer (hostname s) (hasAdminRights s) (purchasedByPlayer s) (maxRam s)
    (moneyMax s) v (minDifficulty s) (hackDifficulty s)
    (requiredHackingSkill s) (estHackPercent s) (theoreticalGainRate s)
    (gainRate s) (expRate s).

Definition set_estHackPercent (v : option R) (s : Server) : Server :=
  mkServer (hostname s) (hasAdminRights s) (purchasedByPlayer s) (maxRam s)
    (moneyMax s) (moneyAvailable s) (minDifficulty s) (hackDifficulty s)
    (requiredHackingSkill s) v (theoreticalGainRate s)
    (gainRate s) (expRate s).

Definition set_theoreticalGainRate (v : option R) (s : Server) : Server :=
  mkServer (hostname s) (hasAdminRights s) (purchasedByPlayer s) (maxRam s)
    (moneyMax s) (moneyAvailable s) (minDifficulty s) (hackDifficulty s)
    (requiredHackingSkill s) (estHackPercent s) v
    (gainRate s) (expRate s).

Definition set_gainRate (v : option R) (s : Server) : Server :=
  mkServer (hostname s) (hasAdminRights s) (purchasedByPlayer s) (maxRam s)
    (moneyMax s) (moneyAvailable s) (minDifficulty s) (hackDifficulty s)
    (requiredHackingSkill s) (estHackPercent s) (theoreticalGainRate s)
    v (expRate s).

Definition set_expRate (v : option R) (s : Server) : Server :=
  mkServer (hostname s) (hasAdminRights s) (purchasedByPlayer s) (maxRam s)
    (moneyMax s) (moneyAvailable s) (minDifficulty s) (hackDifficulty s)
    (requiredHackingSkill s) (estHackPercent s) (theoreticalGainRate s)
    (gainRate s) v.

(** [player.skills.hacking] is the only field of the player the script
    reads or writes. *)
Record Player := mkPlayer { skills_hacking : Z }.

(** [ns.formulas.hacking]: each function may throw ([None]). *)
Module hacking.
Record t := mk {
  weakenTime : Server -> Player -> option R;
  growTime : Server -> Player -> option R;
  hackTime : Server -> Player -> option R;
  growPercent : Server -> R -> Player -> R -> option R;
  hackPercent : Server -> Player -> option R;
  hackChance : Server -> Player -> option R;
  hackExp : Server -> Player -> option R
}.
End hacking.

(** The part of the Netscript interface the script calls.  [formulas] is
    [None] when the API object is missing: reaching through it throws.
    [scanAllServers] is the imported helper applied to [ns]. *)
Record NS := mkNS {
  formulas : option hacking.t;
  getWeakenTime : string -> R;
  getPlayer : Player;
  getServer : string -> Server;
  scanAllServers : list string
}.

(** The parsed command line ([argsSchema]). *)
Record Options := mkOptions {
  all : bool;
  silent : bool;
  at_hack_level : Z;
  hack_percent : R;
  include_hacknet_ram : bool;
  disable_formulas_api : bool
}.

(** A reference to a server object. *)
Definition ref := nat.

(** The record written to [/Temp/analyze-hack.txt] for one server. *)
Record RankedRecord := mkRecord {
  rec_hostname : string;
  rec_gainRate : option R;
  rec_expRate : option R
}.

(** One line of the list of servers by gain: order, hostname, gain rate,
    estimated hack percent, required hacking skill. *)
Record GainLine := mkGainLine {
  gl_order : nat;
  gl_hostname : string;
  gl_gainRate : option R;
  gl_estHackPercent : option R;
  gl_requiredHackingSkill : Z
}.

(** One line of the list of servers by experience. *)
Record ExpLine := mkExpLine {
  el_order : nat;
  el_hostname : string;
  el_expRate : option R
}.

Inductive Event :=
| PrintWarnHackGain (hackGain minHackGain : R) (host : string)
| PrintFormulasRates (hackLevel : Z) (hackPercent theoretical limit exp chance : R)
    (host : string)
| PrintFallbackRates (moneyMax timeToHack cappedTimeToHack theoretical capped exp : R)
    (host : string)
| PrintSettings (all : bool) (hacking : Z) (ramTotal : R)
| PrintBestUnlocked (host : string) (gainRate : option R)
| PrintScaled (host : string) (gainScale theoretical : option R) (capped : R)
    (expScale exp : option R)
| TPrintOutOfRange
| TPrintBest (host : string) (gainRate : option R)
| PrintGainList (hacking : Z) (lines : list GainLine)
| TPrintBestExp (host : string) (expRate : option R)
| PrintExpList (hacking : Z) (lines : list ExpLine)
| FileWrite (path : string) (records : list RankedRecord) (mode : string).

(* ------------------------------------------------------------------ *)
(** ** State and exceptions *)

Record State := mkState {
  player : Player;          (* the object returned by [ns.getPlayer()] *)
  heap : ref -> Server;     (* the server objects *)
  hackPercent : R;          (* [let hackPercent] of [main] *)
  out : list Event          (* everything printed or written, oldest first *)
}.

Inductive Outcome (A : Type) :=
| Ok (a : A)
| Thrown.
Arguments Ok {A} a.
Arguments Thrown {A}.

Definition M (A : Type) : Type := State -> Outcome A * State.

Definition ret {A : Type} (a : A) : M A := fun st => (Ok a, st).

Definition throw {A : Type} : M A := fun st => (Thrown, st).

Definition bind {A B : Type} (c : M A) (k : A -> M B) : M B :=
  fun st =>
    match c st with
    | (Ok a, st') => k a st'
    | (Thrown, st') => (Thrown, st')
    end.

Declare Scope monad_scope.
Delimit Scope monad_scope with monad.
Notation "x <- c ;; k" := (bind c (fun x => k))
  (at level 61, c at next level, right associativity) : monad_scope.
Notation "' pat <- c ;; k" := (bind c (fun x => match x with pat => k end))
  (at level 61, pat pattern, c at next level, right associativity) : monad_scope.
Notation "c ;; k" := (bind c (fun _ => k))
  (at level 61, right associativity) : monad_scope.
Open Scope monad_scope.

Definition gets {A : Type} (f : State -> A) : M A := fun st => (Ok (f st), st).

Definition modify (f : State -> State) : M unit := fun st => (Ok tt, f st).

Definition when (b : bool) (c : M unit) : M unit := if b then c else ret tt.

(** [try { body } catch { handler } finally { finalizer }]. *)
Definition tryCatchFinally {A : Type} (body handler : M A) (finalizer : M unit) : M A :=
  fun st =>
    let '(r, st1) :=
      match body st with
      | (Ok a, st') => (Ok a, st')
      | (Thrown, st') => handler st'
      end in
    match finalizer st1 with
    | (Ok _, st2) => (r, st2)
    | (Thrown, st2) => (Thrown, st2)
    end.

Fixpoint mapM {A B : Type} (f : A -> M B) (l : list A) : M (list B) :=
  match l with
  | [] => ret []
  | x :: l' => y <- f x ;; ys <- mapM f l' ;; ret (y :: ys)
  end.

Definition upd (h : ref -> Server) (r : ref) (s : Server) : ref -> Server :=
  fun i => if Nat.eqb i r then s else h i.

Definition setPlayerHacking (v : Z) : M unit :=
  modify (fun st => mkState (mkPlayer v) (heap st) (hackPercent st) (out st)).

(** [server.field = v], through the setter of the field. *)
Definition setServer (server : ref) (f : Server -> Server) : M unit :=
  modify (fun st =>
    mkState (player st) (upd (heap st) server (f (heap st server)))
      (hackPercent st) (out st)).

Definition setHackPercent (v : R) : M unit :=
  modify (fun st => mkState (player st) (heap st) v (out st)).

Definition emit (e : Event) : M unit :=
  modify (fun st => mkState (player st) (heap st) (hackPercent st) (out st ++ [e])).

Definition getField {A : Type} (server : ref) (f : Server -> A) : M A :=
  gets (fun st => f (heap st server)).

(* ------------------------------------------------------------------ *)
(** ** The script *)

Section Script.

Variable ns : NS.
Variable options : Options.

Definition weakenRam : R := 1.75.
Definition growRam : R := 1.75.
Definition hackRam : R := 1.7.

(** [ns.formulas.hacking.f(server, player)] on the current objects. *)
Definition callFormulas (f : hacking.t -> Server -> Player -> option R)
    (server : ref) : M R :=
  fun st =>
    match formulas ns with
    | None => (Thrown, st)
    | Some h =>
        match f h (heap st server) (player st) with
        | Some v => (Ok v, st)
        | None => (Thrown, st)
        end
    end.

Section Rates.

(** Locals of [main] that [getRatesAtHackLevel] closes over. *)
Variable ramTotal : R.
Variable useEstHackPercent : bool.

Definition minHackGain : R := 1e-10.

(** The expression assigned to [server.estHackPercent] (lines 107-116). *)
Definition estimateHackPercent (hackGain growGain hackCost growCost : R) : R :=
  Math.max minHackGain
    (Math.min 0.98
       (Math.min ((ramTotal * hackGain) / hackCost)
                 (1 - 1 / Math.exp ((ramTotal * growGain) / growCost)))).

(** The body of the [try] block (lines 82-147). *)
Definition formulasRates (server : ref) (hackLevel : Z) : M (R * R * R) :=
  wt <- callFormulas hacking.weakenTime server ;;
  let weakenCost := weakenRam * wt in
  gt <- callFormulas hacking.growTime server ;;
  let growCost := growRam * gt + (weakenCost * 0.004) / 0.05 in
  ht <- callFormulas hacking.hackTime server ;;
  let hackCost := hackRam * ht + (weakenCost * 0.002) / 0.05 in
  gp <- callFormulas (fun h s p => hacking.growPercent h s 1 p 1) server ;;
  let growGain := Math.log gp in
  hackGain <- callFormulas hacking.hackPercent server ;;
  host <- getField server hostname ;;
  when (Rleb hackGain minHackGain)
    (emit (PrintWarnHackGain hackGain minHackGain host)) ;;
  let est := estimateHackPercent hackGain growGain hackCost growCost in
  setServer server (set_estHackPercent (Some est)) ;;
  when useEstHackPercent (setHackPercent est) ;;
  hackPercent <- gets hackPercent ;;
  let growsPerCycle := - Math.log (1 - hackPercent) / growGain in
  let hacksPerCycle := hackPercent / hackGain in
  chance <- callFormulas hacking.hackChance server ;;
  moneyMax <- getField server moneyMax ;;
  let hackProfit := moneyMax * hackPercent * chance in
  let theoreticalGainRate :=
    (hackProfit / (growCost * growsPerCycle + hackCost * hacksPerCycle)) * 1000 in
  hexp <- callFormulas hacking.hackExp server ;;
  let expRate := ((hexp * (1 + 0.002 / 0.05)) / hackCost) * 1000 in
  let cappedGainRate := Math.min theoreticalGainRate (hackProfit / ramTotal) in
  chance' <- callFormulas hacking.hackChance server ;;
  emit (PrintFormulasRates hackLevel hackPercent theoreticalGainRate
          (hackProfit / ramTotal) expRate chance' host) ;;
  ret (theoreticalGainRate, cappedGainRate, expRate).

(** The body of [if (!useFormulas)] (lines 157-181). *)
Definition fallbackRates (server : ref) : M (R * R * R) :=
  host <- getField server hostname ;;
  let timeToHack := getWeakenTime ns host / 4.0 in
  let cappedTimeToHack := Math.max timeToHack 200 in
  minDifficulty <- getField server minDifficulty ;;
  let relativeExpGain := 3 + minDifficulty * 0.3 in
  setServer server (set_estHackPercent (Some 1)) ;;
  moneyMax <- getField server moneyMax ;;
  let theoreticalGainRate := moneyMax / timeToHack in
  let cappedGainRate := moneyMax / cappedTimeToHack in
  let expRate := relativeExpGain / timeToHack in
  emit (PrintFallbackRates moneyMax timeToHack cappedTimeToHack
          theoreticalGainRate cappedGainRate expRate host) ;;
  ret (theoreticalGainRate, cappedGainRate, expRate).

(** The assignments before the [try] block (lines 77-80). *)
Definition assumeBestCase (server : ref) (hackLevel : Z) : M unit :=
  setPlayerHacking hackLevel ;;
  minDifficulty <- getField server minDifficulty ;;
  setServer server (set_hackDifficulty minDifficulty) ;;
  moneyMax <- getField server moneyMax ;;
  setServer server (set_moneyAvailable moneyMax).

(** [getRatesAtHackLevel(server, player, hackLevel)]; [player] is always
    the one player object of [main].  The [try] statement yields [Some]
    rates when its body completes and [None] when [catch] has cleared
    [useFormulas]. *)
Definition getRatesAtHackLevel (server : ref) (hackLevel : Z) : M (R * R * R) :=
  let useFormulas := negb (disable_formulas_api options) in
  rates <-
    (if useFormulas then
       realPlayerHackSkill <- gets (fun st => skills_hacking (player st)) ;;
       assumeBestCase server hackLevel ;;
       tryCatchFinally
         (r <- formulasRates server hackLevel ;; ret (Some r))
         (ret None)
         (setPlayerHacking realPlayerHackSkill)
     else ret None) ;;
  match rates with
  | Some r => ret r
  | None => fallbackRates server
  end.

End Rates.

(** The reducer of [servers.reduce] (lines 55-62). *)
Definition addRam (total : R) (server : Server) : R :=
  if negb (hasAdminRights server)
     || (prefix "hacknet" (hostname server) && negb (include_hacknet_ram options))
  then total
  else total + maxRam server.

(** The predicate of [servers.filter] (lines 192-199). *)
Definition reported (hacking : Z) (server : Server) : bool :=
  negb (purchasedByPlayer server)
  && Rltb 0 (moneyMax server)
  && (all options
      || (hasAdminRights server && (requiredHackingSkill server <=? hacking)%Z)).

(** [(a, b) => b.gainRate - a.gainRate] is positive. *)
Definition byGainRate (h : ref -> Server) (a b : ref) : bool :=
  positive (lift2 Rminus (gainRate (h b)) (gainRate (h a))).

(** [(a, b) => b.expRate - a.expRate] is positive. *)
Definition byExpRate (h : ref -> Server) (a b : ref) : bool :=
  positive (lift2 Rminus (expRate (h b)) (expRate (h a))).

(** [(a, b) => a.requiredHackingSkill - b.requiredHackingSkill] is positive. *)
Definition byRequiredHackingSkill (h : ref -> Server) (a b : ref) : bool :=
  (0 <? requiredHackingSkill (h a) - requiredHackingSkill (h b))%Z.

(** [array[0].field]: reading a field of [undefined] throws. *)
Definition first {A : Type} (l : list ref) (f : Server -> A) : M A :=
  match l with
  | [] => throw
  | r :: _ => getField r f
  end.

(** Lines of a list numbered by [order++], starting at [order]. *)
Fixpoint numbered {A B : Type} (f : nat -> A -> B) (order : nat) (l : list A) : list B :=
  match l with
  | [] => []
  | x :: l' => f order x :: numbered f (S order) l'
  end.

Section Callbacks.

Variable ramTotal : R.
Variable useEstHackPercent : bool.

(** The callback of [.map] over the servers within the hack level
    (lines 204-208). *)
Definition unlockedCallback (server : ref) : M ref :=
  hacking <- gets (fun st => skills_hacking (player st)) ;;
  '(theoretical, capped, exp) <-
    getRatesAtHackLevel ramTotal useEstHackPercent server hacking ;;
  setServer server (set_theoreticalGainRate (Some theoretical)) ;;
  setServer server (set_gainRate (Some capped)) ;;
  setServer server (set_expRate (Some exp)) ;;
  ret server.

(** The callback of [.map] over the servers above the hack level
    (lines 225-259). *)
Definition lockedCallback (bestUnlockedServer server : ref) : M ref :=
  required <- getField server requiredHackingSkill ;;
  '(bestUnlockedScaledGainRate, _, bestUnlockedScaledExpRate) <-
    getRatesAtHackLevel ramTotal useEstHackPercent bestUnlockedServer required ;;
  bestTheoretical <- getField bestUnlockedServer theoreticalGainRate ;;
  let gainRateScaleFactor :=
    if truthy bestUnlockedScaledGainRate
    then lift1 (fun t => t / bestUnlockedScaledGainRate) bestTheoretical
    else Some 1 in
  bestExp <- getField bestUnlockedServer expRate ;;
  let expRateScaleFactor :=
    if truthy bestUnlockedScaledExpRate
    then lift1 (fun e => e / bestUnlockedScaledExpRate) bestExp
    else Some 1 in
  required' <- getField server requiredHackingSkill ;;
  '(theoretical, capped, exp) <-
    getRatesAtHackLevel ramTotal useEstHackPercent server required' ;;
  setServer server
    (set_theoreticalGainRate (lift1 (Rmult theoretical) gainRateScaleFactor)) ;;
  setServer server (set_expRate (lift1 (Rmult exp) expRateScaleFactor)) ;;
  scaled <- getField server theoreticalGainRate ;;
  setServer server (set_gainRate (lift2 Math.min scaled (Some capped))) ;;
  host <- getField server hostname ;;
  scaledExp <- getField server expRate ;;
  emit (PrintScaled host gainRateScaleFactor scaled capped
          expRateScaleFactor scaledExp) ;;
  ret server.

End Callbacks.

Definition gainLine (h : ref -> Server) (order : nat) (server : ref) : GainLine :=
  mkGainLine order (hostname (h server)) (gainRate (h server))
    (estHackPercent (h server)) (requiredHackingSkill (h server)).

Definition expLine (h : ref -> Server) (order : nat) (server : ref) : ExpLine :=
  mkExpLine order (hostname (h server)) (expRate (h server)).

Definition rankedRecord (h : ref -> Server) (server : ref) : RankedRecord :=
  mkRecord (hostname (h server)) (gainRate (h server)) (expRate (h server)).

(** [array[0]] used as an object right away: a field of [undefined]
    cannot be read, the access throws. *)
Definition firstObject (l : list ref) : M ref :=
  match l with
  | [] => throw
  | r :: _ => ret r
  end.

Definition currentHacking : M Z := gets (fun st => skills_hacking (player st)).

(** [main(ns)] from line 29 on, for parsed options. *)
Definition main : M unit :=
  let serverNames := scanAllServers ns in
  let useEstHackPercent :=
    if Req_dec_T (hack_percent options) (-1) then true else false in
  hackPercent0 <- gets hackPercent ;;
  if negb useEstHackPercent && (Rleb hackPercent0 0 || Rleb 1 hackPercent0)
  then emit TPrintOutOfRange
  else
    when (negb (at_hack_level options =? 0)%Z)
      (setPlayerHacking (at_hack_level options)) ;;
    let servers := seq 0 (length serverNames) in
    objects <- gets (fun st => map (heap st) servers) ;;
    let ramTotal := fold_left addRam objects 0 in
    hacking <- currentHacking ;;
    emit (PrintSettings (all options) hacking ramTotal) ;;
    servers <- gets (fun st =>
      filter (fun r => reported (skills_hacking (player st)) (heap st r)) servers) ;;
    within <- gets (fun st =>
      filter (fun r =>
        (requiredHackingSkill (heap st r) <=? skills_hacking (player st))%Z) servers) ;;
    unlockedServers <- mapM (unlockedCallback ramTotal useEstHackPercent) within ;;
    sorted <- gets (fun st => sortBy (byGainRate (heap st)) unlockedServers) ;;
    bestUnlockedServer <- firstObject sorted ;;
    bestHost <- getField bestUnlockedServer hostname ;;
    bestGain <- getField bestUnlockedServer gainRate ;;
    emit (PrintBestUnlocked bestHost bestGain) ;;
    above <- gets (fun st =>
      sortBy (byRequiredHackingSkill (heap st))
        (filter (fun r =>
           (skills_hacking (player st) <? requiredHackingSkill (heap st r))%Z) servers)) ;;
    lockedServers <-
      mapM (lockedCallback ramTotal useEstHackPercent bestUnlockedServer) above ;;
    let serverEval := unlockedServers ++ lockedServers in
    sortedByGain <- gets (fun st => sortBy (byGainRate (heap st)) serverEval) ;;
    (if silent options then ret tt
     else
       host <- first sortedByGain hostname ;;
       gain <- first sortedByGain gainRate ;;
       emit (TPrintBest host gain)) ;;
    hacking <- currentHacking ;;
    gainLines <- gets (fun st => numbered (gainLine (heap st)) 1 serverEval) ;;
    emit (PrintGainList hacking gainLines) ;;
    sortedByExp <- gets (fun st => sortBy (byExpRate (heap st)) serverEval) ;;
    (if silent options then ret tt
     else
       host <- first sortedByExp hostname ;;
       exp <- first sortedByExp expRate ;;
       emit (TPrintBestExp host exp)) ;;
    hacking <- currentHacking ;;
    expLines <- gets (fun st =>
      numbered (expLine (heap st)) 1 (firstn (Nat.min 5 (length serverEval)) serverEval)) ;;
    emit (PrintExpList hacking expLines) ;;
    records <- gets (fun st => map (rankedRecord (heap st)) serverEval) ;;
    emit (FileWrite "/Temp/analyze-hack.txt" records "w").

(** The state [main] starts from: the player and the server objects as
    [ns.getPlayer] and [ns.getServer] return them, one object per scanned
    name, and [hackPercent] as line 36 sets it. *)
Definition initial : State :=
  mkState (getPlayer ns)
    (fun r => getServer ns (nth r (scanAllServers ns) ""%string))
    (hack_percent options / 100)
    [].

End Script.

(** [main(ns)], by what it prints and writes.  [getConfiguration] yields the
    options, or nothing for invalid options and in help mode. *)
Definition run (ns : NS) (configuration : option Options) : Outcome unit * list Event :=
  match configuration with
  | None => (Ok tt, [])
  | Some options =>
      let '(r, st) := main ns options (initial ns options) in (r, out st)
  end.

(* ------------------------------------------------------------------ *)
(** ** Vocabulary of the properties *)

(** The server object as line 79-80 leave it. *)
Definition prepared (s : Server) : Server :=
  set_moneyAvailable (moneyMax s) (set_hackDifficulty (minDifficulty s) s).

(** The rates the fallback computes for a server object (lines 158-169). *)
Definition fallbackTriple (ns : NS) (s : Server) : R * R * R :=
  let timeToHack := getWeakenTime ns (hostname s) / 4 in
  (moneyMax s / timeToHack,
   moneyMax s / Rmax timeToHack 200,
   (3 + minDifficulty s * 0.3) / timeToHack).

Definition fallbackEvent (ns : NS) (s : Server) : Event :=
  let timeToHack := getWeakenTime ns (hostname s) / 4 in
  PrintFallbackRates (moneyMax s) timeToHack (Rmax timeToHack 200)
    (moneyMax s / timeToHack) (moneyMax s / Rmax timeToHack 200)
    ((3 + minDifficulty s * 0.3) / timeToHack) (hostname s).

(** The [try] block, run from the state the assignments before it leave. *)
Definition tryBlock (ns : NS) (ramTotal : R) (useEstHackPercent : bool)
    (server : ref) (hackLevel : Z) (st : State) : Outcome (R * R * R) * State :=
  formulasRates ns ramTotal useEstHackPercent server hackLevel
    (snd (assumeBestCase server hackLevel st)).

(** The evaluation ends in the fallback: formulas are disabled, or the
    [try] block threw. *)
Definition usesFallback (ns : NS) (options : Options) (ramTotal : R)
    (useEstHackPercent : bool) (server : ref) (hackLevel : Z) (st : State) : bool :=
  disable_formulas_api options
  || match fst (tryBlock ns ramTotal useEstHackPercent server hackLevel st) with
     | Ok _ => false
     | Thrown => true
     end.

(** What the [try] block computes from the seven answers of the formulas API. *)
Definition growCostOf (wt gt : R) : R := growRam * gt + (weakenRam * wt * 0.004) / 0.05.

Definition hackCostOf (wt ht : R) : R := hackRam * ht + (weakenRam * wt * 0.002) / 0.05.

Definition hackProfitOf (moneyMax hackPercent chance : R) : R :=
  moneyMax * hackPercent * chance.

Definition theoreticalOf (hackProfit hackPercent growCost hackCost growGain hackGain : R) : R :=
  (hackProfit /
     (growCost * (- ln (1 - hackPercent) / growGain) + hackCost * (hackPercent / hackGain)))
  * 1000.

Definition expRateOf (hexp hackCost : R) : R := ((hexp * (1 + 0.002 / 0.05)) / hackCost) * 1000.

(** [st'] differs from [st] at most in [server.estHackPercent], in
    [hackPercent] and by further output. *)
Definition onlyEstimate (server : ref) (st st' : State) : Prop :=
  player st' = player st
  /\ (forall r, r <> server -> heap st' r = heap st r)
  /\ heap st' server = set_estHackPercent (estHackPercent (heap st' server)) (heap st server)
  /\ exists events, out st' = out st ++ events.

(** Every run of [c] is related to its start by [rel]. *)
Definition preserves {A : Type} (rel : State -> State -> Prop) (c : M A) : Prop :=
  forall st, rel st (snd (c st)).

(** The terms of the series of [exp (-1/2)], without their signs. *)
Definition halfPowers (n : nat) : R := (1 / 2) ^ n / INR (fact n).

(** The server object an evaluation in the fallback leaves, with its rates
    recorded (lines 205-206). *)
Definition ratedByFallback (ns : NS) (s : Server) : Server :=
  set_expRate (Some (snd (fallbackTriple ns s)))
    (set_gainRate (Some (snd (fst (fallbackTriple ns s))))
       (set_theoreticalGainRate (Some (fst (fst (fallbackTriple ns s))))
          (set_estHackPercent (Some 1) s))).

(** The heap and the messages after the servers of [l] have been rated by
    the fallback, one after the other. *)
Fixpoint ratedHeap (ns : NS) (l : list ref) (h : ref -> Server) : ref -> Server :=
  match l with
  | [] => h
  | r :: l' => ratedHeap ns l' (upd h r (ratedByFallback ns (h r)))
  end.

Fixpoint ratedEvents (ns : NS) (l : list ref) (h : ref -> Server) : list Event :=
  match l with
  | [] => []
  | r :: l' =>
      fallbackEvent ns (h r) :: ratedEvents ns l' (upd h r (ratedByFallback ns (h r)))
  end.

(** [x >= y] for two recorded rates. *)
Definition atLeast (x y : option R) : Prop :=
  match x, y with
  | Some a, Some b => b <= a
  | _, _ => False
  end.

(** A list of rates from best to worst. *)
Fixpoint descending (l : list (option R)) : Prop :=
  match l with
  | x :: (y :: _) as rest => atLeast x y /\ descending rest
  | _ => True
  end.

(** The hacking skill a run works with (lines 48-52). *)
Definition runHacking (ns : NS) (options : Options) : Z :=
  if (at_hack_level options =? 0)%Z then skills_hacking (getPlayer ns)
  else at_hack_level options.

(** The server object of a reference, as scanned. *)
Definition scanned (ns : NS) (r : ref) : Server :=
  getServer ns (nth r (scanAllServers ns) ""%string).

(** The servers a run reports on, in the order of the scan. *)
Definition reportedServers (ns : NS) (options : Options) : list ref :=
  filter (fun r => reported options (runHacking ns options) (scanned ns r))
    (seq 0 (length (scanAllServers ns))).

(** The order in which a run evaluates them: the servers within the hack
    level in the order of the scan, then the servers above it by rising
    required skill. *)
Definition evaluationOrder (ns : NS) (options : Options) : list ref :=
  filter (fun r => (requiredHackingSkill (scanned ns r) <=? runHacking ns options)%Z)
    (reportedServers ns options)
  ++ sortBy (byRequiredHackingSkill (scanned ns))
       (filter (fun r => (runHacking ns options <? requiredHackingSkill (scanned ns r))%Z)
          (reportedServers ns options)).

(* ------------------------------------------------------------------ *)
(** ** Vocabulary of the runs *)

(** The hack percent passes the check of lines 38-46: it is -1, or the
    fraction it gives lies strictly between 0 and 1. *)
Definition inRange (options : Options) : Prop :=
  hack_percent options = -1 \/ 0 < hack_percent options / 100 < 1.

(** [useEstHackPercent] of a run (lines 37-39). *)
Definition estimating (options : Options) : bool :=
  if Req_dec_T (hack_percent options) (-1) then true else false.

(** [ramTotal] of a run (lines 55-62). *)
Definition ramTotalOf (ns : NS) (options : Options) : R :=
  fold_left (addRam options)
    (map (scanned ns) (seq 0 (length (scanAllServers ns)))) 0.

(** A server whose RAM enters the total. *)
Definition countsForRam (options : Options) (s : Server) : bool :=
  hasAdminRights s
  && (negb (prefix "hacknet" (hostname s)) || include_hacknet_ram options).

(** The reported servers within the hack level, in the order of the scan,
    and the ones above it, by rising required skill. *)
Definition unlockedOrder (ns : NS) (options : Options) : list ref :=
  filter (fun r => (requiredHackingSkill (scanned ns r) <=? runHacking ns options)%Z)
    (reportedServers ns options).

Definition lockedOrder (ns : NS) (options : Options) : list ref :=
  sortBy (byRequiredHackingSkill (scanned ns))
    (filter (fun r => (runHacking ns options <? requiredHackingSkill (scanned ns r))%Z)
       (reportedServers ns options)).

(** The state of a run once line 186 has printed the settings. *)
Definition started (ns : NS) (options : Options) : State :=
  mkState (mkPlayer (runHacking ns options)) (scanned ns) (hack_percent options / 100)
    [PrintSettings (all options) (runHacking ns options) (ramTotalOf ns options)].

(** The state after the servers within the hack level have been rated
    (lines 202-208). *)
Definition unlockedRated (ns : NS) (options : Options) : State :=
  snd (mapM (unlockedCallback ns options (ramTotalOf ns options) (estimating options))
         (unlockedOrder ns options) (started ns options)).

(** The state after line 213 has printed the best of them. *)
Definition announced (st : State) (best : ref) : State :=
  mkState (player st) (heap st) (hackPercent st)
    (out st ++ [PrintBestUnlocked (hostname (heap st best)) (gainRate (heap st best))]).

(** The state after the servers above the hack level have been rated
    against [best] (lines 221-259). *)
Definition lockedRated (ns : NS) (options : Options) (best : ref) : State :=
  snd (mapM (lockedCallback ns options (ramTotalOf ns options) (estimating options) best)
         (lockedOrder ns options) (announced (unlockedRated ns options) best)).

(** What lines 262-313 print and write, for the servers [bestServer] and
    [bestExpServer]. *)
Definition summary (options : Options) (h : ref -> Server) (hacking : Z)
    (serverEval : list ref) (bestServer bestExpServer : ref) : list Event :=
  (if silent options then []
   else [TPrintBest (hostname (h bestServer)) (gainRate (h bestServer))])
  ++ [PrintGainList hacking (numbered (gainLine h) 1 serverEval)]
  ++ (if silent options then []
      else [TPrintBestExp (hostname (h bestExpServer)) (expRate (h bestExpServer))])
  ++ [PrintExpList hacking
        (numbered (expLine h) 1 (firstn (Nat.min 5 (length serverEval)) serverEval));
      FileWrite "/Temp/analyze-hack.txt" (map (rankedRecord h) serverEval) "w"].

(** [x > y] for two recorded rates. *)
Definition better (x y : option R) : Prop :=
  match x, y with
  | Some a, Some b => b < a
  | _, _ => False
  end.

(** The three rates have been recorded on a server object. *)
Definition rated (s : Server) : Prop :=
  theoreticalGainRate s <> None /\ gainRate s <> None /\ expRate s <> None.

(** The fields of a server object the script reads and never assigns. *)
Definition sameServer (s s' : Server) : Prop :=
  hostname s' = hostname s
  /\ hasAdminRights s' = hasAdminRights s
  /\ purchasedByPlayer s' = purchasedByPlayer s
  /\ maxRam s' = maxRam s
  /\ moneyMax s' = moneyMax s
  /\ minDifficulty s' = minDifficulty s
  /\ requiredHackingSkill s' = requiredHackingSkill s.

(** A message of [ns.print] inside an evaluation: the warning about the
    hack gain, or the rates. *)
Definition rateMessage (e : Event) : bool :=
  match e with
  | PrintWarnHackGain _ _ _ | PrintFormulasRates _ _ _ _ _ _ _
  | PrintFallbackRates _ _ _ _ _ _ _ => true
  | _ => false
  end.

(** Such a message, or the message about a scaling (line 246). *)
Definition logged (e : Event) : bool :=
  match e with
  | PrintScaled _ _ _ _ _ _ => true
  | _ => rateMessage e
  end.

(** The output of [st'] is the one of [st] and then messages of the kind
    [ok]. *)
Definition logging (ok : Event -> bool) (st st' : State) : Prop :=
  exists events, out st' = out st ++ events /\ forallb ok events = true.

(** [st'] comes after [st] by evaluations: the player is the same, no
    server object differs in a field the script only reads, and the output
    has grown by messages of [ns.print] about the evaluations. *)
Definition evaluating (st st' : State) : Prop :=
  player st' = player st
  /\ (forall r, sameServer (heap st r) (heap st' r))
  /\ logging logged st st'.

(** The options with [--silent] given. *)
Definition silenced (options : Options) : Options :=
  mkOptions (all options) true (at_hack_level options) (hack_percent options)
    (include_hacknet_ram options) (disable_formulas_api options).

(** A message of [ns.tprint]. *)
Definition toTerminal (e : Event) : bool :=
  match e with
  | TPrintOutOfRange | TPrintBest _ _ | TPrintBestExp _ _ => true
  | _ => false
  end.

(** The message with the rates of one evaluation (lines 135 and 170). *)
Definition ratesMessage (e : Event) : bool :=
  match e with
  | PrintFormulasRates _ _ _ _ _ _ _ | PrintFallbackRates _ _ _ _ _ _ _ => true
  | _ => false
  end.

(** The number of evaluations a list of messages reports. *)
Definition evaluations (events : list Event) : nat :=
  length (filter ratesMessage events).

(** A message about rates from the formulas API is for the hack percent
    [p]. *)
Definition forPercent (p : R) (e : Event) : Prop :=
  match e with
  | PrintFormulasRates _ percent _ _ _ _ _ => percent = p
  | _ => True
  end.

(** With the hack percent at [p], a computation keeps it there and prints
    messages for [p] only. *)
Definition keepsPercent (p : R) (st st' : State) : Prop :=
  hackPercent st = p ->
  hackPercent st' = p
  /\ exists events, out st' = out st ++ events /\ Forall (forPercent p) events.

(** [a] is listed before [b] among the servers above the hack level: it
    needs less skill, or the same skill and comes first in the scan. *)
Definition listedBefore (h : ref -> Server) (a b : ref) : Prop :=
  (requiredHackingSkill (h a) < requiredHackingSkill (h b))%Z
  \/ (requiredHackingSkill (h a) = requiredHackingSkill (h b) /\ (a < b)%nat).

(** The state in which [server] has the security [difficulty] and the
    money [money] at the moment. *)
Definition atTheMoment (server : ref) (difficulty money : R) (st : State) : State :=
  mkState (player st)
    (upd (heap st) server
       (set_moneyAvailable money (set_hackDifficulty difficulty (heap st server))))
    (hackPercent st) (out st).

(** An estimate an evaluation may record: 1, or a fraction from 1e-10 to
    0.98. *)
Definition estimated (s : Server) : Prop :=
  exists f, estHackPercent s = Some f /\ (f = 1 \/ 1e-10 <= f <= 0.98).

(** A message about rates from the formulas API is for a hack percent
    strictly between 0 and 1. *)
Definition forFraction (e : Event) : Prop :=
  match e with
  | PrintFormulasRates _ percent _ _ _ _ _ => 0 < percent < 1
  | _ => True
  end.

(** A computation prints messages for such hack percents only, and keeps a
    hack percent given on the command line ([estimate] is [false]) as it
    is. *)
Definition keepsFraction (estimate : bool) (st st' : State) : Prop :=
  (estimate = false -> 0 < hackPercent st < 1) ->
  (estimate = false -> hackPercent st' = hackPercent st)
  /\ exists events, out st' = out st ++ events /\ Forall forFraction events.

(** The interface with [ns.formulas] replaced. *)
Definition withFormulas (f : option hacking.t) (ns : NS) : NS :=
  mkNS f (getWeakenTime ns) (getPlayer ns) (getServer ns) (scanAllServers ns).





(* ------------------------------------------------------------------ *)
(** ** Scenarios *)

(** Scenario A of the specification: a target with [moneyMax] 1,000,000 and
    [minDifficulty] 10 whose weaken time is observed as 400,000, evaluated
    with formulas disabled. *)
Definition scenarioA_server : Server :=
  mkServer "target" true false 0 1000000 0 10 10 1 None None None None.

Definition scenarioA_ns : NS :=
  mkNS None (fun _ => 400000) (mkPlayer 1) (fun _ => scenarioA_server) ["target"%string].

Definition scenarioA_options : Options := mkOptions false false 0 (-1) false true.

Definition scenarioA_state : State := initial scenarioA_ns scenarioA_options.

(** Scenario B of the specification: total RAM 1000, hack gain 0.02, growth
    gain 0.1 in the log domain, hack cost 50 and grow cost 200.  The
    formulas API answers with a weaken time of 0, so that the costs are
    [growRam * growTime] and [hackRam * hackTime]. *)
Definition scenarioB_formulas : hacking.t :=
  hacking.mk (fun _ _ => Some 0) (fun _ _ => Some (200 / 1.75))
    (fun _ _ => Some (50 / 1.7)) (fun _ _ _ _ => Some (exp 0.1))
    (fun _ _ => Some 0.02) (fun _ _ => Some 1) (fun _ _ => Some 1).

Definition scenarioB_server : Server :=
  mkServer "target" true false 0 1000 0 1 5 1 None None None None.

Definition scenarioB_ns : NS :=
  mkNS (Some scenarioB_formulas) (fun _ => 400000) (mkPlayer 1)
    (fun _ => scenarioB_server) ["target"%string].

Definition scenarioB_options : Options := mkOptions false false 0 (-1) false false.

Definition scenarioB_state : State := initial scenarioB_ns scenarioB_options.

(** A formulas API whose [hackChance] throws: the [try] block is left
    after the estimate has been recorded. *)
Definition throwing_formulas : hacking.t :=
  hacking.mk (fun _ _ => Some 0) (fun _ _ => Some (200 / 1.75))
    (fun _ _ => Some (50 / 1.7)) (fun _ _ _ _ => Some (exp 0.1))
    (fun _ _ => Some 0.02) (fun _ _ => None) (fun _ _ => Some 1).

Definition throwing_ns : NS :=
  mkNS (Some throwing_formulas) (fun _ => 400000) (mkPlayer 1)
    (fun _ => scenarioB_server) ["target"%string].

Definition throwing_state : State := initial throwing_ns scenarioB_options.

(** A target whose hack gain is 5e-11, half of [minHackGain], evaluated for
    an explicit hack percent of 50. *)
Definition lowGain_formulas : hacking.t :=
  hacking.mk (fun _ _ => Some 0) (fun _ _ => Some 4) (fun _ _ => Some 10)
    (fun _ _ _ _ => Some 2) (fun _ _ => Some 5e-11) (fun _ _ => Some 1)
    (fun _ _ => Some 17).

Definition lowGain_server : Server :=
  mkServer "target" true false 0 170000000007 0 1 5 1 None None None None.

Definition lowGain_ns : NS :=
  mkNS (Some lowGain_formulas) (fun _ => 400000) (mkPlayer 1)
    (fun _ => lowGain_server) ["target"%string].

Definition lowGain_options : Options := mkOptions false false 0 50 false false.

Definition lowGain_state : State := initial lowGain_ns lowGain_options.

(** Six servers within the hack level, named a to f, with rising money and
    difficulty, evaluated with formulas disabled. *)
Definition plainServer (name : string) (money difficulty : R) : Server :=
  mkServer name true false 8 money money difficulty difficulty 1 None None None None.

Definition sixServers (name : string) : Server :=
  if String.eqb name "a" then plainServer "a" 200 0
  else if String.eqb name "b" then plainServer "b" 400 10
  else if String.eqb name "c" then plainServer "c" 600 20
  else if String.eqb name "d" then plainServer "d" 800 30
  else if String.eqb name "e" then plainServer "e" 1000 40
  else plainServer "f" 1200 50.

Definition six_ns : NS :=
  mkNS None (fun _ => 800) (mkPlayer 1) sixServers
    ["a"%string; "b"%string; "c"%string; "d"%string; "e"%string; "f"%string].

Definition six_options : Options := mkOptions false false 0 (-1) false true.

(** What the run on the six servers prints and writes. *)
Definition six_gainLines : list GainLine :=
  [
   mkGainLine 1 "a" (Some 1) (Some 1) 1;
   mkGainLine 2 "b" (Some 2) (Some 1) 1;
   mkGainLine 3 "c" (Some 3) (Some 1) 1;
   mkGainLine 4 "d" (Some 4) (Some 1) 1;
   mkGainLine 5 "e" (Some 5) (Some 1) 1;
   mkGainLine 6 "f" (Some 6) (Some 1) 1
  ].

Definition six_expLines : list ExpLine :=
  [
   mkExpLine 1 "a" (Some 0.015);
   mkExpLine 2 "b" (Some 0.03);
   mkExpLine 3 "c" (Some 0.045);
   mkExpLine 4 "d" (Some 0.06);
   mkExpLine 5 "e" (Some 0.075)
  ].

Definition six_records : list RankedRecord :=
  [
   mkRecord "a" (Some 1) (Some 0.015);
   mkRecord "b" (Some 2) (Some 0.03);
   mkRecord "c" (Some 3) (Some 0.045);
   mkRecord "d" (Some 4) (Some 0.06);
   mkRecord "e" (Some 5) (Some 0.075);
   mkRecord "f" (Some 6) (Some 0.09)
  ].

Definition six_output : list Event :=
  [PrintSettings false 1 48;
   PrintFallbackRates 200 200 200 1 1 0.015 "a";
   PrintFallbackRates 400 200 200 2 2 0.03 "b";
   PrintFallbackRates 600 200 200 3 3 0.045 "c";
   PrintFallbackRates 800 200 200 4 4 0.06 "d";
   PrintFallbackRates 1000 200 200 5 5 0.075 "e";
   PrintFallbackRates 1200 200 200 6 6 0.09 "f";
   PrintBestUnlocked "f" (Some 6);
   TPrintBest "f" (Some 6);
   PrintGainList 1 six_gainLines;
   TPrintBestExp "f" (Some 0.09);
   PrintExpList 1 six_expLines;
   FileWrite "/Temp/analyze-hack.txt" six_records "w"].

(** A server a within the hack level and a server b that needs hack level
    10, with 16 of RAM in total.  The hack chance is 1/2 below level 10 and
    1 from level 10 on; the hack percent is 50, given explicitly.
    [skill_state] is the state after a has been rated at hack level 1. *)
Definition skill_formulas : hacking.t :=
  hacking.mk (fun _ _ => Some 0) (fun _ _ => Some 4) (fun _ _ => Some 10)
    (fun _ _ _ _ => Some 2) (fun _ _ => Some (50 / 100))
    (fun _ p => Some (if (10 <=? skills_hacking p)%Z then 1 else 1 / 2))
    (fun _ _ => Some 17).

Definition skillServers (name : string) : Server :=
  if String.eqb name "a"
  then mkServer "a" true false 8 24 24 1 1 1 None None None None
  else mkServer "b" true false 8 48 48 1 1 10 None None None None.

Definition skill_ns : NS :=
  mkNS (Some skill_formulas) (fun _ => 400000) (mkPlayer 1) skillServers
    ["a"%string; "b"%string].

Definition skill_options : Options := mkOptions true false 0 50 false false.

Definition skill_state : State :=
  snd (unlockedCallback skill_ns skill_options 16 false 0%nat
         (initial skill_ns skill_options)).

(** A scan that finds no server. *)
Definition noServers_ns : NS :=
  mkNS None (fun _ => 400000) (mkPlayer 1) (fun _ => scenarioA_server) [].

(** Options with a hack percent of 100, and [--silent]. *)
Definition hundred_options : Options := mkOptions false true 0 100 false false.

(* ------------------------------------------------------------------ *)
(** ** Reasoning about the heap and the monad *)

Lemma upd_same (h : ref -> Server) (r : ref) (s : Server) : upd h r s r = s.
Proof. unfold upd. now rewrite Nat.eqb_refl. Qed.

Lemma upd_other (h : ref -> Server) (r r' : ref) (s : Server) :
  r' <> r -> upd h r s r' = h r'.
Proof.
  intros Hne. unfold upd.
  destruct (Nat.eqb r' r) eqn:E; [apply Nat.eqb_eq in E; contradiction | reflexivity].
Qed.

(** A second assignment to an object replaces the first. *)
Lemma upd_shadow (h : ref -> Server) (r : ref) (s s' : Server) :
  upd (upd h r s) r s' = upd h r s'.
Proof.
  apply functional_extensionality. intros i. unfold upd.
  now destruct (Nat.eqb i r).
Qed.

Lemma player_eta (p : Player) : mkPlayer (skills_hacking p) = p.
Proof. now destruct p. Qed.

Lemma Rleb_true (x y : R) : x <= y -> Rleb x y = true.
Proof. intros H. unfold Rleb. destruct (Rle_dec x y); [reflexivity | contradiction]. Qed.

Lemma Rleb_false (x y : R) : y < x -> Rleb x y = false.
Proof. intros H. unfold Rleb. destruct (Rle_dec x y); [lra | reflexivity]. Qed.

Lemma Rltb_true (x y : R) : x < y -> Rltb x y = true.
Proof. intros H. unfold Rltb. destruct (Rlt_dec x y); [reflexivity | contradiction]. Qed.

Lemma Rltb_false (x y : R) : y <= x -> Rltb x y = false.
Proof. intros H. unfold Rltb. destruct (Rlt_dec x y); [lra | reflexivity]. Qed.

Lemma truthy_true (x : R) : x <> 0 -> truthy x = true.
Proof. intros H. unfold truthy. destruct (Req_dec_T x 0); [contradiction | reflexivity]. Qed.

Lemma truthy_zero : truthy 0 = false.
Proof. unfold truthy. destruct (Req_dec_T 0 0); [reflexivity | contradiction]. Qed.

(** Evaluation of a run, with the estimate and the bounds left folded. *)
Ltac norm :=
  repeat (progress (cbn -[estimateHackPercent Rmin Rmax]; rewrite ?upd_same)).

(** The fallback, run: its rates, the estimate 1 on the server, and its
    message. *)
Lemma fallbackRates_run (ns : NS) (server : ref) (st : State) :
  fallbackRates ns server st =
  (Ok (fallbackTriple ns (heap st server)),
   mkState (player st)
     (upd (heap st) server (set_estHackPercent (Some 1) (heap st server)))
     (hackPercent st)
     (out st ++ [fallbackEvent ns (heap st server)])).
Proof.
  unfold fallbackRates, fallbackTriple, fallbackEvent, bind, getField, gets,
    setServer, emit, modify, ret, Math.max.
  cbn. rewrite !upd_same. cbn.
  replace (getWeakenTime ns (hostname (heap st server)) / 4.0)
    with (getWeakenTime ns (hostname (heap st server)) / 4) by lra.
  reflexivity.
Qed.

(** The evaluation when the formulas API answers every call: the rates, the
    state it leaves and what it prints, from the seven answers. *)
Section FormulasPath.

Variables (ns : NS) (options : Options) (ramTotal : R) (useEstHackPercent : bool).
Variables (server : ref) (hackLevel : Z) (st : State).
Variables (h : hacking.t) (wt gt ht gp hg ch he : R).

Let s1 := prepared (heap st server).
Let p1 := mkPlayer hackLevel.
Let est := estimateHackPercent ramTotal hg (ln gp) (hackCostOf wt ht) (growCostOf wt gt).
Let s2 := set_estHackPercent (Some est) s1.
Let hp := if useEstHackPercent then est else hackPercent st.
Let profit := hackProfitOf (moneyMax (heap st server)) hp ch.
Let theoretical :=
  theoreticalOf profit hp (growCostOf wt gt) (hackCostOf wt ht) (ln gp) hg.

Hypothesis enabled : disable_formulas_api options = false.
Hypothesis present : formulas ns = Some h.
Hypothesis H_weakenTime : hacking.weakenTime h s1 p1 = Some wt.
Hypothesis H_growTime : hacking.growTime h s1 p1 = Some gt.
Hypothesis H_hackTime : hacking.hackTime h s1 p1 = Some ht.
Hypothesis H_growPercent : hacking.growPercent h s1 1 p1 1 = Some gp.
Hypothesis H_hackPercent : hacking.hackPercent h s1 p1 = Some hg.
Hypothesis H_hackChance : hacking.hackChance h s2 p1 = Some ch.
Hypothesis H_hackExp : hacking.hackExp h s2 p1 = Some he.

Lemma getRatesAtHackLevel_formulas :
  let res := getRatesAtHackLevel ns options ramTotal useEstHackPercent server hackLevel st in
  fst res = Ok (theoretical, Rmin theoretical (profit / ramTotal),
                expRateOf he (hackCostOf wt ht))
  /\ player (snd res) = player st
  /\ heap (snd res) server = s2
  /\ (forall r, r <> server -> heap (snd res) r = heap st r)
  /\ hackPercent (snd res) = hp
  /\ out (snd res) =
       out st
       ++ (if Rleb hg minHackGain
           then [PrintWarnHackGain hg minHackGain (hostname (heap st server))]
           else [])
       ++ [PrintFormulasRates hackLevel hp theoretical (profit / ramTotal)
             (expRateOf he (hackCostOf wt ht)) ch (hostname (heap st server))].
Proof.
  intros res. subst res.
  unfold getRatesAtHackLevel. rewrite enabled. cbn [negb].
  unfold assumeBestCase, formulasRates, tryCatchFinally, bind, getField, gets, setServer,
    setPlayerHacking, setHackPercent, emit, modify, ret, when, callFormulas.
  rewrite present.
  unfold s1, p1, prepared in *.
  norm. rewrite H_weakenTime.
  norm. rewrite H_growTime.
  norm. rewrite H_hackTime.
  norm. rewrite H_growPercent.
  norm. rewrite H_hackPercent.
  unfold profit, theoretical, hp, s2, est, hackProfitOf, theoreticalOf, expRateOf,
    growCostOf, hackCostOf, Math.log, Math.min in *.
  destruct (Rleb hg minHackGain); destruct useEstHackPercent; norm;
    rewrite H_hackChance; norm; rewrite H_hackExp; norm; rewrite H_hackChance; norm;
    repeat split;
    first [ apply player_eta
          | intros r Hr; now rewrite !upd_other by assumption
          | rewrite <- ?app_assoc; reflexivity ].
Qed.

End FormulasPath.

(* ------------------------------------------------------------------ *)
(** ** What an evaluation may change *)

Lemma set_estHackPercent_eta (s : Server) : s = set_estHackPercent (estHackPercent s) s.
Proof. now destruct s. Qed.

Lemma onlyEstimate_refl (server : ref) (st : State) : onlyEstimate server st st.
Proof.
  repeat split; auto using set_estHackPercent_eta.
  exists []. now rewrite app_nil_r.
Qed.

Lemma onlyEstimate_trans (server : ref) (st1 st2 st3 : State) :
  onlyEstimate server st1 st2 -> onlyEstimate server st2 st3 -> onlyEstimate server st1 st3.
Proof.
  intros (Hp & Ho & Hs & e1 & He1) (Hp' & Ho' & Hs' & e2 & He2).
  repeat split.
  - congruence.
  - intros r Hr. rewrite Ho', Ho by assumption. reflexivity.
  - rewrite Hs', Hs. now destruct (heap st1 server).
  - exists (e1 ++ e2). rewrite He2, He1. now rewrite app_assoc.
Qed.

Section Preserves.

Variable server : ref.
Let rel := onlyEstimate server.

Lemma preserves_ret {A : Type} (a : A) : preserves rel (ret a).
Proof. intros st. apply onlyEstimate_refl. Qed.

Lemma preserves_throw {A : Type} : preserves rel (@throw A).
Proof. intros st. apply onlyEstimate_refl. Qed.

Lemma preserves_gets {A : Type} (f : State -> A) : preserves rel (gets f).
Proof. intros st. apply onlyEstimate_refl. Qed.

Lemma preserves_bind {A B : Type} (c : M A) (k : A -> M B) :
  preserves rel c -> (forall a, preserves rel (k a)) -> preserves rel (bind c k).
Proof.
  intros Hc Hk st. unfold bind. specialize (Hc st).
  destruct (c st) as [[a|] st']; cbn in *.
  - eapply onlyEstimate_trans; [exact Hc | apply Hk].
  - exact Hc.
Qed.

Lemma preserves_when (b : bool) (c : M unit) :
  preserves rel c -> preserves rel (when b c).
Proof. intros Hc. destruct b; [exact Hc | apply preserves_ret]. Qed.

Lemma preserves_emit (e : Event) : preserves rel (emit e).
Proof.
  intros st. repeat split; cbn; auto using set_estHackPercent_eta.
  now exists [e].
Qed.

Lemma preserves_setHackPercent (v : R) : preserves rel (setHackPercent v).
Proof.
  intros st. repeat split; cbn; auto using set_estHackPercent_eta.
  exists []. now rewrite app_nil_r.
Qed.

Lemma preserves_setEstimate (v : option R) :
  preserves rel (setServer server (set_estHackPercent v)).
Proof.
  intros st. repeat split; cbn.
  - intros r Hr. now apply upd_other.
  - now rewrite upd_same.
  - exists []. now rewrite app_nil_r.
Qed.

Lemma preserves_callFormulas (ns : NS) (f : hacking.t -> Server -> Player -> option R)
    (r : ref) :
  preserves rel (callFormulas ns f r).
Proof.
  intros st. unfold callFormulas.
  destruct (formulas ns) as [h|]; [destruct (f h _ _) |]; apply onlyEstimate_refl.
Qed.

Lemma preserves_formulasRates (ns : NS) (ramTotal : R) (useEstHackPercent : bool)
    (hackLevel : Z) :
  preserves rel (formulasRates ns ramTotal useEstHackPercent server hackLevel).
Proof.
  unfold formulasRates, getField.
  repeat first
    [ apply preserves_bind; [ | intros ? ]
    | apply preserves_callFormulas
    | apply preserves_gets
    | apply preserves_when
    | apply preserves_emit
    | apply preserves_setHackPercent
    | apply preserves_setEstimate
    | apply preserves_ret ].
Qed.

Lemma preserves_fallbackRates (ns : NS) : preserves rel (fallbackRates ns server).
Proof.
  unfold fallbackRates, getField.
  repeat first
    [ apply preserves_bind; [ | intros ? ]
    | apply preserves_gets
    | apply preserves_emit
    | apply preserves_setEstimate
    | apply preserves_ret ].
Qed.

End Preserves.

(** The assignments before the [try] block, run. *)
Lemma assumeBestCase_run (server : ref) (hackLevel : Z) (st : State) :
  let st' := snd (assumeBestCase server hackLevel st) in
  fst (assumeBestCase server hackLevel st) = Ok tt
  /\ player st' = mkPlayer hackLevel
  /\ heap st' server = prepared (heap st server)
  /\ (forall r, r <> server -> heap st' r = heap st r)
  /\ hackPercent st' = hackPercent st
  /\ out st' = out st.
Proof.
  unfold assumeBestCase, prepared, bind, getField, gets, setServer, setPlayerHacking,
    modify.
  norm. repeat split.
  intros r Hr. now rewrite !upd_other by assumption.
Qed.

(** The two ways an evaluation ends. *)
Section Evaluation.

Variables (ns : NS) (options : Options) (ramTotal : R) (useEstHackPercent : bool).
Variables (server : ref) (hackLevel : Z) (st : State).

Let res := getRatesAtHackLevel ns options ramTotal useEstHackPercent server hackLevel st.

Lemma tryBlock_state :
  player (snd (tryBlock ns ramTotal useEstHackPercent server hackLevel st)) = mkPlayer hackLevel
  /\ (forall r, r <> server -> heap (snd (tryBlock ns ramTotal useEstHackPercent server hackLevel st)) r = heap st r)
  /\ heap (snd (tryBlock ns ramTotal useEstHackPercent server hackLevel st)) server
     = set_estHackPercent (estHackPercent (heap (snd (tryBlock ns ramTotal useEstHackPercent server hackLevel st)) server))
         (prepared (heap st server))
  /\ exists events, out (snd (tryBlock ns ramTotal useEstHackPercent server hackLevel st)) = out st ++ events.
Proof.
  destruct (preserves_formulasRates server ns ramTotal useEstHackPercent hackLevel
              (snd (assumeBestCase server hackLevel st)))
    as (Hp & Ho & Hs & evs & He).
  destruct (assumeBestCase_run server hackLevel st) as (_ & Hp0 & Hs0 & Ho0 & _ & He0).
  fold (tryBlock ns ramTotal useEstHackPercent server hackLevel st) in Hp, Ho, Hs, He. cbv zeta in *.
  repeat split.
  - congruence.
  - intros r Hr. rewrite Ho, Ho0 by assumption. reflexivity.
  - rewrite Hs at 1. now rewrite Hs0.
  - exists evs. now rewrite He, He0.
Qed.

Lemma getRatesAtHackLevel_fallback :
  (usesFallback ns options ramTotal useEstHackPercent server hackLevel st) = true ->
  fst res = Ok (fallbackTriple ns (heap st server))
  /\ player (snd res) = player st
  /\ (forall r, r <> server -> heap (snd res) r = heap st r)
  /\ heap (snd res) server
     = set_estHackPercent (Some 1)
         (if disable_formulas_api options then heap st server
          else prepared (heap st server))
  /\ exists events, out (snd res) = out st ++ events ++ [fallbackEvent ns (heap st server)].
Proof.
  unfold usesFallback. intros Hf. subst res.
  destruct (disable_formulas_api options) eqn:Hd; cbn [negb orb] in *.
  - replace (getRatesAtHackLevel ns options ramTotal useEstHackPercent server hackLevel st)
      with (fallbackRates ns server st)
      by (unfold getRatesAtHackLevel; now rewrite Hd).
    rewrite fallbackRates_run. cbn [fst snd player heap out].
    repeat split.
    + intros r Hr. now apply upd_other.
    + now rewrite upd_same.
    + now exists [].
  - destruct tryBlock_state as (Hp & Ho & Hs & evs & He).
    destruct (assumeBestCase_run server hackLevel st) as (Hok & _).
    unfold tryBlock in *.
    destruct (assumeBestCase server hackLevel st) as [o st0] eqn:E0.
    cbn [fst snd] in *. subst o.
    destruct (formulasRates ns ramTotal useEstHackPercent server hackLevel st0)
      as [[r|] st1] eqn:E1; cbn [fst snd] in *; [discriminate|].
    assert (Hrun :
      getRatesAtHackLevel ns options ramTotal useEstHackPercent server hackLevel st
      = fallbackRates ns server
          (mkState (mkPlayer (skills_hacking (player st))) (heap st1)
             (hackPercent st1) (out st1))).
    { unfold getRatesAtHackLevel. rewrite Hd. cbn [negb].
      unfold bind, tryCatchFinally, gets, ret, setPlayerHacking, modify.
      rewrite E0. rewrite E1. reflexivity. }
    rewrite Hrun, fallbackRates_run. cbn [fst snd player heap out].
    rewrite Hs. repeat split.
    + apply player_eta.
    + intros r Hr. rewrite upd_other by assumption. now apply Ho.
    + rewrite upd_same. now destruct (heap st server).
    + exists evs. rewrite He. rewrite <- app_assoc.
      now destruct (heap st server).
Qed.

Lemma getRatesAtHackLevel_completed :
  (usesFallback ns options ramTotal useEstHackPercent server hackLevel st) = false ->
  exists rates,
    fst (tryBlock ns ramTotal useEstHackPercent server hackLevel st) = Ok rates
    /\ fst res = Ok rates
    /\ player (snd res) = player st
    /\ heap (snd res) = heap (snd (tryBlock ns ramTotal useEstHackPercent server hackLevel st))
    /\ hackPercent (snd res) = hackPercent (snd (tryBlock ns ramTotal useEstHackPercent server hackLevel st))
    /\ out (snd res) = out (snd (tryBlock ns ramTotal useEstHackPercent server hackLevel st)).
Proof.
  unfold usesFallback. intros Hf. subst res.
  destruct (disable_formulas_api options) eqn:Hd; cbn [negb orb] in *; [discriminate|].
  destruct (assumeBestCase_run server hackLevel st) as (Hok & _).
  unfold tryBlock in *.
  unfold getRatesAtHackLevel. rewrite Hd. cbn [negb].
  unfold bind, tryCatchFinally, gets, ret, setPlayerHacking, modify.
  destruct (assumeBestCase server hackLevel st) as [o st0] eqn:E0.
  cbn [fst snd] in *. subst o.
  destruct (formulasRates ns ramTotal useEstHackPercent server hackLevel st0)
    as [[r|] st1] eqn:E1; cbn [fst snd] in *; [|discriminate].
  exists r. cbn. repeat split. apply player_eta.
Qed.

End Evaluation.

(* ------------------------------------------------------------------ *)
(** ** Properties of [getRatesAtHackLevel] *)

(** C3.  An evaluation at a hypothetical hack level leaves the player's real
    hacking skill as it found it: whether formulas are disabled, the [try]
    block completes, or the formulas API throws partway through, the skill
    after the call is the skill before it. *)
Theorem getRatesAtHackLevel_restores_skill
    (ns : NS) (options : Options) (ramTotal : R) (useEstHackPercent : bool)
    (server : ref) (hackLevel : Z) (st : State) :
  skills_hacking
    (player (snd (getRatesAtHackLevel ns options ramTotal useEstHackPercent
                    server hackLevel st)))
  = skills_hacking (player st).
Proof.
  destruct (usesFallback ns options ramTotal useEstHackPercent server hackLevel st) eqn:E.
  - apply getRatesAtHackLevel_fallback in E. destruct E as (_ & Hp & _). now rewrite Hp.
  - apply getRatesAtHackLevel_completed in E. destruct E as (r & _ & _ & Hp & _).
    now rewrite Hp.
Qed.

Section Answers.

Variables (ns : NS) (options : Options) (ramTotal : R) (useEstHackPercent : bool).
Variables (server : ref) (hackLevel : Z) (st : State).

(** The [try] block completes only when the formulas API is there and each
    of its calls answers; the server it is asked about is the object as the
    script has changed it by then. *)
Lemma tryBlock_completes_inv (rates : R * R * R) :
  fst (tryBlock ns ramTotal useEstHackPercent server hackLevel st) = Ok rates ->
  exists h wt gt ht gp hg ch he,
    let s1 := prepared (heap st server) in
    let p1 := mkPlayer hackLevel in
    let s2 :=
      set_estHackPercent
        (Some (estimateHackPercent ramTotal hg (ln gp) (hackCostOf wt ht) (growCostOf wt gt)))
        s1 in
    formulas ns = Some h
    /\ hacking.weakenTime h s1 p1 = Some wt
    /\ hacking.growTime h s1 p1 = Some gt
    /\ hacking.hackTime h s1 p1 = Some ht
    /\ hacking.growPercent h s1 1 p1 1 = Some gp
    /\ hacking.hackPercent h s1 p1 = Some hg
    /\ hacking.hackChance h s2 p1 = Some ch
    /\ hacking.hackExp h s2 p1 = Some he.
Proof.
  unfold tryBlock.
  destruct (assumeBestCase_run server hackLevel st) as (_ & Hp & Hs & _).
  cbv zeta in Hp, Hs.
  destruct (snd (assumeBestCase server hackLevel st)) as [p0 h0 hp0 o0].
  cbn [player heap] in Hp, Hs. subst p0.
  unfold formulasRates, bind, getField, gets, setServer, setHackPercent, emit, modify,
    ret, when, callFormulas.
  destruct (formulas ns) as [h|]; [|discriminate].
  norm. rewrite Hs.
  destruct (hacking.weakenTime h _ _) as [wt|] eqn:E1; [|discriminate]. norm.
  destruct (hacking.growTime h _ _) as [gt|] eqn:E2; [|discriminate]. norm.
  destruct (hacking.hackTime h _ _) as [ht|] eqn:E3; [|discriminate]. norm.
  destruct (hacking.growPercent h _ _ _ _) as [gp|] eqn:E4; [|discriminate]. norm.
  destruct (hacking.hackPercent h _ _) as [hg|] eqn:E5; [|discriminate]. norm.
  unfold hackCostOf, growCostOf, Math.log in *.
  destruct (Rleb hg minHackGain); destruct useEstHackPercent; norm.
  all: destruct (hacking.hackChance h _ _) as [ch|] eqn:E6; [|discriminate]; norm.
  all: destruct (hacking.hackExp h _ _) as [he|] eqn:E7; [|discriminate]; norm.
  all: intros _; exists h, wt, gt, ht, gp, hg, ch, he; cbv zeta.
  all: rewrite Hs in *; repeat split; assumption.
Qed.

Lemma tryBlock_absent :
  formulas ns = None ->
  fst (tryBlock ns ramTotal useEstHackPercent server hackLevel st) = Thrown.
Proof.
  intros Habsent. unfold tryBlock, formulasRates, bind, callFormulas.
  now rewrite Habsent.
Qed.

End Answers.

(** The estimate of the [try] block lies between [minHackGain] and 0.98. *)
Lemma estimateHackPercent_bounds (ramTotal hackGain growGain hackCost growCost : R) :
  minHackGain <= estimateHackPercent ramTotal hackGain growGain hackCost growCost <= 0.98.
Proof.
  unfold estimateHackPercent, minHackGain, Math.max, Math.min, Rmax, Rmin.
  repeat destruct (Rle_dec _ _); lra.
Qed.

(** An evaluation always returns. *)
Lemma getRatesAtHackLevel_total
    (ns : NS) (options : Options) (ramTotal : R) (useEstHackPercent : bool)
    (server : ref) (hackLevel : Z) (st : State) :
  exists rates st',
    getRatesAtHackLevel ns options ramTotal useEstHackPercent server hackLevel st
    = (Ok rates, st').
Proof.
  assert (H : exists rates,
    fst (getRatesAtHackLevel ns options ramTotal useEstHackPercent server hackLevel st)
    = Ok rates).
  { destruct (usesFallback ns options ramTotal useEstHackPercent server hackLevel st) eqn:E.
    - apply getRatesAtHackLevel_fallback in E. destruct E as (Hr & _). eauto.
    - apply getRatesAtHackLevel_completed in E. destruct E as (r & _ & Hr & _). eauto. }
  destruct H as (rates & Hr).
  destruct (getRatesAtHackLevel ns options ramTotal useEstHackPercent server hackLevel st)
    as [o st'].
  cbn [fst] in Hr. subst o. eauto.
Qed.

(** C4.  Every evaluation returns a triple of rates: nothing is thrown to
    the caller.  When formulas are disabled by the options, when the
    formulas API is missing, or when one of its calls throws inside the
    [try] block, the triple is the one of the fallback computation, whose
    message is the last thing the evaluation prints. *)
Theorem getRatesAtHackLevel_never_throws
    (ns : NS) (options : Options) (ramTotal : R) (useEstHackPercent : bool)
    (server : ref) (hackLevel : Z) (st : State) :
  (exists rates,
     fst (getRatesAtHackLevel ns options ramTotal useEstHackPercent server hackLevel st)
     = Ok rates)
  /\ (disable_formulas_api options = true
      \/ formulas ns = None
      \/ fst (tryBlock ns ramTotal useEstHackPercent server hackLevel st) = Thrown ->
      fst (getRatesAtHackLevel ns options ramTotal useEstHackPercent server hackLevel st)
      = Ok (fallbackTriple ns (heap st server))
      /\ exists events,
           out (snd (getRatesAtHackLevel ns options ramTotal useEstHackPercent
                       server hackLevel st))
           = out st ++ events ++ [fallbackEvent ns (heap st server)]).
Proof.
  split.
  - destruct (getRatesAtHackLevel_total ns options ramTotal useEstHackPercent
                server hackLevel st) as (rates & st' & E).
    exists rates. now rewrite E.
  - intros Hcase.
    assert (E : usesFallback ns options ramTotal useEstHackPercent server hackLevel st = true).
    { unfold usesFallback. destruct Hcase as [Hd | [Ha | Ht]].
      - now rewrite Hd.
      - rewrite (tryBlock_absent _ _ _ _ _ _ Ha). apply orb_true_r.
      - rewrite Ht. apply orb_true_r. }
    apply getRatesAtHackLevel_fallback in E. destruct E as (Hr & _ & _ & _ & He).
    split; assumption.
Qed.

(** Rates are compared component by component. *)
Lemma rates_eq (a b c a' b' c' : R) :
  a = a' -> b = b' -> c = c' -> Ok (a, b, c) = Ok (a', b', c').
Proof. intros -> -> ->. reflexivity. Defined.

(** C6.  When an evaluation ends in the fallback, with [hackTime] a quarter
    of the observed weaken time and [cappedTimeToHack] the larger of
    [hackTime] and 200, it returns [moneyMax / hackTime] as theoretical rate,
    [moneyMax / cappedTimeToHack] as capped rate and
    [(3 + minDifficulty * 0.3) / hackTime] as experience rate. *)
Theorem fallback_rates
    (ns : NS) (options : Options) (ramTotal : R) (useEstHackPercent : bool)
    (server : ref) (hackLevel : Z) (st : State) :
  usesFallback ns options ramTotal useEstHackPercent server hackLevel st = true ->
  let target := heap st server in
  let hackTime := getWeakenTime ns (hostname target) / 4 in
  let cappedTimeToHack := Rmax hackTime 200 in
  fst (getRatesAtHackLevel ns options ramTotal useEstHackPercent server hackLevel st)
  = Ok (moneyMax target / hackTime,
        moneyMax target / cappedTimeToHack,
        (3 + minDifficulty target * 0.3) / hackTime).
Proof.
  intros Hf. apply getRatesAtHackLevel_fallback in Hf. destruct Hf as (Hr & _).
  exact Hr.
Qed.

(** Scenario A: theoretical rate 10.0, capped rate 10.0, experience rate
    6.0e-5. *)
Lemma fallback_rates_scenario_A :
  fst (getRatesAtHackLevel scenarioA_ns scenarioA_options 0 true 0%nat 1 scenarioA_state)
  = Ok (10.0, 10.0, 6.0e-5).
Proof.
  rewrite (fallback_rates scenarioA_ns scenarioA_options 0 true 0%nat 1 scenarioA_state
             eq_refl).
  cbn. apply rates_eq; unfold Rmax; try destruct (Rle_dec _ _); lra.
Defined.

Section Completed.

Variables (ns : NS) (options : Options) (ramTotal : R) (useEstHackPercent : bool).
Variables (server : ref) (hackLevel : Z) (st : State).

(** An evaluation that does not end in the fallback has had its questions
    answered by the formulas API, and leaves the estimate computed from the
    answers on the server object. *)
Lemma completed_estimate :
  usesFallback ns options ramTotal useEstHackPercent server hackLevel st = false ->
  exists h wt gt ht gp hg,
    formulas ns = Some h
    /\ hacking.weakenTime h (prepared (heap st server)) (mkPlayer hackLevel) = Some wt
    /\ hacking.growTime h (prepared (heap st server)) (mkPlayer hackLevel) = Some gt
    /\ hacking.hackTime h (prepared (heap st server)) (mkPlayer hackLevel) = Some ht
    /\ hacking.growPercent h (prepared (heap st server)) 1 (mkPlayer hackLevel) 1 = Some gp
    /\ hacking.hackPercent h (prepared (heap st server)) (mkPlayer hackLevel) = Some hg
    /\ heap (snd (getRatesAtHackLevel ns options ramTotal useEstHackPercent
                    server hackLevel st)) server
       = set_estHackPercent
           (Some (estimateHackPercent ramTotal hg (ln gp)
                    (hackCostOf wt ht) (growCostOf wt gt)))
           (prepared (heap st server)).
Proof.
  intros Hf.
  assert (Hd : disable_formulas_api options = false).
  { unfold usesFallback in Hf. now destruct (disable_formulas_api options). }
  destruct (getRatesAtHackLevel_completed _ _ _ _ _ _ _ Hf) as (r & Hr & _).
  destruct (tryBlock_completes_inv _ _ _ _ _ _ _ Hr)
    as (h & wt & gt & ht & gp & hg & ch & he & Hh & H1 & H2 & H3 & H4 & H5 & H6 & H7).
  exists h, wt, gt, ht, gp, hg. repeat (split; [assumption|]).
  destruct (getRatesAtHackLevel_formulas ns options ramTotal useEstHackPercent server
              hackLevel st h wt gt ht gp hg ch he Hd Hh H1 H2 H3 H4 H5 H6 H7)
    as (_ & _ & Hs & _).
  exact Hs.
Qed.

End Completed.

(** C2, as the specification states it, fails: in scenario A the fallback
    records the estimate 1, which is above 0.98. *)
Lemma estimate_bound_fails_in_fallback :
  ~ (forall (ns : NS) (options : Options) (ramTotal : R) (useEstHackPercent : bool)
            (server : ref) (hackLevel : Z) (st : State) (f : R),
       estHackPercent
         (heap (snd (getRatesAtHackLevel ns options ramTotal useEstHackPercent
                       server hackLevel st)) server) = Some f ->
       0 < f <= 0.98).
Proof.
  intros H.
  specialize (H scenarioA_ns scenarioA_options 0 true 0%nat 1%Z scenarioA_state 1).
  assert (E : estHackPercent
                (heap (snd (getRatesAtHackLevel scenarioA_ns scenarioA_options 0 true
                              0%nat 1 scenarioA_state)) 0%nat) = Some 1).
  { destruct (getRatesAtHackLevel_fallback scenarioA_ns scenarioA_options 0 true 0%nat 1
                scenarioA_state eq_refl) as (_ & _ & _ & Hs & _).
    rewrite Hs. reflexivity. }
  specialize (H E). lra.
Qed.

(** C2, amended.  Every evaluation records an estimate on the server.  An
    evaluation the [try] block completes records one that is above 0 and at
    most 0.98 (it is at least 1e-10); an evaluation that ends in the fallback
    records exactly 1. *)
Theorem estimate_range
    (ns : NS) (options : Options) (ramTotal : R) (useEstHackPercent : bool)
    (server : ref) (hackLevel : Z) (st : State) :
  exists f,
    estHackPercent
      (heap (snd (getRatesAtHackLevel ns options ramTotal useEstHackPercent
                    server hackLevel st)) server) = Some f
    /\ if usesFallback ns options ramTotal useEstHackPercent server hackLevel st
       then f = 1
       else 1e-10 <= f <= 0.98 /\ 0 < f.
Proof.
  destruct (usesFallback ns options ramTotal useEstHackPercent server hackLevel st) eqn:E.
  - exists 1. split; [|reflexivity].
    destruct (getRatesAtHackLevel_fallback _ _ _ _ _ _ _ E) as (_ & _ & _ & Hs & _).
    rewrite Hs. reflexivity.
  - destruct (completed_estimate _ _ _ _ _ _ _ E)
      as (h & wt & gt & ht & gp & hg & _ & _ & _ & _ & _ & _ & Hs).
    eexists. split; [rewrite Hs; reflexivity|].
    pose proof (estimateHackPercent_bounds ramTotal hg (ln gp)
                  (hackCostOf wt ht) (growCostOf wt gt)) as Hb.
    unfold minHackGain in Hb. lra.
Qed.

(** C10.  With formulas enabled, an evaluation leaves the server object
    changed: its [hackDifficulty] is its [minDifficulty], its
    [moneyAvailable] is its [moneyMax], and [estHackPercent] holds the
    estimate (computed from the answers of the formulas API when the [try]
    block completes, 1 when the evaluation ends in the fallback).  No other
    field differs, and nothing is put back when the call returns. *)
Theorem formulas_path_mutates_target
    (ns : NS) (options : Options) (ramTotal : R) (useEstHackPercent : bool)
    (server : ref) (hackLevel : Z) (st : State) :
  disable_formulas_api options = false ->
  let before := heap st server in
  let after :=
    heap (snd (getRatesAtHackLevel ns options ramTotal useEstHackPercent
                 server hackLevel st)) server in
  hackDifficulty after = minDifficulty before
  /\ moneyAvailable after = moneyMax before
  /\ exists f,
       after
       = set_estHackPercent (Some f)
           (set_moneyAvailable (moneyMax before)
              (set_hackDifficulty (minDifficulty before) before))
       /\ if usesFallback ns options ramTotal useEstHackPercent server hackLevel st
          then f = 1
          else exists h wt gt ht gp hg,
                 formulas ns = Some h
                 /\ hacking.weakenTime h (prepared before) (mkPlayer hackLevel) = Some wt
                 /\ hacking.growTime h (prepared before) (mkPlayer hackLevel) = Some gt
                 /\ hacking.hackTime h (prepared before) (mkPlayer hackLevel) = Some ht
                 /\ hacking.growPercent h (prepared before) 1 (mkPlayer hackLevel) 1
                    = Some gp
                 /\ hacking.hackPercent h (prepared before) (mkPlayer hackLevel) = Some hg
                 /\ f = estimateHackPercent ramTotal hg (ln gp)
                          (hackCostOf wt ht) (growCostOf wt gt).
Proof.
  intros Hd before after.
  assert (Hex : exists f,
    after = set_estHackPercent (Some f) (prepared before)
    /\ if usesFallback ns options ramTotal useEstHackPercent server hackLevel st
       then f = 1
       else exists h wt gt ht gp hg,
              formulas ns = Some h
              /\ hacking.weakenTime h (prepared before) (mkPlayer hackLevel) = Some wt
              /\ hacking.growTime h (prepared before) (mkPlayer hackLevel) = Some gt
              /\ hacking.hackTime h (prepared before) (mkPlayer hackLevel) = Some ht
              /\ hacking.growPercent h (prepared before) 1 (mkPlayer hackLevel) 1
                 = Some gp
              /\ hacking.hackPercent h (prepared before) (mkPlayer hackLevel) = Some hg
              /\ f = estimateHackPercent ramTotal hg (ln gp)
                       (hackCostOf wt ht) (growCostOf wt gt)).
  { subst before after.
    destruct (usesFallback ns options ramTotal useEstHackPercent server hackLevel st) eqn:E.
    - exists 1. split; [|reflexivity].
      destruct (getRatesAtHackLevel_fallback _ _ _ _ _ _ _ E) as (_ & _ & _ & Hs & _).
      rewrite Hs, Hd. reflexivity.
    - destruct (completed_estimate _ _ _ _ _ _ _ E)
        as (h & wt & gt & ht & gp & hg & Hh & H1 & H2 & H3 & H4 & H5 & Hs).
      eexists. split; [exact Hs|].
      exists h, wt, gt, ht, gp, hg. repeat (split; [assumption|]). reflexivity. }
  destruct Hex as (f & Ha & Hf).
  repeat split.
  - rewrite Ha. reflexivity.
  - rewrite Ha. reflexivity.
  - exists f. split; [exact Ha | exact Hf].
Qed.

(* ------------------------------------------------------------------ *)
(** ** The value of [exp (-1/2)] *)

Lemma halfPowers_decreasing : Un_decreasing halfPowers.
Proof.
  intros n. unfold halfPowers.
  assert (Hf : 0 < INR (fact n)) by (apply lt_0_INR, lt_O_fact).
  assert (Hs : 1 <= INR (S n)) by (rewrite S_INR; pose proof (pos_INR n); lra).
  rewrite fact_simpl, mult_INR. cbn [pow].
  set (a := (1 / 2) ^ n). assert (Hp : 0 < a) by (apply pow_lt; lra).
  unfold Rdiv at 1 3. rewrite Rinv_mult.
  set (b := / INR (fact n)). assert (Hi : 0 < b) by now apply Rinv_0_lt_compat.
  set (c := / INR (S n)).
  assert (Hc : 0 < c <= 1).
  { split; [apply Rinv_0_lt_compat; lra|].
    unfold c. rewrite <- Rinv_1. apply Rinv_le_contravar; lra. }
  assert (Hab : 0 < a * b) by now apply Rmult_lt_0_compat.
  assert (H1 : 0 <= (a * b) * (1 - c)) by (apply Rmult_le_pos; lra).
  nra.
Qed.

Lemma halfPowers_alternate (k : nat) :
  tg_alt halfPowers k = / INR (fact k) * (- (1 / 2)) ^ k.
Proof.
  unfold tg_alt, halfPowers.
  replace (- (1 / 2)) with (-1 * (1 / 2)) by lra.
  rewrite Rpow_mult_distr. unfold Rdiv. ring.
Qed.

Lemma exp_minus_half_series :
  Un_cv (fun N => sum_f_R0 (tg_alt halfPowers) N) (exp (- (1 / 2))).
Proof.
  intros eps Heps. destruct (E1_cvg (- (1 / 2)) eps Heps) as [N HN].
  exists N. intros n Hn. specialize (HN n Hn). unfold E1 in HN.
  rewrite (sum_eq _ (fun k => / INR (fact k) * (- (1 / 2)) ^ k)); [exact HN|].
  intros i _. apply halfPowers_alternate.
Qed.

(** The partial sums of an alternating series bracket its limit. *)
Lemma exp_minus_half_bounds : 0.6065 < exp (- (1 / 2)) < 0.6066.
Proof.
  pose proof (alternated_series_ineq halfPowers (exp (- (1 / 2))) 3
                halfPowers_decreasing (cv_speed_pow_fact (1 / 2))
                exp_minus_half_series) as [Hlo Hhi].
  unfold tg_alt, halfPowers in Hlo, Hhi.
  cbn [sum_f_R0 Nat.mul Nat.add pow] in Hlo, Hhi.
  repeat rewrite fact_simpl in Hlo. repeat rewrite fact_simpl in Hhi.
  change (fact 0) with 1%nat in Hlo, Hhi.
  repeat rewrite mult_INR in Hlo. repeat rewrite mult_INR in Hhi.
  repeat rewrite S_INR in Hlo. repeat rewrite S_INR in Hhi.
  cbn [INR] in Hlo, Hhi.
  lra.
Qed.

(* ------------------------------------------------------------------ *)
(** ** The estimate in auto mode *)

(** [1 - 1 / exp x] is [1 - exp (- x)]. *)
Lemma estimateHackPercent_exp (ramTotal hackGain growGain hackCost growCost : R) :
  estimateHackPercent ramTotal hackGain growGain hackCost growCost
  = Rmax 1e-10
      (Rmin 0.98
         (Rmin (ramTotal * hackGain / hackCost)
               (1 - exp (- (ramTotal * growGain / growCost))))).
Proof.
  unfold estimateHackPercent, minHackGain, Math.max, Math.min, Math.exp.
  rewrite exp_Ropp.
  replace (1 / exp (ramTotal * growGain / growCost))
    with (/ exp (ramTotal * growGain / growCost)) by (unfold Rdiv; ring).
  reflexivity.
Qed.

(** C5.  In auto mode, when the formulas API answers every call, the
    estimate recorded on the server, which is also the hack percent the
    rates are computed for, is
    [max(1e-10, min(0.98, min(C * g_h / hackCost, 1 - e^(- C * g_g / growCost))))]
    for total RAM [C], hack gain [g_h], growth gain [g_g] (the logarithm of
    the grow percent) and the hack and grow costs derived from the answered
    times. *)
Theorem auto_mode_estimate
    (ns : NS) (options : Options) (ramTotal : R) (server : ref) (hackLevel : Z)
    (st : State) (h : hacking.t) (wt gt ht gp hg ch he : R) :
  let s1 := prepared (heap st server) in
  let p1 := mkPlayer hackLevel in
  let C := ramTotal in
  let g_h := hg in
  let g_g := ln gp in
  let hackCost := hackRam * ht + (weakenRam * wt * 0.002) / 0.05 in
  let growCost := growRam * gt + (weakenRam * wt * 0.004) / 0.05 in
  let f :=
    Rmax 1e-10
      (Rmin 0.98 (Rmin (C * g_h / hackCost) (1 - exp (- (C * g_g / growCost))))) in
  disable_formulas_api options = false ->
  formulas ns = Some h ->
  hacking.weakenTime h s1 p1 = Some wt ->
  hacking.growTime h s1 p1 = Some gt ->
  hacking.hackTime h s1 p1 = Some ht ->
  hacking.growPercent h s1 1 p1 1 = Some gp ->
  hacking.hackPercent h s1 p1 = Some hg ->
  hacking.hackChance h (set_estHackPercent (Some f) s1) p1 = Some ch ->
  hacking.hackExp h (set_estHackPercent (Some f) s1) p1 = Some he ->
  let st' := snd (getRatesAtHackLevel ns options ramTotal true server hackLevel st) in
  estHackPercent (heap st' server) = Some f /\ hackPercent st' = f.
Proof.
  intros s1 p1 C g_h g_g hackCost growCost f Hd Hh H1 H2 H3 H4 H5 H6 H7 st'.
  assert (Ef : f = estimateHackPercent ramTotal hg (ln gp)
                     (hackCostOf wt ht) (growCostOf wt gt)).
  { rewrite estimateHackPercent_exp. reflexivity. }
  rewrite Ef in H6, H7.
  destruct (getRatesAtHackLevel_formulas ns options ramTotal true server hackLevel st
              h wt gt ht gp hg ch he Hd Hh H1 H2 H3 H4 H5 H6 H7)
    as (_ & _ & Hs & _ & Hp & _).
  subst st'. rewrite Hs, Hp, Ef. split; reflexivity.
Qed.

(** Scenario B: the estimate is [min(0.98, min(0.4, 1 - e^(-0.5)))], about
    0.3935. *)
Lemma auto_mode_estimate_scenario_B :
  exists f,
    estHackPercent
      (heap (snd (getRatesAtHackLevel scenarioB_ns scenarioB_options 1000 true 0%nat 1
                    scenarioB_state)) 0%nat) = Some f
    /\ f = Rmin 0.98 (Rmin 0.4 (1 - exp (- 0.5)))
    /\ 0.3934 < f < 0.3935.
Proof.
  destruct (auto_mode_estimate scenarioB_ns scenarioB_options 1000 0%nat 1
              scenarioB_state scenarioB_formulas 0 (200 / 1.75) (50 / 1.7) (exp 0.1)
              0.02 1 1 eq_refl eq_refl eq_refl eq_refl eq_refl eq_refl eq_refl
              eq_refl eq_refl) as [He _].
  eexists. split; [exact He|].
  rewrite ln_exp.
  replace (1000 * 0.02 / (hackRam * (50 / 1.7) + weakenRam * 0 * 0.002 / 0.05))
    with 0.4 by (unfold hackRam, weakenRam; lra).
  replace (- (1000 * 0.1 / (growRam * (200 / 1.75) + weakenRam * 0 * 0.004 / 0.05)))
    with (- (1 / 2)) by (unfold growRam, weakenRam; lra).
  replace (- 0.5) with (- (1 / 2)) by lra.
  pose proof exp_minus_half_bounds as Hb.
  unfold Rmax, Rmin. repeat destruct (Rle_dec _ _); split; lra.
Defined.

(** Scenario B leaves the server object changed in its three fields. *)
Lemma formulas_path_mutates_target_scenario_B :
  hackDifficulty scenarioB_server = 5
  /\ moneyAvailable scenarioB_server = 0
  /\ estHackPercent scenarioB_server = None
  /\ hackDifficulty
       (heap (snd (getRatesAtHackLevel scenarioB_ns scenarioB_options 1000 true 0%nat 1
                     scenarioB_state)) 0%nat) = 1
  /\ moneyAvailable
       (heap (snd (getRatesAtHackLevel scenarioB_ns scenarioB_options 1000 true 0%nat 1
                     scenarioB_state)) 0%nat) = 1000
  /\ exists f,
       estHackPercent
         (heap (snd (getRatesAtHackLevel scenarioB_ns scenarioB_options 1000 true 0%nat 1
                       scenarioB_state)) 0%nat) = Some f.
Proof.
  destruct (formulas_path_mutates_target scenarioB_ns scenarioB_options 1000 true 0%nat 1
              scenarioB_state eq_refl) as (Hd & Hm & f & Ha & _).
  repeat split; try reflexivity.
  - exact Hd.
  - exact Hm.
  - exists f. rewrite Ha. reflexivity.
Defined.

(** The [try] block of that evaluation throws. *)
Lemma throwing_tryBlock :
  fst (tryBlock throwing_ns 1000 true 0%nat 7 throwing_state) = Thrown.
Proof.
  unfold tryBlock, formulasRates, assumeBestCase, bind, getField, gets, setServer,
    setPlayerHacking, setHackPercent, emit, modify, ret, when, callFormulas.
  cbn -[estimateHackPercent Rmin Rmax].
  destruct (Rleb 0.02 minHackGain); reflexivity.
Defined.

(** With [hackChance] throwing, the evaluation at hack level 7 still returns
    rates, those of the fallback. *)
Lemma getRatesAtHackLevel_survives_throw :
  fst (getRatesAtHackLevel throwing_ns scenarioB_options 1000 true 0%nat 7 throwing_state)
  = Ok (0.01, 0.01, 3.3e-5).
Proof.
  destruct (getRatesAtHackLevel_never_throws throwing_ns scenarioB_options 1000 true
              0%nat 7 throwing_state) as (_ & Hf).
  destruct (Hf (or_intror (or_intror throwing_tryBlock))) as (Hr & _).
  rewrite Hr. unfold fallbackTriple. cbn [heap throwing_state initial].
  cbn [getServer getWeakenTime throwing_ns scenarioB_server hostname moneyMax minDifficulty].
  apply rates_eq; unfold Rmax; try destruct (Rle_dec _ _); lra.
Defined.

(* ------------------------------------------------------------------ *)
(** ** A hack gain below the minimum *)

(** Stealing 50 percent is made up by one grow that doubles the money. *)
Lemma ln_2_pos : 0 < ln 2.
Proof. rewrite <- ln_1. apply ln_increasing; lra. Qed.

Lemma grows_to_double_from_half : - ln (1 - 50 / 100) / ln 2 = 1.
Proof.
  replace (1 - 50 / 100) with (/ 2) by lra.
  rewrite ln_Rinv by lra. pose proof ln_2_pos. field. lra.
Qed.

(** C8, on the code.  For a hack gain of 5e-11 the evaluation prints the
    warning and goes on, but the hack gain itself stays 5e-11: the hacks per
    cycle are [0.5 / 5e-11] and the theoretical rate is 500, where a hack
    gain raised to 1e-10 would give [0.5 / 1e-10] hacks per cycle and a rate
    near 1000.  The minimum is applied to the estimated hack percent only. *)
Theorem hack_gain_is_not_coerced :
  fst (getRatesAtHackLevel lowGain_ns lowGain_options 1 false 0%nat 1 lowGain_state)
  = Ok (500, 500, 1040)
  /\ out (snd (getRatesAtHackLevel lowGain_ns lowGain_options 1 false 0%nat 1
                 lowGain_state))
     = [PrintWarnHackGain 5e-11 minHackGain "target";
        PrintFormulasRates 1 (50 / 100)
          (theoreticalOf (hackProfitOf 170000000007 (50 / 100) 1) (50 / 100)
             (growCostOf 0 4) (hackCostOf 0 10) (ln 2) 5e-11)
          (hackProfitOf 170000000007 (50 / 100) 1 / 1)
          (expRateOf 17 (hackCostOf 0 10)) 1 "target"]
  /\ theoreticalOf (hackProfitOf 170000000007 (50 / 100) 1) (50 / 100)
       (growCostOf 0 4) (hackCostOf 0 10) (ln 2) 5e-11 = 500
  /\ theoreticalOf (hackProfitOf 170000000007 (50 / 100) 1) (50 / 100)
       (growCostOf 0 4) (hackCostOf 0 10) (ln 2) 1e-10 > 999
  /\ estHackPercent
       (heap (snd (getRatesAtHackLevel lowGain_ns lowGain_options 1 false 0%nat 1
                     lowGain_state)) 0%nat) = Some 1e-10.
Proof.
  destruct (getRatesAtHackLevel_formulas lowGain_ns lowGain_options 1 false 0%nat 1
              lowGain_state lowGain_formulas 0 4 10 2 5e-11 1 17
              eq_refl eq_refl eq_refl eq_refl eq_refl eq_refl eq_refl eq_refl eq_refl)
    as (Hr & _ & Hs & _ & _ & Ho).
  cbv zeta in Hr, Hs, Ho.
  cbn [heap lowGain_state initial getServer lowGain_ns lowGain_server moneyMax hostname
       hackPercent hack_percent lowGain_options out app] in Hr, Hs, Ho.
  rewrite (Rleb_true 5e-11 minHackGain) in Ho by (unfold minHackGain; lra).
  assert (Hth : theoreticalOf (hackProfitOf 170000000007 (50 / 100) 1) (50 / 100)
                  (growCostOf 0 4) (hackCostOf 0 10) (ln 2) 5e-11 = 500).
  { unfold theoreticalOf. rewrite grows_to_double_from_half.
    unfold hackProfitOf, growCostOf, hackCostOf, growRam, hackRam, weakenRam. lra. }
  assert (Hth' : theoreticalOf (hackProfitOf 170000000007 (50 / 100) 1) (50 / 100)
                   (growCostOf 0 4) (hackCostOf 0 10) (ln 2) 1e-10 > 999).
  { unfold theoreticalOf. rewrite grows_to_double_from_half.
    unfold hackProfitOf, growCostOf, hackCostOf, growRam, hackRam, weakenRam. lra. }
  repeat split.
  - rewrite Hr, Hth. apply rates_eq.
    + reflexivity.
    + unfold hackProfitOf, Rmin. destruct (Rle_dec _ _); lra.
    + unfold expRateOf, hackCostOf, hackRam, weakenRam. lra.
  - exact Ho.
  - exact Hth.
  - exact Hth'.
  - rewrite Hs. cbn [estHackPercent set_estHackPercent]. f_equal.
    unfold estimateHackPercent, Math.max, Math.min, minHackGain.
    apply Rmax_left.
    eapply Rle_trans; [apply Rmin_r|]. eapply Rle_trans; [apply Rmin_l|].
    unfold hackCostOf, hackRam, weakenRam. lra.
Qed.

(* ------------------------------------------------------------------ *)
(** ** Servers above the hack level *)

(** An evaluation changes no server object other than in [hackDifficulty],
    [moneyAvailable] and [estHackPercent]. *)
Lemma getRatesAtHackLevel_frame
    (ns : NS) (options : Options) (ramTotal : R) (useEstHackPercent : bool)
    (server : ref) (hackLevel : Z) (st : State) (r : ref) :
  exists e m d,
    heap (snd (getRatesAtHackLevel ns options ramTotal useEstHackPercent
                 server hackLevel st)) r
    = set_estHackPercent e (set_moneyAvailable m (set_hackDifficulty d (heap st r))).
Proof.
  assert (Heta : forall s : Server,
    s = set_estHackPercent (estHackPercent s)
          (set_moneyAvailable (moneyAvailable s)
             (set_hackDifficulty (hackDifficulty s) s)))
    by (intros s; now destruct s).
  destruct (Nat.eq_dec r server) as [-> | Hne].
  - destruct (usesFallback ns options ramTotal useEstHackPercent server hackLevel st) eqn:E.
    + destruct (getRatesAtHackLevel_fallback _ _ _ _ _ _ _ E) as (_ & _ & _ & Hs & _).
      rewrite Hs. destruct (disable_formulas_api options).
      * exists (Some 1), (moneyAvailable (heap st server)),
          (hackDifficulty (heap st server)).
        now destruct (heap st server).
      * eexists _, _, _. reflexivity.
    + destruct (completed_estimate _ _ _ _ _ _ _ E)
        as (h & wt & gt & ht & gp & hg & _ & _ & _ & _ & _ & _ & Hs).
      rewrite Hs. eexists _, _, _. reflexivity.
  - exists (estHackPercent (heap st r)), (moneyAvailable (heap st r)),
      (hackDifficulty (heap st r)).
    rewrite <- Heta.
    destruct (usesFallback ns options ramTotal useEstHackPercent server hackLevel st) eqn:E.
    + destruct (getRatesAtHackLevel_fallback _ _ _ _ _ _ _ E) as (_ & _ & Ho & _).
      now apply Ho.
    + destruct (getRatesAtHackLevel_completed _ _ _ _ _ _ _ E)
        as (rates & _ & _ & _ & Hh & _).
      rewrite Hh. destruct (tryBlock_state ns ramTotal useEstHackPercent server hackLevel st)
        as (_ & Ho & _).
      now apply Ho.
Qed.

(** C7.  For a server above the hack level, with the reference server and
    the server itself both evaluated at the server's required hacking skill,
    the gain rate recorded on the server is the smaller of its own
    theoretical rate times the gain scale factor and its own capped rate:
    the capped rate enters as the evaluation returned it, only the
    theoretical rate is scaled.  The scale factor is the reference server's
    recorded theoretical rate over its rate at the required skill, or 1 when
    that rate is 0. *)
Theorem locked_gain_rate
    (ns : NS) (options : Options) (ramTotal : R) (useEstHackPercent : bool)
    (bestUnlockedServer server : ref) (st : State)
    (bestTheoretical scaledGain scaledCapped scaledExp theoretical capped exp : R) :
  let required := requiredHackingSkill (heap st server) in
  let reference :=
    getRatesAtHackLevel ns options ramTotal useEstHackPercent bestUnlockedServer
      required st in
  let own :=
    getRatesAtHackLevel ns options ramTotal useEstHackPercent server required
      (snd reference) in
  let gainScale := if truthy scaledGain then bestTheoretical / scaledGain else 1 in
  let after :=
    heap (snd (lockedCallback ns options ramTotal useEstHackPercent
                 bestUnlockedServer server st)) server in
  theoreticalGainRate (heap st bestUnlockedServer) = Some bestTheoretical ->
  fst reference = Ok (scaledGain, scaledCapped, scaledExp) ->
  fst own = Ok (theoretical, capped, exp) ->
  theoreticalGainRate after = Some (theoretical * gainScale)
  /\ gainRate after = Some (Rmin (theoretical * gainScale) capped).
Proof.
  intros required reference own gainScale after Hbest Href Hown.
  assert (Hreq : requiredHackingSkill (heap (snd reference) server) = required).
  { destruct (getRatesAtHackLevel_frame ns options ramTotal useEstHackPercent
                bestUnlockedServer required st server) as (e & m & d & Hs).
    subst reference. now rewrite Hs. }
  assert (Hth : theoreticalGainRate (heap (snd reference) bestUnlockedServer)
                = Some bestTheoretical).
  { destruct (getRatesAtHackLevel_frame ns options ramTotal useEstHackPercent
                bestUnlockedServer required st bestUnlockedServer) as (e & m & d & Hs).
    subst reference. now rewrite Hs. }
  assert (Hrun : exists st3,
    lockedCallback ns options ramTotal useEstHackPercent bestUnlockedServer server st
    = (Ok server, st3)
    /\ theoreticalGainRate (heap st3 server) = Some (theoretical * gainScale)
    /\ gainRate (heap st3 server) = Some (Rmin (theoretical * gainScale) capped)).
  { unfold lockedCallback, bind, getField, gets, setServer, emit, modify, ret.
    fold required. fold reference.
    destruct reference as [o1 st1]. cbn [fst snd] in *. subst o1.
    rewrite Hreq, Hth. fold own.
    destruct own as [o2 st2]. cbn [fst snd] in *. subst o2.
    eexists. split; [reflexivity|].
    cbn. rewrite !upd_same. cbn.
    subst gainScale. unfold Math.min.
    destruct (truthy scaledGain); cbn; split; reflexivity. }
  destruct Hrun as (st3 & Hrun & H1 & H2).
  subst after. rewrite Hrun. split; assumption.
Qed.

(* ------------------------------------------------------------------ *)
(** ** The lists [main] prints and writes *)

(** Comparisons of the rates of a scenario. *)
Ltac decide_real :=
  unfold Math.max, Math.min, Rmax, Rmin; repeat destruct (Rle_dec _ _); lra.

Ltac decide_comparisons :=
  repeat match goal with
  | |- context [Rltb ?a ?b] =>
      first [ rewrite (Rltb_true a b) by decide_real
            | rewrite (Rltb_false a b) by decide_real ]
  | |- context [Rleb ?a ?b] =>
      first [ rewrite (Rleb_true a b) by decide_real
            | rewrite (Rleb_false a b) by decide_real ]
  end.

(** With formulas disabled an evaluation is the fallback. *)
Lemma getRatesAtHackLevel_disabled_run
    (ns : NS) (options : Options) (ramTotal : R) (useEstHackPercent : bool)
    (server : ref) (hackLevel : Z) (st : State) :
  disable_formulas_api options = true ->
  getRatesAtHackLevel ns options ramTotal useEstHackPercent server hackLevel st
  = (Ok (fallbackTriple ns (heap st server)),
     mkState (player st)
       (upd (heap st) server (set_estHackPercent (Some 1) (heap st server)))
       (hackPercent st)
       (out st ++ [fallbackEvent ns (heap st server)])).
Proof.
  intros Hd. rewrite <- fallbackRates_run.
  unfold getRatesAtHackLevel. now rewrite Hd.
Qed.

(** The callback over the servers within the hack level, with formulas
    disabled. *)
Lemma unlockedCallback_disabled_run
    (ns : NS) (options : Options) (ramTotal : R) (useEstHackPercent : bool)
    (server : ref) (st : State) :
  disable_formulas_api options = true ->
  unlockedCallback ns options ramTotal useEstHackPercent server st
  = (Ok server,
     mkState (player st)
       (upd (heap st) server (ratedByFallback ns (heap st server)))
       (hackPercent st)
       (out st ++ [fallbackEvent ns (heap st server)])).
Proof.
  intros Hd. unfold unlockedCallback, bind at 1, gets at 1. unfold bind at 1.
  rewrite (getRatesAtHackLevel_disabled_run _ _ _ _ _ _ _ Hd).
  unfold bind, setServer, modify, ret, ratedByFallback.
  destruct (fallbackTriple ns (heap st server)) as [[theoretical capped] exp].
  cbn -[fallbackEvent upd]. rewrite !upd_same, !upd_shadow. reflexivity.
Qed.

(** [.map] of that callback over a list of servers. *)
Lemma mapM_unlockedCallback_disabled
    (ns : NS) (options : Options) (ramTotal : R) (useEstHackPercent : bool)
    (l : list ref) (st : State) :
  disable_formulas_api options = true ->
  mapM (unlockedCallback ns options ramTotal useEstHackPercent) l st
  = (Ok l,
     mkState (player st) (ratedHeap ns l (heap st)) (hackPercent st)
       (out st ++ ratedEvents ns l (heap st))).
Proof.
  intros Hd. revert st. induction l as [|r l IH]; intros st.
  - cbn. rewrite app_nil_r. now destruct st.
  - cbn [mapM]. unfold bind at 1.
    rewrite (unlockedCallback_disabled_run _ _ _ _ _ _ Hd).
    unfold bind at 1. rewrite IH. cbn. now rewrite <- app_assoc.
Qed.

(** The steps of a run. *)
Lemma run_bind_gets {A B : Type} (f : State -> A) (k : A -> M B) (st : State) :
  bind (gets f) k st = k (f st) st.
Proof. reflexivity. Qed.

Lemma run_bind_emit {B : Type} (e : Event) (k : unit -> M B) (st : State) :
  bind (emit e) k st
  = k tt (mkState (player st) (heap st) (hackPercent st) (out st ++ [e])).
Proof. reflexivity. Qed.

Lemma run_bind_ret {A B : Type} (a : A) (k : A -> M B) (st : State) :
  bind (ret a) k st = k a st.
Proof. reflexivity. Qed.

Lemma run_bind_bind {A B C : Type} (c : M A) (k : A -> M B) (k' : B -> M C) (st : State) :
  bind (bind c k) k' st = bind c (fun a => bind (k a) k') st.
Proof. unfold bind. destruct (c st) as [[a|] st']; reflexivity. Qed.

Lemma run_bind_mapM_unlockedCallback {B : Type}
    (ns : NS) (options : Options) (ramTotal : R) (useEstHackPercent : bool)
    (l : list ref) (k : list ref -> M B) (st : State) :
  disable_formulas_api options = true ->
  bind (mapM (unlockedCallback ns options ramTotal useEstHackPercent) l) k st
  = k l (mkState (player st) (ratedHeap ns l (heap st)) (hackPercent st)
           (out st ++ ratedEvents ns l (heap st))).
Proof.
  intros Hd. unfold bind. now rewrite mapM_unlockedCallback_disabled.
Qed.

Lemma run_bind_gets_val {A B : Type} (f : State -> A) (k : A -> M B) (st : State) (v : A) :
  f st = v -> bind (gets f) k st = k v st.
Proof. intros <-. reflexivity. Qed.

(** One step of a run, at the head of the program; a [gets] that sorts or
    filters is left for [run_bind_gets_val]. *)
Ltac step :=
  lazymatch goal with
  | |- bind (gets (fun st => sortBy _ _)) _ _ = _ => fail
  | |- bind (gets (fun st => filter _ _)) _ _ = _ => fail
  | |- bind (gets _) _ _ = _ => rewrite run_bind_gets
  | |- bind (emit _) _ _ = _ => rewrite run_bind_emit
  | |- bind (ret _) _ _ = _ => rewrite run_bind_ret
  | |- bind (bind _ _) _ _ = _ => rewrite run_bind_bind
  end;
  cbv beta; cbn [player heap hackPercent out].

Ltac evaluate :=
  cbn -[Rltb Rleb Rmax Rmin Math.max Math.min]; decide_comparisons;
  cbn -[Rltb Rleb Rmax Rmin Math.max Math.min].

(** The steps of a sort. *)
Lemma insertBy_after {A : Type} (after : A -> A -> bool) (x y : A) (l : list A) :
  after x y = true -> insertBy after x (y :: l) = y :: insertBy after x l.
Proof. intros H. cbn. now rewrite H. Qed.

Lemma insertBy_before {A : Type} (after : A -> A -> bool) (x y : A) (l : list A) :
  after x y = false -> insertBy after x (y :: l) = x :: y :: l.
Proof. intros H. cbn. now rewrite H. Qed.

Lemma insertBy_nil {A : Type} (after : A -> A -> bool) (x : A) :
  insertBy after x [] = [x].
Proof. reflexivity. Qed.

Ltac decide_order :=
  unfold byGainRate, byExpRate, byRequiredHackingSkill, fallbackTriple;
  evaluate; reflexivity.

Ltac sort :=
  unfold sortBy; cbn [fold_right];
  repeat first
    [ rewrite insertBy_nil
    | rewrite insertBy_after by decide_order
    | rewrite insertBy_before by decide_order ].

(** The run on the six servers, from the first message to the file. *)
Lemma six_run : run six_ns (Some six_options) = (Ok tt, six_output).
Proof.
  assert (H : exists st,
    main six_ns six_options (initial six_ns six_options) = (Ok tt, st)
    /\ out st = six_output).
  { eexists. split.
    - unfold main, getField, currentHacking.
      destruct (Req_dec_T (hack_percent six_options) (-1)) as [_|Hne];
        [|now contradiction Hne].
      step. cbn [negb andb when Z.eqb at_hack_level six_options].
      repeat step.
      rewrite (run_bind_gets_val _ _ _ [0; 1; 2; 3; 4; 5]%nat)
        by (unfold reported; evaluate; reflexivity).
      cbv beta.
      rewrite (run_bind_gets_val _ _ _ [0; 1; 2; 3; 4; 5]%nat) by reflexivity.
      cbv beta.
      rewrite run_bind_mapM_unlockedCallback by reflexivity.
      cbn [player heap hackPercent out initial].
      rewrite (run_bind_gets_val _ _ _ [5; 4; 3; 2; 1; 0]%nat)
        by (cbn [heap]; sort; reflexivity).
      cbv beta. cbn [firstObject].
      repeat step.
      rewrite (run_bind_gets_val _ _ _ (@nil ref)) by reflexivity.
      cbv beta. cbn [mapM]. step. cbn [app].
      rewrite (run_bind_gets_val _ _ _ [5; 4; 3; 2; 1; 0]%nat)
        by (cbn [heap]; sort; reflexivity).
      cbv beta. cbn [silent six_options first]. unfold getField.
      repeat step.
      rewrite (run_bind_gets_val _ _ _ [5; 4; 3; 2; 1; 0]%nat)
        by (cbn [heap]; sort; reflexivity).
      cbv beta. cbn [silent six_options first]. unfold getField.
      repeat step.
      reflexivity.
    - unfold six_output, six_gainLines, six_expLines, six_records, fallbackEvent,
        fallbackTriple.
      cbn -[Rmax].
      unfold gainLine, expLine, rankedRecord, fallbackEvent, fallbackTriple,
        ratedByFallback.
      cbn -[Rmax].
      repeat f_equal; decide_real. }
  destruct H as (st & Hrun & Hout).
  unfold run. now rewrite Hrun, Hout.
Qed.

(** C1, on the code.  [toSorted] returns a sorted copy, of which only the
    first element is used, and leaves [serverEval] as it is: on the six
    servers the script announces f, at 6 per ram-second, as the best
    server, and then prints the list "in order of best to worst" and writes
    the records in the order of evaluation, a first at rate 1 and f last. *)
Theorem gain_list_is_not_sorted :
  fst (run six_ns (Some six_options)) = Ok tt
  /\ In (TPrintBest "f" (Some 6)) (snd (run six_ns (Some six_options)))
  /\ In (PrintGainList 1 six_gainLines) (snd (run six_ns (Some six_options)))
  /\ In (FileWrite "/Temp/analyze-hack.txt" six_records "w")
       (snd (run six_ns (Some six_options)))
  /\ map gl_gainRate six_gainLines
     = [Some 1; Some 2; Some 3; Some 4; Some 5; Some 6]
  /\ map rec_gainRate six_records
     = [Some 1; Some 2; Some 3; Some 4; Some 5; Some 6]
  /\ ~ descending (map gl_gainRate six_gainLines)
  /\ ~ descending (map rec_gainRate six_records).
Proof.
  rewrite six_run. cbn [fst snd].
  repeat split.
  - unfold six_output. cbn. tauto.
  - unfold six_output. cbn. tauto.
  - unfold six_output. cbn. tauto.
  - cbn. intros [H _]. lra.
  - cbn. intros [H _]. lra.
Qed.

(** C9, on the code.  The list of servers by experience is the first five
    entries of [serverEval] in the order of evaluation: on the six servers
    the script announces f, at 0.09, as the best server for experience, and
    then lists a to e with rising rates, f not among them. *)
Theorem exp_list_is_not_the_top_five :
  fst (run six_ns (Some six_options)) = Ok tt
  /\ In (TPrintBestExp "f" (Some 0.09)) (snd (run six_ns (Some six_options)))
  /\ In (PrintExpList 1 six_expLines) (snd (run six_ns (Some six_options)))
  /\ map el_hostname six_expLines
     = ["a"%string; "b"%string; "c"%string; "d"%string; "e"%string]
  /\ map el_expRate six_expLines
     = [Some 0.015; Some 0.03; Some 0.045; Some 0.06; Some 0.075]
  /\ ~ descending (map el_expRate six_expLines)
  /\ ~ In "f"%string (map el_hostname six_expLines).
Proof.
  rewrite six_run. cbn [fst snd].
  repeat split.
  - unfold six_output. cbn. tauto.
  - unfold six_output. cbn. tauto.
  - cbn. intros [H _]. lra.
  - cbn. intros H. repeat destruct H as [H|H]; try discriminate H. exact H.
Qed.

(** The rates an evaluation returns are the ones [unlockedCallback] records
    on the server (lines 205-206); the gain rate is the capped rate. *)
Lemma unlockedCallback_records
    (ns : NS) (options : Options) (ramTotal : R) (useEstHackPercent : bool)
    (server : ref) (st : State) (theoretical capped exp : R) :
  fst (getRatesAtHackLevel ns options ramTotal useEstHackPercent server
         (skills_hacking (player st)) st) = Ok (theoretical, capped, exp) ->
  let after :=
    heap (snd (unlockedCallback ns options ramTotal useEstHackPercent server st)) server in
  theoreticalGainRate after = Some theoretical
  /\ gainRate after = Some capped
  /\ expRate after = Some exp.
Proof.
  intros Hr after. subst after.
  unfold unlockedCallback, bind, gets, setServer, modify, ret.
  destruct (getRatesAtHackLevel ns options ramTotal useEstHackPercent server
              (skills_hacking (player st)) st) as [o st1].
  cbn [fst] in Hr. subst o. cbn. rewrite !upd_same. cbn. repeat split.
Qed.

(** What [unlockedCallback] leaves as it is on every server object. *)
Lemma unlockedCallback_keeps
    (ns : NS) (options : Options) (ramTotal : R) (useEstHackPercent : bool)
    (server : ref) (st : State) (r : ref) :
  moneyMax (heap (snd (unlockedCallback ns options ramTotal useEstHackPercent server st)) r)
  = moneyMax (heap st r)
  /\ requiredHackingSkill
       (heap (snd (unlockedCallback ns options ramTotal useEstHackPercent server st)) r)
     = requiredHackingSkill (heap st r).
Proof.
  unfold unlockedCallback, bind, gets, setServer, modify, ret.
  destruct (getRatesAtHackLevel_frame ns options ramTotal useEstHackPercent server
              (skills_hacking (player st)) st r) as (e & m & d & Hs).
  destruct (getRatesAtHackLevel ns options ramTotal useEstHackPercent server
              (skills_hacking (player st)) st) as [[[[t c] x]|] st1];
    cbn [snd] in Hs; cbn.
  - unfold upd. destruct (Nat.eqb_spec r server) as [-> | Hne];
      cbn; rewrite ?Nat.eqb_refl; cbn; rewrite Hs; split; reflexivity.
  - rewrite Hs. split; reflexivity.
Qed.

(** Server a gains 250 at level 1 and would gain 500 at level 10, so the
    scale factor is 1/2.  Server b has a theoretical rate of 1000 and a
    capped rate of 1.5 at level 10: its gain rate is [min(1000 / 2, 1.5)],
    with the capped rate as it is. *)
Lemma locked_gain_rate_example :
  theoreticalGainRate
    (heap (snd (lockedCallback skill_ns skill_options 16 false 0%nat 1%nat
                  skill_state)) 1%nat) = Some 500
  /\ gainRate
       (heap (snd (lockedCallback skill_ns skill_options 16 false 0%nat 1%nat
                     skill_state)) 1%nat) = Some 1.5.
Proof.
  assert (E0 : theoreticalOf (hackProfitOf 24 (50 / 100) (1 / 2)) (50 / 100)
                 (growCostOf 0 4) (hackCostOf 0 10) (ln 2) (50 / 100) = 250).
  { unfold theoreticalOf. rewrite grows_to_double_from_half.
    unfold hackProfitOf, growCostOf, hackCostOf, growRam, hackRam, weakenRam. lra. }
  assert (E1 : theoreticalOf (hackProfitOf 24 (50 / 100) 1) (50 / 100)
                 (growCostOf 0 4) (hackCostOf 0 10) (ln 2) (50 / 100) = 500).
  { unfold theoreticalOf. rewrite grows_to_double_from_half.
    unfold hackProfitOf, growCostOf, hackCostOf, growRam, hackRam, weakenRam. lra. }
  assert (E2 : theoreticalOf (hackProfitOf 48 (50 / 100) 1) (50 / 100)
                 (growCostOf 0 4) (hackCostOf 0 10) (ln 2) (50 / 100) = 1000).
  { unfold theoreticalOf. rewrite grows_to_double_from_half.
    unfold hackProfitOf, growCostOf, hackCostOf, growRam, hackRam, weakenRam. lra. }
  (* a at level 1 *)
  pose proof (getRatesAtHackLevel_formulas skill_ns skill_options 16 false
                0%nat 1 (initial skill_ns skill_options) skill_formulas
                0 4 10 2 (50 / 100) (1 / 2) 17
                eq_refl eq_refl eq_refl eq_refl eq_refl eq_refl eq_refl eq_refl eq_refl)
    as (Hnow & _).
  cbv zeta in Hnow.
  cbn [heap initial moneyMax hackPercent getServer skill_ns skillServers nth
       scanAllServers String.eqb Ascii.eqb Bool.eqb hack_percent skill_options]
    in Hnow.
  rewrite E0 in Hnow.
  destruct (unlockedCallback_records skill_ns skill_options 16 false 0%nat
              (initial skill_ns skill_options) _ _ _ Hnow) as (Hbest & _).
  fold skill_state in Hbest.
  assert (Hframe : forall r,
    moneyMax (heap skill_state r) = moneyMax (heap (initial skill_ns skill_options) r)
    /\ requiredHackingSkill (heap skill_state r)
       = requiredHackingSkill (heap (initial skill_ns skill_options) r))
    by (intros r; apply unlockedCallback_keeps).
  assert (Hhp : hackPercent skill_state = 50 / 100).
  { unfold skill_state.
    assert (Hun : forall st,
      hackPercent (snd (unlockedCallback skill_ns skill_options 16 false 0%nat st))
      = hackPercent (snd (getRatesAtHackLevel skill_ns skill_options 16 false 0%nat
                            (skills_hacking (player st)) st))).
    { intros st. unfold unlockedCallback, bind, gets, setServer, modify, ret.
      destruct (getRatesAtHackLevel skill_ns skill_options 16 false 0%nat
                  (skills_hacking (player st)) st) as [[[[t c] x]|] st1]; reflexivity. }
    rewrite Hun.
    destruct (getRatesAtHackLevel_formulas skill_ns skill_options 16 false
                0%nat 1 (initial skill_ns skill_options) skill_formulas
                0 4 10 2 (50 / 100) (1 / 2) 17
                eq_refl eq_refl eq_refl eq_refl eq_refl eq_refl eq_refl eq_refl eq_refl)
      as (_ & _ & _ & _ & Hp & _).
    exact Hp. }
  (* a and b at level 10 *)
  pose proof (getRatesAtHackLevel_formulas skill_ns skill_options 16 false
                0%nat 10 skill_state skill_formulas 0 4 10 2 (50 / 100) 1 17
                eq_refl eq_refl eq_refl eq_refl eq_refl eq_refl eq_refl eq_refl eq_refl)
    as (Href & _ & _ & Hothers & Hhp' & _).
  cbv zeta in Href, Hhp'.
  pose proof (getRatesAtHackLevel_formulas skill_ns skill_options 16 false
                1%nat 10
                (snd (getRatesAtHackLevel skill_ns skill_options 16 false
                        0%nat 10 skill_state))
                skill_formulas 0 4 10 2 (50 / 100) 1 17
                eq_refl eq_refl eq_refl eq_refl eq_refl eq_refl eq_refl eq_refl eq_refl)
    as (Hown & _).
  cbv zeta in Hown. rewrite Hhp' in Hown. rewrite (Hothers 1%nat) in Hown by discriminate.
  rewrite Hhp in Href, Hown.
  rewrite (proj1 (Hframe 0%nat)) in Href. rewrite (proj1 (Hframe 1%nat)) in Hown.
  cbn [heap initial moneyMax getServer skill_ns skillServers nth
       scanAllServers String.eqb Ascii.eqb Bool.eqb] in Href, Hown.
  rewrite E1 in Href. rewrite E2 in Hown.
  assert (Hreq : requiredHackingSkill (heap skill_state 1%nat) = 10%Z)
    by (rewrite (proj2 (Hframe 1%nat)); reflexivity).
  pose proof (locked_gain_rate skill_ns skill_options 16 false 0%nat 1%nat
                skill_state 250
                500 (Rmin 500 (hackProfitOf 24 (50 / 100) 1 / 16))
                (expRateOf 17 (hackCostOf 0 10))
                1000 (Rmin 1000 (hackProfitOf 48 (50 / 100) 1 / 16))
                (expRateOf 17 (hackCostOf 0 10))) as Hlocked.
  cbv zeta in Hlocked. rewrite Hreq in Hlocked.
  destruct (Hlocked Hbest Href Hown) as (Hth & Hgain).
  rewrite (truthy_true 500) in Hth, Hgain by lra.
  rewrite Hth, Hgain. split; f_equal.
  - lra.
  - unfold hackProfitOf, Rmin. repeat destruct (Rle_dec _ _); lra.
Defined.

(* ------------------------------------------------------------------ *)
(** ** The rates of a server above the hack level are final *)

(** The callback returns the server it was given, and changes the recorded
    rates of no other server. *)
Lemma lockedCallback_effect
    (ns : NS) (options : Options) (ramTotal : R) (useEstHackPercent : bool)
    (bestUnlockedServer server : ref) (st : State) :
  fst (lockedCallback ns options ramTotal useEstHackPercent bestUnlockedServer server st)
  = Ok server
  /\ forall r, r <> server ->
       let after :=
         heap (snd (lockedCallback ns options ramTotal useEstHackPercent
                      bestUnlockedServer server st)) r in
       theoreticalGainRate after = theoreticalGainRate (heap st r)
       /\ gainRate after = gainRate (heap st r)
       /\ expRate after = expRate (heap st r).
Proof.
  unfold lockedCallback, bind, getField, gets, setServer, emit, modify, ret.
  destruct (getRatesAtHackLevel_total ns options ramTotal useEstHackPercent
              bestUnlockedServer (requiredHackingSkill (heap st server)) st)
    as ([[g c] e] & st1 & E1).
  rewrite E1.
  destruct (getRatesAtHackLevel_total ns options ramTotal useEstHackPercent
              server (requiredHackingSkill (heap st1 server)) st1)
    as ([[g' c'] e'] & st2 & E2).
  rewrite E2. cbn. split; [reflexivity|].
  intros r Hr. rewrite !upd_other by assumption.
  destruct (getRatesAtHackLevel_frame ns options ramTotal useEstHackPercent
              bestUnlockedServer (requiredHackingSkill (heap st server)) st r)
    as (x1 & m1 & d1 & Hs1).
  destruct (getRatesAtHackLevel_frame ns options ramTotal useEstHackPercent
              server (requiredHackingSkill (heap st1 server)) st1 r)
    as (x2 & m2 & d2 & Hs2).
  rewrite E1 in Hs1. rewrite E2 in Hs2. cbn [snd] in Hs1, Hs2.
  rewrite Hs2, Hs1. repeat split.
Qed.

(** The callbacks always return. *)
Lemma lockedCallback_run
    (ns : NS) (options : Options) (ramTotal : R) (useEstHackPercent : bool)
    (bestUnlockedServer server : ref) (st : State) :
  exists st',
    lockedCallback ns options ramTotal useEstHackPercent bestUnlockedServer server st
    = (Ok server, st').
Proof.
  destruct (lockedCallback_effect ns options ramTotal useEstHackPercent
              bestUnlockedServer server st) as (Hok & _).
  destruct (lockedCallback ns options ramTotal useEstHackPercent bestUnlockedServer
              server st) as [o st'].
  cbn [fst] in Hok. subst o. eauto.
Qed.

Lemma mapM_lockedCallback_run
    (ns : NS) (options : Options) (ramTotal : R) (useEstHackPercent : bool)
    (bestUnlockedServer : ref) (l : list ref) (st : State) :
  exists st',
    mapM (lockedCallback ns options ramTotal useEstHackPercent bestUnlockedServer) l st
    = (Ok l, st').
Proof.
  revert st. induction l as [|x l IH]; intros st.
  - eexists. reflexivity.
  - destruct (lockedCallback_run ns options ramTotal useEstHackPercent
                bestUnlockedServer x st) as (st1 & Ex).
    destruct (IH st1) as (st2 & El).
    exists st2. cbn [mapM]. unfold bind. now rewrite Ex, El.
Qed.

(** Mapping the callback over servers that do not include [r] leaves the
    recorded rates of [r] as they are. *)
Lemma mapM_lockedCallback_keeps
    (ns : NS) (options : Options) (ramTotal : R) (useEstHackPercent : bool)
    (bestUnlockedServer : ref) (l : list ref) (st : State) (r : ref) :
  ~ In r l ->
  let final :=
    snd (mapM (lockedCallback ns options ramTotal useEstHackPercent bestUnlockedServer)
           l st) in
  theoreticalGainRate (heap final r) = theoreticalGainRate (heap st r)
  /\ gainRate (heap final r) = gainRate (heap st r)
  /\ expRate (heap final r) = expRate (heap st r).
Proof.
  revert st. induction l as [|x l IH]; intros st Hin final; subst final.
  - cbn. repeat split.
  - destruct (lockedCallback_effect ns options ramTotal useEstHackPercent
                bestUnlockedServer x st) as (_ & Hkeep).
    specialize (Hkeep r (fun E => Hin (or_introl (eq_sym E)))). cbv zeta in Hkeep.
    destruct (lockedCallback_run ns options ramTotal useEstHackPercent
                bestUnlockedServer x st) as (st1 & Ex).
    rewrite Ex in Hkeep. cbn [snd] in Hkeep.
    specialize (IH st1 (fun H => Hin (or_intror H))). cbv zeta in IH.
    destruct (mapM_lockedCallback_run ns options ramTotal useEstHackPercent
                bestUnlockedServer l st1) as (st2 & El).
    rewrite El in IH. cbn [snd] in IH.
    cbn [mapM]. unfold bind. rewrite Ex, El. unfold ret. cbn [snd].
    destruct Hkeep as (K1 & K2 & K3). destruct IH as (H1 & H2 & H3).
    repeat split; congruence.
Qed.

(** After the callback has been mapped over all servers above the hack
    level, each of them still carries the rates its own callback recorded:
    the callbacks that follow it change neither. *)
Lemma mapM_lockedCallback_final
    (ns : NS) (options : Options) (ramTotal : R) (useEstHackPercent : bool)
    (bestUnlockedServer : ref) (before after : list ref) (server : ref) (st : State) :
  ~ In server after ->
  let callback :=
    lockedCallback ns options ramTotal useEstHackPercent bestUnlockedServer in
  let reached := snd (mapM callback before st) in
  let final := snd (mapM callback (before ++ server :: after) st) in
  theoreticalGainRate (heap final server)
  = theoreticalGainRate (heap (snd (callback server reached)) server)
  /\ gainRate (heap final server) = gainRate (heap (snd (callback server reached)) server).
Proof.
  intros Hin callback. revert st. induction before as [|x before IH]; intros st reached final;
    subst reached final.
  - destruct (lockedCallback_run ns options ramTotal useEstHackPercent
                bestUnlockedServer server st) as (st1 & Es).
    destruct (mapM_lockedCallback_keeps ns options ramTotal useEstHackPercent
                bestUnlockedServer after st1 server Hin) as (H1 & H2 & _).
    destruct (mapM_lockedCallback_run ns options ramTotal useEstHackPercent
                bestUnlockedServer after st1) as (st2 & Ea).
    fold callback in Es, Ea, H1, H2. rewrite Ea in H1, H2. cbn [snd] in H1, H2.
    cbn [app mapM]. unfold bind, ret. cbn [snd]. rewrite !Es, Ea. cbn [snd].
    split; assumption.
  - destruct (lockedCallback_run ns options ramTotal useEstHackPercent
                bestUnlockedServer x st) as (st1 & Ex).
    specialize (IH st1). cbv zeta in IH.
    destruct (mapM_lockedCallback_run ns options ramTotal useEstHackPercent
                bestUnlockedServer before st1) as (sb & Eb).
    destruct (mapM_lockedCallback_run ns options ramTotal useEstHackPercent
                bestUnlockedServer (before ++ server :: after) st1) as (sf & Ef).
    fold callback in Ex, Eb, Ef. rewrite Eb, Ef in IH. cbn [snd] in IH.
    cbn [app mapM]. unfold bind, ret. cbn [snd]. rewrite !Ex. cbn [snd].
    rewrite !Eb, !Ef. cbn [snd]. exact IH.
Qed.

(* ------------------------------------------------------------------ *)
(** ** The order of the lists, for every run *)

Lemma run_bind_val {A B : Type} (c : M A) (k : A -> M B) (st st' : State) (a : A) :
  c st = (Ok a, st') -> bind c k st = k a st'.
Proof. intros E. unfold bind. now rewrite E. Qed.

Lemma run_bind_thrown {A B : Type} (c : M A) (k : A -> M B) (st st' : State) :
  c st = (Thrown, st') -> bind c k st = (Thrown, st').
Proof. intros E. unfold bind. now rewrite E. Qed.

(** An evaluation keeps the player and the required hacking skills. *)
Lemma getRatesAtHackLevel_keeps
    (ns : NS) (options : Options) (ramTotal : R) (useEstHackPercent : bool)
    (server : ref) (hackLevel : Z) (st : State) :
  exists rates st',
    getRatesAtHackLevel ns options ramTotal useEstHackPercent server hackLevel st
    = (Ok rates, st')
    /\ player st' = player st
    /\ forall r, requiredHackingSkill (heap st' r) = requiredHackingSkill (heap st r).
Proof.
  destruct (getRatesAtHackLevel_total ns options ramTotal useEstHackPercent server
              hackLevel st) as (rates & st' & E).
  exists rates, st'. split; [exact E|]. split.
  - destruct (usesFallback ns options ramTotal useEstHackPercent server hackLevel st) eqn:F.
    + apply getRatesAtHackLevel_fallback in F. destruct F as (_ & Hp & _).
      now rewrite E in Hp.
    + apply getRatesAtHackLevel_completed in F. destruct F as (x & _ & _ & Hp & _).
      now rewrite E in Hp.
  - intros r.
    destruct (getRatesAtHackLevel_frame ns options ramTotal useEstHackPercent server
                hackLevel st r) as (e & m & d & Hs).
    rewrite E in Hs. cbn [snd] in Hs. now rewrite Hs.
Qed.

Lemma unlockedCallback_run
    (ns : NS) (options : Options) (ramTotal : R) (useEstHackPercent : bool)
    (server : ref) (st : State) :
  exists st',
    unlockedCallback ns options ramTotal useEstHackPercent server st = (Ok server, st')
    /\ player st' = player st
    /\ forall r, requiredHackingSkill (heap st' r) = requiredHackingSkill (heap st r).
Proof.
  destruct (getRatesAtHackLevel_keeps ns options ramTotal useEstHackPercent server
              (skills_hacking (player st)) st) as ([[t c] x] & st1 & E & Hp & Hr).
  unfold unlockedCallback, bind, gets, setServer, modify, ret. rewrite E. cbn.
  eexists. split; [reflexivity|]. cbn. split; [exact Hp|].
  intros r. unfold upd.
  destruct (Nat.eqb_spec r server) as [-> | Hne]; cbn; rewrite ?Nat.eqb_refl; cbn;
    apply Hr.
Qed.

Lemma mapM_unlockedCallback_run
    (ns : NS) (options : Options) (ramTotal : R) (useEstHackPercent : bool)
    (l : list ref) (st : State) :
  exists st',
    mapM (unlockedCallback ns options ramTotal useEstHackPercent) l st = (Ok l, st')
    /\ player st' = player st
    /\ forall r, requiredHackingSkill (heap st' r) = requiredHackingSkill (heap st r).
Proof.
  revert st. induction l as [|x l IH]; intros st.
  - exists st. repeat split.
  - destruct (unlockedCallback_run ns options ramTotal useEstHackPercent x st)
      as (st1 & Ex & Hp1 & Hr1).
    destruct (IH st1) as (st2 & El & Hp2 & Hr2).
    exists st2. split.
    + cbn [mapM]. unfold bind, ret. now rewrite Ex, El.
    + split; [congruence|]. intros r. now rewrite Hr2, Hr1.
Qed.

Lemma lockedCallback_keeps
    (ns : NS) (options : Options) (ramTotal : R) (useEstHackPercent : bool)
    (bestUnlockedServer server : ref) (st : State) :
  exists st',
    lockedCallback ns options ramTotal useEstHackPercent bestUnlockedServer server st
    = (Ok server, st')
    /\ player st' = player st
    /\ forall r, requiredHackingSkill (heap st' r) = requiredHackingSkill (heap st r).
Proof.
  destruct (getRatesAtHackLevel_keeps ns options ramTotal useEstHackPercent
              bestUnlockedServer (requiredHackingSkill (heap st server)) st)
    as ([[g c] e] & st1 & E1 & Hp1 & Hr1).
  destruct (getRatesAtHackLevel_keeps ns options ramTotal useEstHackPercent
              server (requiredHackingSkill (heap st1 server)) st1)
    as ([[g' c'] e'] & st2 & E2 & Hp2 & Hr2).
  unfold lockedCallback, bind, getField, gets, setServer, emit, modify, ret.
  rewrite E1, E2. cbn.
  eexists. split; [reflexivity|]. cbn. split; [congruence|].
  intros r. unfold upd.
  destruct (Nat.eqb_spec r server) as [-> | Hne]; cbn; rewrite ?Nat.eqb_refl; cbn;
    now rewrite Hr2, Hr1.
Qed.

Lemma mapM_lockedCallback_keeps_skills
    (ns : NS) (options : Options) (ramTotal : R) (useEstHackPercent : bool)
    (bestUnlockedServer : ref) (l : list ref) (st : State) :
  exists st',
    mapM (lockedCallback ns options ramTotal useEstHackPercent bestUnlockedServer) l st
    = (Ok l, st')
    /\ player st' = player st
    /\ forall r, requiredHackingSkill (heap st' r) = requiredHackingSkill (heap st r).
Proof.
  revert st. induction l as [|x l IH]; intros st.
  - exists st. repeat split.
  - destruct (lockedCallback_keeps ns options ramTotal useEstHackPercent
                bestUnlockedServer x st) as (st1 & Ex & Hp1 & Hr1).
    destruct (IH st1) as (st2 & El & Hp2 & Hr2).
    exists st2. split.
    + cbn [mapM]. unfold bind, ret. now rewrite Ex, El.
    + split; [congruence|]. intros r. now rewrite Hr2, Hr1.
Qed.

(** A sort depends on the comparisons only. *)
Lemma sortBy_ext {A : Type} (after after' : A -> A -> bool) (l : list A) :
  (forall a b, after a b = after' a b) -> sortBy after l = sortBy after' l.
Proof.
  intros Hext. unfold sortBy. induction l as [|x l IH]; [reflexivity|].
  cbn [fold_right]. rewrite IH.
  generalize (fold_right (insertBy after') [] l). intros s.
  induction s as [|y s IHs]; [reflexivity|].
  cbn [insertBy]. rewrite Hext. now rewrite IHs.
Qed.

Lemma insertBy_not_nil {A : Type} (after : A -> A -> bool) (x : A) (l : list A) :
  insertBy after x l <> [].
Proof. destruct l as [|y l]; cbn; [discriminate|]. destruct (after x y); discriminate. Qed.

Lemma sortBy_nil_inv {A : Type} (after : A -> A -> bool) (l : list A) :
  sortBy after l = [] -> l = [].
Proof.
  destruct l as [|x l]; [reflexivity|].
  unfold sortBy. cbn [fold_right]. intros H. now apply insertBy_not_nil in H.
Qed.

Lemma run_bind_modify {B : Type} (f : State -> State) (k : unit -> M B) (st : State) :
  bind (modify f) k st = k tt (f st).
Proof. reflexivity. Qed.

Ltac gstep :=
  first [ rewrite run_bind_gets | rewrite run_bind_emit | rewrite run_bind_ret
        | rewrite run_bind_bind | rewrite run_bind_modify ];
  cbv beta; cbn [player heap hackPercent out].

(** Every run that gets past the check of the hack percent and ends prints
    the list by gain, prints the list by experience and writes the records
    in the order of evaluation: the first list and the records are all of
    [serverEval], the second list is its first five entries.  No rate
    enters the order. *)
Lemma main_lists_follow_evaluation_order
    (ns : NS) (options : Options) (st : State) :
  main ns options (initial ns options) = (Ok tt, st) ->
  hack_percent options = -1 \/ 0 < hack_percent options / 100 < 1 ->
  let serverEval := evaluationOrder ns options in
  let hacking := runHacking ns options in
  In (PrintGainList hacking (numbered (gainLine (heap st)) 1 serverEval)) (out st)
  /\ In (PrintExpList hacking
           (numbered (expLine (heap st)) 1
              (firstn (Nat.min 5 (length serverEval)) serverEval))) (out st)
  /\ In (FileWrite "/Temp/analyze-hack.txt" (map (rankedRecord (heap st)) serverEval) "w")
       (out st).
Proof.
  intros Hrun Hrange serverEval hacking. subst serverEval hacking. revert Hrun.
  unfold main, getField, currentHacking.
  rewrite run_bind_gets. cbv beta.
  assert (Hcheck :
    negb (if Req_dec_T (hack_percent options) (-1) then true else false)
    && (Rleb (hackPercent (initial ns options)) 0
        || Rleb 1 (hackPercent (initial ns options))) = false).
  { destruct (Req_dec_T (hack_percent options) (-1)) as [E|N]; [reflexivity|].
    destruct Hrange as [E|Hr]; [contradiction|].
    cbn [negb andb initial hackPercent].
    rewrite (Rleb_false _ 0) by lra. rewrite (Rleb_false 1) by lra. reflexivity. }
  rewrite Hcheck.
  assert (Hwhen :
    when (negb (at_hack_level options =? 0)%Z) (setPlayerHacking (at_hack_level options))
      (initial ns options)
    = (Ok tt, mkState (mkPlayer (runHacking ns options)) (scanned ns)
                (hack_percent options / 100) [])).
  { unfold runHacking, initial.
    destruct (at_hack_level options =? 0)%Z; cbn; [|reflexivity].
    now rewrite player_eta. }
  rewrite (run_bind_val _ _ _ _ _ Hwhen). clear Hwhen Hcheck.
  gstep. gstep. gstep. gstep. gstep.
  cbn [skills_hacking].
  fold (reportedServers ns options).
  set (within :=
    filter (fun r => (requiredHackingSkill (scanned ns r) <=? runHacking ns options)%Z)
      (reportedServers ns options)).
  set (ramTotal :=
    fold_left (addRam options)
      (map (scanned ns) (seq 0 (length (scanAllServers ns)))) 0).
  set (useEstHackPercent := if Req_dec_T (hack_percent options) (-1) then true else false).
  match goal with
  | |- bind (mapM _ within) _ ?s = _ -> _ =>
      destruct (mapM_unlockedCallback_run ns options ramTotal useEstHackPercent within s)
        as (st1 & E1 & Hp1 & Hr1)
  end.
  rewrite (run_bind_val _ _ _ _ _ E1). cbn [player heap] in Hp1, Hr1. clear E1.
  gstep.
  destruct (sortBy (byGainRate (heap st1)) within) as [|bestUnlockedServer rest] eqn:Esorted.
  { cbn [firstObject]. unfold bind at 1. unfold throw at 1. intros H. discriminate H. }
  cbn [firstObject]. gstep. gstep. gstep. gstep. gstep.
  rewrite Hp1. cbn [skills_hacking].
  assert (Habove :
    sortBy (byRequiredHackingSkill (heap st1))
      (filter (fun r => (runHacking ns options <? requiredHackingSkill (heap st1 r))%Z)
         (reportedServers ns options))
    = sortBy (byRequiredHackingSkill (scanned ns))
        (filter (fun r => (runHacking ns options <? requiredHackingSkill (scanned ns r))%Z)
           (reportedServers ns options))).
  { rewrite (sortBy_ext _ (byRequiredHackingSkill (scanned ns)))
      by (intros a b; unfold byRequiredHackingSkill; now rewrite !Hr1).
    f_equal. apply filter_ext. intros r. now rewrite Hr1. }
  rewrite Habove. clear Habove.
  set (above := sortBy (byRequiredHackingSkill (scanned ns)) _).
  match goal with
  | |- bind (mapM _ above) _ ?s = _ -> _ =>
      destruct (mapM_lockedCallback_keeps_skills ns options ramTotal useEstHackPercent
                  bestUnlockedServer above s) as (st2 & E2 & Hp2 & Hr2)
  end.
  rewrite (run_bind_val _ _ _ _ _ E2). cbn [player heap] in Hp2, Hr2. clear E2.
  gstep.
  fold (evaluationOrder ns options) in *.
  change (within ++ above) with (evaluationOrder ns options).
  set (serverEval := evaluationOrder ns options).
  destruct (silent options).
  - gstep. gstep. gstep. gstep. gstep. gstep. gstep. gstep. gstep. gstep.
    unfold emit, modify. intros H. injection H as <-. cbn [out heap].
    rewrite Hp2. cbn [skills_hacking].
    repeat split; repeat (apply in_or_app; first [right; left; reflexivity | left]).
  - gstep.
    destruct (sortBy (byGainRate (heap st2)) serverEval) as [|g gs] eqn:Eg.
    { cbn [first]. unfold bind at 1. unfold throw at 1. intros H. discriminate H. }
    cbn [first]. unfold getField.
    gstep. gstep. gstep. gstep. gstep. gstep. gstep. gstep.
    destruct (sortBy (byExpRate (heap st2)) serverEval) as [|x xs] eqn:Ex.
    { cbn [first]. unfold bind at 1. unfold throw at 1. intros H. discriminate H. }
    cbn [first]. unfold getField.
    gstep. gstep. gstep. gstep. gstep. gstep. gstep.
    unfold emit, modify. intros H. injection H as <-. cbn [out heap].
    rewrite Hp2. cbn [skills_hacking].
    repeat split; repeat (apply in_or_app; first [right; left; reflexivity | left]).
Qed.

(* ------------------------------------------------------------------ *)
(** * Further properties of the script *)

(* ------------------------------------------------------------------ *)
(** ** The stages of a run *)
Lemma evaluationOrder_split (ns : NS) (options : Options) :
  evaluationOrder ns options = unlockedOrder ns options ++ lockedOrder ns options.
Proof. reflexivity. Qed.

Lemma sortBy_cons_inv {A : Type} (after : A -> A -> bool) (x : A) (l : list A) :
  exists y ys, sortBy after (x :: l) = y :: ys.
Proof.
  destruct (sortBy after (x :: l)) as [|y ys] eqn:E; [|eauto].
  apply sortBy_nil_inv in E. discriminate E.
Qed.

(** The run of [main] past the check of the hack percent, in its stages. *)
Lemma main_stages (ns : NS) (options : Options) :
  inRange options ->
  match sortBy (byGainRate (heap (unlockedRated ns options))) (unlockedOrder ns options) with
  | [] => main ns options (initial ns options) = (Thrown, unlockedRated ns options)
  | best :: _ =>
      let st2 := lockedRated ns options best in
      exists g gs x xs,
        sortBy (byGainRate (heap st2)) (evaluationOrder ns options) = g :: gs
        /\ sortBy (byExpRate (heap st2)) (evaluationOrder ns options) = x :: xs
        /\ main ns options (initial ns options)
           = (Ok tt,
              mkState (player st2) (heap st2) (hackPercent st2)
                (out st2 ++ summary options (heap st2) (runHacking ns options)
                              (evaluationOrder ns options) g x))
  end.
Proof.
  intros Hrange.
  unfold main, getField, currentHacking.
  rewrite run_bind_gets. cbv beta.
  assert (Hcheck :
    negb (if Req_dec_T (hack_percent options) (-1) then true else false)
    && (Rleb (hackPercent (initial ns options)) 0
        || Rleb 1 (hackPercent (initial ns options))) = false).
  { destruct (Req_dec_T (hack_percent options) (-1)) as [E|N]; [reflexivity|].
    destruct Hrange as [E|Hr]; [contradiction|].
    cbn [negb andb initial hackPercent].
    rewrite (Rleb_false _ 0) by lra. rewrite (Rleb_false 1) by lra. reflexivity. }
  rewrite Hcheck.
  assert (Hwhen :
    when (negb (at_hack_level options =? 0)%Z) (setPlayerHacking (at_hack_level options))
      (initial ns options)
    = (Ok tt, mkState (mkPlayer (runHacking ns options)) (scanned ns)
                (hack_percent options / 100) [])).
  { unfold runHacking, initial.
    destruct (at_hack_level options =? 0)%Z; cbn; [|reflexivity].
    now rewrite player_eta. }
  rewrite (run_bind_val _ _ _ _ _ Hwhen). clear Hwhen Hcheck.
  gstep. gstep. gstep. gstep. gstep.
  cbn [skills_hacking app].
  fold (reportedServers ns options).
  fold (unlockedOrder ns options).
  fold (ramTotalOf ns options).
  fold (estimating options).
  fold (started ns options).
  destruct (mapM_unlockedCallback_run ns options (ramTotalOf ns options)
              (estimating options) (unlockedOrder ns options) (started ns options))
    as (st1 & E1 & Hp1 & Hr1).
  assert (Est1 : st1 = unlockedRated ns options)
    by (unfold unlockedRated; now rewrite E1).
  rewrite (run_bind_val _ _ _ _ _ E1).
  cbn [player heap started] in Hp1, Hr1. clear E1. subst st1.
  gstep.
  destruct (sortBy (byGainRate (heap (unlockedRated ns options))) (unlockedOrder ns options))
    as [|bestUnlockedServer rest] eqn:Esorted.
  { cbn [firstObject]. unfold bind at 1. unfold throw at 1. reflexivity. }
  cbn [firstObject]. gstep. gstep. gstep. gstep. gstep.
  fold (announced (unlockedRated ns options) bestUnlockedServer).
  rewrite Hp1. cbn [skills_hacking].
  assert (Habove :
    sortBy (byRequiredHackingSkill (heap (unlockedRated ns options)))
      (filter (fun r => (runHacking ns options
                         <? requiredHackingSkill (heap (unlockedRated ns options) r))%Z)
         (reportedServers ns options))
    = lockedOrder ns options).
  { unfold lockedOrder.
    rewrite (sortBy_ext _ (byRequiredHackingSkill (scanned ns)))
      by (intros a b; unfold byRequiredHackingSkill; now rewrite !Hr1).
    f_equal. apply filter_ext. intros r. now rewrite Hr1. }
  rewrite Habove. clear Habove.
  cbv zeta.
  destruct (mapM_lockedCallback_keeps_skills ns options (ramTotalOf ns options)
              (estimating options) bestUnlockedServer (lockedOrder ns options)
              (announced (unlockedRated ns options) bestUnlockedServer))
    as (st2 & E2 & Hp2 & Hr2).
  assert (Est2 : st2 = lockedRated ns options bestUnlockedServer)
    by (unfold lockedRated; now rewrite E2).
  rewrite (run_bind_val _ _ _ _ _ E2).
  cbn [player heap announced] in Hp2, Hr2. clear E2. subst st2.
  gstep.
  rewrite <- evaluationOrder_split.
  assert (Hne : exists y ys, evaluationOrder ns options = y :: ys).
  { rewrite evaluationOrder_split.
    destruct (unlockedOrder ns options) as [|y ys]; [discriminate Esorted|].
    cbn [app]. eauto. }
  destruct Hne as (y & ys & Hne).
  destruct (sortBy_cons_inv (byGainRate (heap (lockedRated ns options bestUnlockedServer)))
              y ys) as (g & gs & Eg).
  destruct (sortBy_cons_inv (byExpRate (heap (lockedRated ns options bestUnlockedServer)))
              y ys) as (x & xs & Ex).
  rewrite <- Hne in Eg, Ex.
  exists g, gs, x, xs. split; [exact Eg|]. split; [exact Ex|].
  unfold summary.
  rewrite Hp2, Hp1. cbn [skills_hacking].
  destruct (silent options).
  - repeat gstep.
    unfold emit, modify. cbn [out heap player hackPercent app].
    rewrite ?Hp2, ?Hp1. rewrite <- !app_assoc. reflexivity.
  - repeat (gstep; rewrite ?Eg, ?Ex; cbn [first]; unfold getField).
    unfold emit, modify. cbn [out heap player hackPercent app].
    rewrite ?Hp2, ?Hp1. rewrite <- !app_assoc. reflexivity.
Qed.

(* ------------------------------------------------------------------ *)
(** ** The sort *)

Lemma insertBy_Permutation {A : Type} (after : A -> A -> bool) (x : A) (l : list A) :
  Permutation (insertBy after x l) (x :: l).
Proof.
  induction l as [|y l IH]; cbn [insertBy]; [reflexivity|].
  destruct (after x y); [|reflexivity].
  rewrite IH. apply perm_swap.
Qed.

Lemma sortBy_Permutation {A : Type} (after : A -> A -> bool) (l : list A) :
  Permutation (sortBy after l) l.
Proof.
  unfold sortBy. induction l as [|x l IH]; cbn [fold_right]; [reflexivity|].
  rewrite insertBy_Permutation. now rewrite IH.
Qed.

Lemma sortBy_cons {A : Type} (after : A -> A -> bool) (x : A) (l : list A) :
  sortBy after (x :: l) = insertBy after x (sortBy after l).
Proof. reflexivity. Qed.

(** The first element of a list sorted from best to worst is the first of
    the elements with the best rate. *)
Lemma sortBy_first_best {A : Type} (key : A -> option R) (l : list A) (x : A) (xs : list A) :
  (forall r, In r l -> key r <> None) ->
  sortBy (fun a b => positive (lift2 Rminus (key b) (key a))) l = x :: xs ->
  exists before after,
    l = before ++ x :: after
    /\ (forall r, In r before -> better (key x) (key r))
    /\ (forall r, In r after -> atLeast (key x) (key r)).
Proof.
  revert x xs. induction l as [|a l IH]; intros x xs Hkey Hs; [discriminate Hs|].
  rewrite sortBy_cons in Hs.
  destruct (sortBy (fun a b => positive (lift2 Rminus (key b) (key a))) l)
    as [|y s] eqn:Es.
  - apply sortBy_nil_inv in Es. subst l. cbn in Hs. injection Hs as <- <-.
    exists [], []. repeat split; intros r [].
  - destruct (IH y s (fun r Hr => Hkey r (or_intror Hr)) eq_refl)
      as (before & after & El & Hb & Ha).
    assert (Hy : In y l) by (rewrite El; apply in_or_app; right; now left).
    destruct (key a) as [ka|] eqn:Ka; [|now destruct (Hkey a (or_introl eq_refl))].
    destruct (key y) as [ky|] eqn:Ky; [|now destruct (Hkey y (or_intror Hy))].
    cbn [insertBy] in Hs. rewrite Ka, Ky in Hs. cbn [lift2 positive] in Hs.
    unfold Rltb in Hs. destruct (Rlt_dec 0 (ky - ka)) as [Hlt|Hge].
    + injection Hs as <- <-. exists (a :: before), after. rewrite Ky.
      split; [now rewrite El|]. split.
      * intros r [<-|Hr]; [rewrite Ka; cbn; lra|]. exact (Hb r Hr).
      * intros r Hr. exact (Ha r Hr).
    + injection Hs as <- <-. exists [], l. rewrite Ka.
      split; [reflexivity|]. split; [intros r []|].
      intros r Hr. rewrite El in Hr. apply in_app_or in Hr.
      destruct Hr as [Hr|[<-|Hr]].
      * specialize (Hb r Hr). destruct (key r); cbn in *; [lra|exact Hb].
      * rewrite Ky. cbn. lra.
      * specialize (Ha r Hr). destruct (key r); cbn in *; [lra|exact Ha].
Qed.

Lemma filter_split_Permutation {A : Type} (f g : A -> bool) (l : list A) :
  (forall a, g a = negb (f a)) ->
  Permutation (filter f l ++ filter g l) l.
Proof.
  intros Hg. induction l as [|x l IH]; [reflexivity|].
  cbn [filter]. rewrite Hg. destruct (f x); cbn [negb app].
  - now constructor.
  - rewrite <- Permutation_middle. now constructor.
Qed.

Lemma evaluationOrder_Permutation (ns : NS) (options : Options) :
  Permutation (evaluationOrder ns options) (reportedServers ns options).
Proof.
  unfold evaluationOrder. rewrite sortBy_Permutation.
  apply filter_split_Permutation. intros r. apply Z.ltb_antisym.
Qed.

Lemma reportedServers_NoDup (ns : NS) (options : Options) :
  NoDup (reportedServers ns options).
Proof. unfold reportedServers. apply NoDup_filter, seq_NoDup. Qed.

(* ------------------------------------------------------------------ *)
(** ** Relations kept along a computation *)

Section Along.

Variable rel : State -> State -> Prop.
Hypothesis rel_refl : forall st, rel st st.
Hypothesis rel_trans : forall a b c, rel a b -> rel b c -> rel a c.

Lemma along_ret {A : Type} (a : A) : preserves rel (ret a).
Proof. intros st. apply rel_refl. Qed.

Lemma along_throw {A : Type} : preserves rel (@throw A).
Proof. intros st. apply rel_refl. Qed.

Lemma along_gets {A : Type} (f : State -> A) : preserves rel (gets f).
Proof. intros st. apply rel_refl. Qed.

Lemma along_bind {A B : Type} (c : M A) (k : A -> M B) :
  preserves rel c -> (forall a, preserves rel (k a)) -> preserves rel (bind c k).
Proof.
  intros Hc Hk st. unfold bind. specialize (Hc st).
  destruct (c st) as [[a|] st']; cbn [snd] in *.
  - eapply rel_trans; [exact Hc | apply Hk].
  - exact Hc.
Qed.

Lemma along_when (b : bool) (c : M unit) : preserves rel c -> preserves rel (when b c).
Proof. intros Hc. destruct b; [exact Hc | apply along_ret]. Qed.

Lemma along_callFormulas (ns : NS) (f : hacking.t -> Server -> Player -> option R)
    (r : ref) :
  preserves rel (callFormulas ns f r).
Proof.
  intros st. unfold callFormulas.
  destruct (formulas ns) as [h|]; [destruct (f h _ _) |]; apply rel_refl.
Qed.

Lemma along_tryCatchFinally {A : Type} (body handler : M A) (finalizer : M unit) :
  preserves rel body -> preserves rel handler -> preserves rel finalizer ->
  preserves rel (tryCatchFinally body handler finalizer).
Proof.
  intros Hb Hh Hf st. unfold tryCatchFinally. specialize (Hb st).
  destruct (body st) as [[a|] st0]; cbn [snd] in Hb.
  - specialize (Hf st0). destruct (finalizer st0) as [[u|] st2]; cbn [snd] in *;
      eapply rel_trans; eassumption.
  - specialize (Hh st0). destruct (handler st0) as [r st1]; cbn [snd] in Hh.
    specialize (Hf st1). destruct (finalizer st1) as [[u|] st2]; cbn [snd] in *;
      (eapply rel_trans; [exact Hb|]); eapply rel_trans; eassumption.
Qed.

Lemma along_mapM {A B : Type} (f : A -> M B) (l : list A) :
  (forall x, preserves rel (f x)) -> preserves rel (mapM f l).
Proof.
  intros Hf. induction l as [|x l IH]; cbn [mapM].
  - apply along_ret.
  - apply along_bind; [apply Hf|]. intros y.
    apply along_bind; [exact IH|]. intros ys. apply along_ret.
Qed.

End Along.

(* ------------------------------------------------------------------ *)
(** ** What the evaluations print *)

Lemma logging_refl (ok : Event -> bool) (st : State) : logging ok st st.
Proof. exists []. now rewrite app_nil_r. Qed.

Lemma logging_trans (ok : Event -> bool) (a b c : State) :
  logging ok a b -> logging ok b c -> logging ok a c.
Proof.
  intros (e1 & H1 & L1) (e2 & H2 & L2). exists (e1 ++ e2). split.
  - rewrite H2, H1. now rewrite app_assoc.
  - rewrite forallb_app. now rewrite L1, L2.
Qed.

Lemma logging_weaken (ok ok' : Event -> bool) (st st' : State) :
  (forall e, ok e = true -> ok' e = true) -> logging ok st st' -> logging ok' st st'.
Proof.
  intros Hok (evs & H & L). exists evs. split; [exact H|].
  rewrite forallb_forall in *. auto.
Qed.

Lemma logging_modify (ok : Event -> bool) (f : State -> State) :
  (forall st, out (f st) = out st) -> preserves (logging ok) (modify f).
Proof. intros Hf st. exists []. cbn. now rewrite Hf, app_nil_r. Qed.

Lemma logging_emit (ok : Event -> bool) (e : Event) :
  ok e = true -> preserves (logging ok) (emit e).
Proof. intros He st. exists [e]. cbn. now rewrite He. Qed.

Ltac logging_steps ok :=
  repeat first
    [ apply (along_bind (logging ok) (logging_trans ok)); [ | intros ? ]
    | apply (along_tryCatchFinally (logging ok) (logging_trans ok))
    | apply (along_callFormulas (logging ok) (logging_refl ok))
    | apply (along_gets (logging ok) (logging_refl ok))
    | apply (along_ret (logging ok) (logging_refl ok))
    | apply (along_when (logging ok) (logging_refl ok))
    | apply logging_emit; reflexivity
    | apply logging_modify; intros ?; reflexivity ].

(** An evaluation prints nothing but its own messages. *)
Lemma getRatesAtHackLevel_logging
    (ns : NS) (options : Options) (ramTotal : R) (useEstHackPercent : bool)
    (server : ref) (hackLevel : Z) :
  preserves (logging rateMessage)
    (getRatesAtHackLevel ns options ramTotal useEstHackPercent server hackLevel).
Proof.
  unfold getRatesAtHackLevel. cbv zeta.
  apply (along_bind (logging rateMessage) (logging_trans rateMessage)); [ | intros [r|] ].
  - destruct (negb (disable_formulas_api options)).
    + unfold assumeBestCase, formulasRates, getField, setPlayerHacking, setServer,
        setHackPercent.
      logging_steps rateMessage.
    + logging_steps rateMessage.
  - logging_steps rateMessage.
  - unfold fallbackRates, getField, setServer. logging_steps rateMessage.
Qed.

Lemma unlockedCallback_logging
    (ns : NS) (options : Options) (ramTotal : R) (useEstHackPercent : bool)
    (server : ref) :
  preserves (logging rateMessage)
    (unlockedCallback ns options ramTotal useEstHackPercent server).
Proof.
  unfold unlockedCallback, setServer.
  apply (along_bind (logging rateMessage) (logging_trans rateMessage));
    [apply (along_gets _ (logging_refl _)) | intros hacking].
  apply (along_bind (logging rateMessage) (logging_trans rateMessage));
    [apply getRatesAtHackLevel_logging | intros [[t c] x]].
  logging_steps rateMessage.
Qed.

(* ------------------------------------------------------------------ *)
(** ** What the evaluations keep *)

Lemma sameServer_refl (s : Server) : sameServer s s.
Proof. repeat split. Qed.

Lemma sameServer_trans (a b c : Server) : sameServer a b -> sameServer b c -> sameServer a c.
Proof.
  unfold sameServer. intros (A1 & A2 & A3 & A4 & A5 & A6 & A7) (B1 & B2 & B3 & B4 & B5 & B6 & B7).
  repeat split; congruence.
Qed.

Lemma evaluating_refl (st : State) : evaluating st st.
Proof. repeat split. apply logging_refl. Qed.

Lemma evaluating_trans (a b c : State) : evaluating a b -> evaluating b c -> evaluating a c.
Proof.
  intros (P1 & S1 & L1) (P2 & S2 & L2). split; [congruence|]. split.
  - intros r. eapply sameServer_trans; [apply S1 | apply S2].
  - eapply logging_trans; eassumption.
Qed.

Lemma getRatesAtHackLevel_evaluating
    (ns : NS) (options : Options) (ramTotal : R) (useEstHackPercent : bool)
    (server : ref) (hackLevel : Z) :
  preserves evaluating
    (getRatesAtHackLevel ns options ramTotal useEstHackPercent server hackLevel).
Proof.
  intros st. split; [|split].
  - destruct (getRatesAtHackLevel_keeps ns options ramTotal useEstHackPercent server
                hackLevel st) as (rates & st' & E & Hp & _).
    now rewrite E.
  - intros r.
    destruct (getRatesAtHackLevel_frame ns options ramTotal useEstHackPercent server
                hackLevel st r) as (e & m & d & Hs).
    rewrite Hs. repeat split.
  - eapply logging_weaken; [|apply getRatesAtHackLevel_logging].
    intros [] H; try discriminate H; reflexivity.
Qed.

(** An assignment to a field the script attaches to a server object. *)
Lemma evaluating_setServer (server : ref) (f : Server -> Server) :
  (forall s, sameServer s (f s)) -> preserves evaluating (setServer server f).
Proof.
  intros Hf st. split; [reflexivity|]. split.
  - intros r. cbn. unfold upd. destruct (Nat.eqb_spec r server) as [-> | Hne].
    + apply Hf.
    + apply sameServer_refl.
  - exists []. cbn. now rewrite app_nil_r.
Qed.

Lemma evaluating_emit (e : Event) : logged e = true -> preserves evaluating (emit e).
Proof.
  intros He st. split; [reflexivity|]. split.
  - intros r. apply sameServer_refl.
  - now apply logging_emit.
Qed.

Ltac evaluating_steps :=
  repeat first
    [ apply (along_bind evaluating evaluating_trans); [ | intros ? ]
    | apply getRatesAtHackLevel_evaluating
    | apply (along_gets evaluating evaluating_refl)
    | apply (along_ret evaluating evaluating_refl)
    | apply evaluating_emit; reflexivity
    | apply evaluating_setServer; intros ?; repeat split ].

Lemma unlockedCallback_evaluating
    (ns : NS) (options : Options) (ramTotal : R) (useEstHackPercent : bool)
    (server : ref) :
  preserves evaluating (unlockedCallback ns options ramTotal useEstHackPercent server).
Proof.
  unfold unlockedCallback.
  apply (along_bind evaluating evaluating_trans);
    [apply (along_gets evaluating evaluating_refl) | intros hacking].
  apply (along_bind evaluating evaluating_trans);
    [apply getRatesAtHackLevel_evaluating | intros [[t c] x]].
  evaluating_steps.
Qed.

Lemma lockedCallback_evaluating
    (ns : NS) (options : Options) (ramTotal : R) (useEstHackPercent : bool)
    (bestUnlockedServer server : ref) :
  preserves evaluating
    (lockedCallback ns options ramTotal useEstHackPercent bestUnlockedServer server).
Proof.
  unfold lockedCallback, getField.
  apply (along_bind evaluating evaluating_trans);
    [apply (along_gets evaluating evaluating_refl) | intros required].
  apply (along_bind evaluating evaluating_trans);
    [apply getRatesAtHackLevel_evaluating | intros [[g c] e]].
  apply (along_bind evaluating evaluating_trans);
    [apply (along_gets evaluating evaluating_refl) | intros bestTheoretical].
  apply (along_bind evaluating evaluating_trans);
    [apply (along_gets evaluating evaluating_refl) | intros bestExp].
  apply (along_bind evaluating evaluating_trans);
    [apply (along_gets evaluating evaluating_refl) | intros required'].
  apply (along_bind evaluating evaluating_trans);
    [apply getRatesAtHackLevel_evaluating | intros [[t c'] x]].
  evaluating_steps.
Qed.

(* ------------------------------------------------------------------ *)
(** ** The recorded rates *)

Lemma rated_ext (s s' : Server) :
  theoreticalGainRate s' = theoreticalGainRate s ->
  gainRate s' = gainRate s ->
  expRate s' = expRate s ->
  rated s -> rated s'.
Proof. unfold rated. intros -> -> ->. tauto. Qed.

(** The rates recorded on the servers the callback is not about stay. *)
Lemma unlockedCallback_others
    (ns : NS) (options : Options) (ramTotal : R) (useEstHackPercent : bool)
    (server : ref) (st : State) (r : ref) :
  r <> server ->
  let after := heap (snd (unlockedCallback ns options ramTotal useEstHackPercent server st)) r in
  theoreticalGainRate after = theoreticalGainRate (heap st r)
  /\ gainRate after = gainRate (heap st r)
  /\ expRate after = expRate (heap st r).
Proof.
  intros Hne after. subst after.
  unfold unlockedCallback, bind, gets, setServer, modify, ret.
  destruct (getRatesAtHackLevel_frame ns options ramTotal useEstHackPercent server
              (skills_hacking (player st)) st r) as (e & m & d & Hs).
  destruct (getRatesAtHackLevel ns options ramTotal useEstHackPercent server
              (skills_hacking (player st)) st) as [[[[t c] x]|] st1];
    cbn [snd] in Hs; cbn.
  - rewrite !upd_other by assumption. rewrite Hs. repeat split.
  - rewrite Hs. repeat split.
Qed.

Lemma unlockedCallback_rates
    (ns : NS) (options : Options) (ramTotal : R) (useEstHackPercent : bool)
    (server : ref) (st : State) :
  rated (heap (snd (unlockedCallback ns options ramTotal useEstHackPercent server st)) server).
Proof.
  destruct (getRatesAtHackLevel_total ns options ramTotal useEstHackPercent server
              (skills_hacking (player st)) st) as ([[t c] x] & st1 & E).
  destruct (unlockedCallback_records ns options ramTotal useEstHackPercent server st t c x)
    as (H1 & H2 & H3); [now rewrite E|].
  unfold rated. rewrite H1, H2, H3. repeat split; discriminate.
Qed.

Lemma mapM_unlockedCallback_rated
    (ns : NS) (options : Options) (ramTotal : R) (useEstHackPercent : bool)
    (l : list ref) (st : State) (r : ref) :
  In r l \/ rated (heap st r) ->
  rated (heap (snd (mapM (unlockedCallback ns options ramTotal useEstHackPercent) l st)) r).
Proof.
  revert st. induction l as [|x l IH]; intros st Hr.
  - destruct Hr as [[]|Hr]. exact Hr.
  - destruct (unlockedCallback_run ns options ramTotal useEstHackPercent x st)
      as (st1 & Ex & _).
    destruct (mapM_unlockedCallback_run ns options ramTotal useEstHackPercent l st1)
      as (st2 & El & _).
    specialize (IH st1). rewrite El in IH. cbn [snd] in IH.
    cbn [mapM]. unfold bind, ret. rewrite Ex, El. cbn [snd].
    apply IH.
    destruct (Nat.eq_dec r x) as [-> | Hne].
    + right. pose proof (unlockedCallback_rates ns options ramTotal useEstHackPercent x st)
        as H. now rewrite Ex in H.
    + destruct Hr as [[E|Hr]|Hr]; [congruence | now left | right].
      destruct (unlockedCallback_others ns options ramTotal useEstHackPercent x st r Hne)
        as (H1 & H2 & H3).
      rewrite Ex in H1, H2, H3. cbn [snd] in *.
      eapply rated_ext; eassumption.
Qed.

(** With rates recorded on the reference server, the callback records
    rates on the server it is about. *)
Lemma lockedCallback_rates
    (ns : NS) (options : Options) (ramTotal : R) (useEstHackPercent : bool)
    (bestUnlockedServer server : ref) (st : State) :
  rated (heap st bestUnlockedServer) ->
  rated (heap (snd (lockedCallback ns options ramTotal useEstHackPercent
                      bestUnlockedServer server st)) server).
Proof.
  intros (Ht & _ & Hx).
  unfold lockedCallback, bind, getField, gets, setServer, emit, modify, ret.
  destruct (getRatesAtHackLevel_total ns options ramTotal useEstHackPercent
              bestUnlockedServer (requiredHackingSkill (heap st server)) st)
    as ([[g c] e] & st1 & E1).
  destruct (getRatesAtHackLevel_frame ns options ramTotal useEstHackPercent
              bestUnlockedServer (requiredHackingSkill (heap st server)) st
              bestUnlockedServer) as (e1 & m1 & d1 & Hs1).
  rewrite E1 in *. cbn [snd] in Hs1.
  destruct (getRatesAtHackLevel_total ns options ramTotal useEstHackPercent
              server (requiredHackingSkill (heap st1 server)) st1)
    as ([[g' c'] e'] & st2 & E2).
  rewrite E2. cbn. rewrite !upd_same. cbn.
  rewrite Hs1. cbn.
  destruct (theoreticalGainRate (heap st bestUnlockedServer)) as [bt|]; [|contradiction].
  destruct (expRate (heap st bestUnlockedServer)) as [bx|]; [|contradiction].
  unfold rated. cbn.
  destruct (truthy g), (truthy e); cbn; repeat split; discriminate.
Qed.

Lemma mapM_lockedCallback_rated
    (ns : NS) (options : Options) (ramTotal : R) (useEstHackPercent : bool)
    (bestUnlockedServer : ref) (l : list ref) (st : State) (r : ref) :
  rated (heap st bestUnlockedServer) ->
  In r l \/ rated (heap st r) ->
  rated (heap (snd (mapM (lockedCallback ns options ramTotal useEstHackPercent
                            bestUnlockedServer) l st)) r).
Proof.
  revert st. induction l as [|x l IH]; intros st Hbest Hr.
  - destruct Hr as [[]|Hr]. exact Hr.
  - destruct (lockedCallback_run ns options ramTotal useEstHackPercent
                bestUnlockedServer x st) as (st1 & Ex).
    destruct (mapM_lockedCallback_run ns options ramTotal useEstHackPercent
                bestUnlockedServer l st1) as (st2 & El).
    specialize (IH st1). rewrite El in IH. cbn [snd] in IH.
    cbn [mapM]. unfold bind, ret. rewrite Ex, El. cbn [snd].
    assert (Hstep : forall q, q = x \/ rated (heap st q) -> rated (heap st1 q)).
    { intros q Hq. destruct (Nat.eq_dec q x) as [-> | Hne].
      - pose proof (lockedCallback_rates ns options ramTotal useEstHackPercent
                      bestUnlockedServer x st Hbest) as H.
        now rewrite Ex in H.
      - destruct Hq as [E|Hq]; [congruence|].
        destruct (lockedCallback_effect ns options ramTotal useEstHackPercent
                    bestUnlockedServer x st) as (_ & Hkeep).
        specialize (Hkeep q Hne). cbv zeta in Hkeep. rewrite Ex in Hkeep.
        cbn [snd] in Hkeep. destruct Hkeep as (H1 & H2 & H3).
        eapply rated_ext; eassumption. }
    apply IH.
    + apply Hstep. now right.
    + destruct Hr as [[E|Hr]|Hr]; [right; apply Hstep; now left | now left |].
      right. apply Hstep. now right.
Qed.

(* ------------------------------------------------------------------ *)
(** ** The states between the stages *)

Lemma unlockedRated_evaluating (ns : NS) (options : Options) :
  evaluating (started ns options) (unlockedRated ns options).
Proof.
  apply (along_mapM evaluating evaluating_refl evaluating_trans).
  intros x. apply unlockedCallback_evaluating.
Qed.

Lemma unlockedRated_logging (ns : NS) (options : Options) :
  logging rateMessage (started ns options) (unlockedRated ns options).
Proof.
  apply (along_mapM _ (logging_refl _) (logging_trans _)).
  intros x. apply unlockedCallback_logging.
Qed.

Lemma lockedRated_evaluating (ns : NS) (options : Options) (best : ref) :
  evaluating (announced (unlockedRated ns options) best) (lockedRated ns options best).
Proof.
  apply (along_mapM evaluating evaluating_refl evaluating_trans).
  intros x. apply lockedCallback_evaluating.
Qed.

Lemma unlockedRated_rated (ns : NS) (options : Options) (r : ref) :
  In r (unlockedOrder ns options) -> rated (heap (unlockedRated ns options) r).
Proof. intros Hr. apply mapM_unlockedCallback_rated. now left. Qed.

Lemma lockedRated_rated (ns : NS) (options : Options) (best r : ref) :
  In best (unlockedOrder ns options) ->
  In r (evaluationOrder ns options) ->
  rated (heap (lockedRated ns options best) r).
Proof.
  intros Hbest Hr. apply mapM_lockedCallback_rated.
  - now apply unlockedRated_rated.
  - rewrite evaluationOrder_split in Hr. apply in_app_or in Hr.
    destruct Hr as [Hr|Hr]; [right | now left].
    now apply unlockedRated_rated.
Qed.

(** What the scanned servers look like at the end of the stages. *)
Lemma lockedRated_servers (ns : NS) (options : Options) (best r : ref) :
  sameServer (scanned ns r) (heap (lockedRated ns options best) r).
Proof.
  destruct (unlockedRated_evaluating ns options) as (_ & S1 & _).
  destruct (lockedRated_evaluating ns options best) as (_ & S2 & _).
  eapply sameServer_trans; [apply (S1 r) | apply (S2 r)].
Qed.

Lemma lockedRated_player (ns : NS) (options : Options) (best : ref) :
  player (lockedRated ns options best) = mkPlayer (runHacking ns options).
Proof.
  destruct (unlockedRated_evaluating ns options) as (P1 & _).
  destruct (lockedRated_evaluating ns options best) as (P2 & _).
  rewrite P2. cbn [announced player]. now rewrite P1.
Qed.

(** A run past the check of the hack percent that finds a server within
    the hack level returns; [best] is [bestUnlockedServer]. *)
Lemma main_returns (ns : NS) (options : Options) :
  inRange options ->
  unlockedOrder ns options <> [] ->
  exists best rest g gs x xs,
    sortBy (byGainRate (heap (unlockedRated ns options))) (unlockedOrder ns options)
    = best :: rest
    /\ sortBy (byGainRate (heap (lockedRated ns options best))) (evaluationOrder ns options)
       = g :: gs
    /\ sortBy (byExpRate (heap (lockedRated ns options best))) (evaluationOrder ns options)
       = x :: xs
    /\ main ns options (initial ns options)
       = (Ok tt,
          mkState (player (lockedRated ns options best)) (heap (lockedRated ns options best))
            (hackPercent (lockedRated ns options best))
            (out (lockedRated ns options best)
             ++ summary options (heap (lockedRated ns options best))
                  (runHacking ns options) (evaluationOrder ns options) g x)).
Proof.
  intros Hrange Hne.
  pose proof (main_stages ns options Hrange) as H.
  destruct (sortBy (byGainRate (heap (unlockedRated ns options))) (unlockedOrder ns options))
    as [|best rest] eqn:Es.
  - apply sortBy_nil_inv in Es. contradiction.
  - cbv zeta in H. destruct H as (g & gs & x & xs & Eg & Ex & Hm).
    exists best, rest, g, gs, x, xs. auto.
Qed.

Lemma sortBy_head_In {A : Type} (after : A -> A -> bool) (l : list A) (x : A) (xs : list A) :
  sortBy after l = x :: xs -> In x l.
Proof.
  intros E. apply (Permutation_in x (sortBy_Permutation after l)).
  rewrite E. now left.
Qed.

(* ------------------------------------------------------------------ *)
(** ** How a run ends *)

(** A run whose hack percent is refused prints one message and ends. *)
Lemma main_refuses (ns : NS) (options : Options) :
  hack_percent options <> -1 ->
  hack_percent options <= 0 \/ 100 <= hack_percent options ->
  main ns options (initial ns options)
  = (Ok tt,
     mkState (getPlayer ns) (scanned ns) (hack_percent options / 100) [TPrintOutOfRange]).
Proof.
  intros Hne Hout. unfold main.
  rewrite run_bind_gets. cbv beta.
  destruct (Req_dec_T (hack_percent options) (-1)) as [E|_]; [contradiction|].
  cbn [negb andb initial hackPercent].
  assert (Hc : Rleb (hack_percent options / 100) 0
               || Rleb 1 (hack_percent options / 100) = true).
  { destruct Hout as [H|H].
    - rewrite Rleb_true by lra. reflexivity.
    - rewrite (Rleb_true 1) by lra. apply orb_true_r. }
  rewrite Hc. reflexivity.
Qed.

(** X1.  When a hack percent other than -1 is given and it is at most 0 or
    at least 100, the run prints the message that the hack percent is out
    of range to the terminal and returns: nothing else is printed, no
    server is rated and no file is written.  The ends of the range, 0 and
    100, are refused, and [--silent] does not hold the message back. *)
Theorem hack_percent_out_of_range (ns : NS) (options : Options) :
  hack_percent options <> -1 ->
  hack_percent options <= 0 \/ 100 <= hack_percent options ->
  run ns (Some options) = (Ok tt, [TPrintOutOfRange]).
Proof.
  intros Hne Hout. unfold run. now rewrite (main_refuses ns options Hne Hout).
Qed.

Lemma inRange_dec (options : Options) :
  inRange options
  \/ (hack_percent options <> -1
      /\ (hack_percent options <= 0 \/ 100 <= hack_percent options)).
Proof.
  unfold inRange.
  destruct (Req_dec_T (hack_percent options) (-1)) as [E|N]; [now left; left|].
  destruct (Rle_dec (hack_percent options) 0) as [H0|H0]; [right; split; auto|].
  destruct (Rle_dec 100 (hack_percent options)) as [H1|H1]; [right; split; auto|].
  left. right. lra.
Qed.

(** A run that finds no server within the hack level ends at line 213. *)
Lemma main_throws (ns : NS) (options : Options) :
  inRange options ->
  unlockedOrder ns options = [] ->
  main ns options (initial ns options) = (Thrown, started ns options).
Proof.
  intros Hrange Hnone.
  pose proof (main_stages ns options Hrange) as H.
  assert (Est : unlockedRated ns options = started ns options)
    by (unfold unlockedRated; now rewrite Hnone).
  rewrite Hnone in H. cbn [sortBy fold_right] in H.
  now rewrite H, Est.
Qed.

(** X2.  When the check of the hack percent is passed and no reported
    server is within the hack level (so also when the scan finds no server
    at all), [bestUnlockedServer] is [undefined] and line 215 throws on
    reading its [hostname]: the run ends with an exception after it has
    printed the settings and nothing else. *)
Theorem main_throws_without_unlocked_server (ns : NS) (options : Options) :
  inRange options ->
  unlockedOrder ns options = [] ->
  run ns (Some options)
  = (Thrown,
     [PrintSettings (all options) (runHacking ns options) (ramTotalOf ns options)]).
Proof.
  intros Hrange Hnone. unfold run.
  rewrite (main_throws ns options Hrange Hnone). reflexivity.
Qed.

(** A scan without servers: the settings are printed, then line 215 throws. *)
Lemma main_throws_without_any_server :
  run noServers_ns (Some scenarioA_options) = (Thrown, [PrintSettings false 1 0]).
Proof.
  apply (main_throws_without_unlocked_server noServers_ns scenarioA_options).
  - left. reflexivity.
  - reflexivity.
Defined.

(** X3.  When the check of the hack percent is passed and at least one
    reported server is within the hack level, the run returns normally.
    The first thing it prints is the settings, the last thing it does is to
    write the file, with one record for each reported server. *)
Theorem main_returns_with_unlocked_server (ns : NS) (options : Options) :
  inRange options ->
  unlockedOrder ns options <> [] ->
  exists events records,
    run ns (Some options)
    = (Ok tt,
       PrintSettings (all options) (runHacking ns options) (ramTotalOf ns options)
       :: events ++ [FileWrite "/Temp/analyze-hack.txt" records "w"])
    /\ length records = length (reportedServers ns options).
Proof.
  intros Hrange Hne.
  destruct (main_returns ns options Hrange Hne)
    as (best & rest & g & gs & x & xs & Eb & Eg & Ex & Hm).
  destruct (unlockedRated_evaluating ns options) as (_ & _ & e1 & He1 & _).
  destruct (lockedRated_evaluating ns options best) as (_ & _ & e2 & He2 & _).
  cbn [announced out] in He2. rewrite He1 in He2. cbn [started out] in He2.
  unfold run. rewrite Hm. cbn [out]. rewrite He2. unfold summary.
  exists (e1
          ++ [PrintBestUnlocked (hostname (heap (unlockedRated ns options) best))
                (gainRate (heap (unlockedRated ns options) best))]
          ++ e2
          ++ (if silent options then []
              else [TPrintBest (hostname (heap (lockedRated ns options best) g))
                      (gainRate (heap (lockedRated ns options best) g))])
          ++ [PrintGainList (runHacking ns options)
                (numbered (gainLine (heap (lockedRated ns options best))) 1
                   (evaluationOrder ns options))]
          ++ (if silent options then []
              else [TPrintBestExp (hostname (heap (lockedRated ns options best) x))
                      (expRate (heap (lockedRated ns options best) x))])
          ++ [PrintExpList (runHacking ns options)
                (numbered (expLine (heap (lockedRated ns options best))) 1
                   (firstn (Nat.min 5 (length (evaluationOrder ns options)))
                      (evaluationOrder ns options)))]),
    (map (rankedRecord (heap (lockedRated ns options best))) (evaluationOrder ns options)).
  split.
  - rewrite <- !app_assoc. cbn [app]. reflexivity.
  - rewrite length_map. apply Permutation_length, evaluationOrder_Permutation.
Qed.

(* ------------------------------------------------------------------ *)
(** ** The settings *)

(** The reducer adds the RAM of the servers that count. *)
Lemma addRam_sum (options : Options) (l : list Server) (total : R) :
  fold_left (addRam options) l total
  = total + fold_right Rplus 0 (map maxRam (filter (countsForRam options) l)).
Proof.
  revert total. induction l as [|s l IH]; intros total; cbn [fold_left filter].
  - cbn. lra.
  - rewrite IH. unfold addRam, countsForRam.
    destruct (hasAdminRights s), (prefix "hacknet" (hostname s)),
      (include_hacknet_ram options); cbn; lra.
Qed.

(** Every run past the check of the hack percent prints the settings
    first. *)
Lemma main_prints_settings_first (ns : NS) (options : Options) :
  inRange options ->
  exists rest,
    snd (run ns (Some options))
    = PrintSettings (all options) (runHacking ns options) (ramTotalOf ns options) :: rest.
Proof.
  intros Hrange.
  destruct (unlockedRated_evaluating ns options) as (_ & _ & e1 & He1 & _).
  cbn [started out app] in He1.
  destruct (unlockedOrder ns options) as [|u us] eqn:Eu.
  - unfold run. rewrite (main_throws ns options Hrange Eu). now exists [].
  - assert (Hne : unlockedOrder ns options <> []) by (rewrite Eu; discriminate).
    destruct (main_returns ns options Hrange Hne)
      as (best & rest & g & gs & x & xs & _ & _ & _ & Hm).
    destruct (lockedRated_evaluating ns options best) as (_ & _ & e2 & He2 & _).
    cbn [announced out] in He2. rewrite He1 in He2.
    unfold run. rewrite Hm. cbn [snd out]. rewrite He2.
    rewrite <- !app_assoc. cbn [app]. eexists. reflexivity.
Qed.

(** Reading every index of a list gives the list. *)
Lemma map_nth_seq {A : Type} (l : list A) (d : A) :
  map (fun r => nth r l d) (seq 0 (length l)) = l.
Proof.
  induction l as [|a l IH]; [reflexivity|].
  cbn [length seq map nth]. f_equal.
  rewrite <- seq_shift, map_map. exact IH.
Qed.

(** X4.  The RAM total a run works with, printed with the settings as the
    first message, is the sum of [maxRam] over the scanned servers that
    have admin rights and whose name does not start with "hacknet", the
    latter being counted as well under [--include-hacknet-ram].  Purchased
    servers count like any other.  The hack level printed with it is
    [--at-hack-level] when that is not 0, the player's level otherwise. *)
Theorem ram_total_counts (ns : NS) (options : Options) :
  inRange options ->
  exists rest,
    snd (run ns (Some options))
    = PrintSettings (all options)
        (if (at_hack_level options =? 0)%Z then skills_hacking (getPlayer ns)
         else at_hack_level options)
        (fold_right Rplus 0
           (map maxRam
              (filter (countsForRam options)
                 (map (getServer ns) (scanAllServers ns)))))
      :: rest.
Proof.
  intros Hrange.
  destruct (main_prints_settings_first ns options Hrange) as (rest & Hrun).
  exists rest. rewrite Hrun. f_equal. f_equal.
  unfold ramTotalOf. rewrite addRam_sum, Rplus_0_l.
  f_equal. f_equal. f_equal.
  unfold scanned.
  rewrite <- (map_map (fun r => nth r (scanAllServers ns) ""%string) (getServer ns)).
  f_equal. apply map_nth_seq.
Qed.

(* ------------------------------------------------------------------ *)
(** ** The lists *)

Lemma summary_gain_list (options : Options) (h : ref -> Server) (hacking : Z)
    (serverEval : list ref) (g x : ref) (before : list Event) :
  In (PrintGainList hacking (numbered (gainLine h) 1 serverEval))
    (before ++ summary options h hacking serverEval g x).
Proof.
  apply in_or_app. right. unfold summary.
  apply in_or_app. right. now left.
Qed.

Lemma summary_exp_list (options : Options) (h : ref -> Server) (hacking : Z)
    (serverEval : list ref) (g x : ref) (before : list Event) :
  In (PrintExpList hacking
        (numbered (expLine h) 1 (firstn (Nat.min 5 (length serverEval)) serverEval)))
    (before ++ summary options h hacking serverEval g x).
Proof.
  apply in_or_app. right. unfold summary.
  apply in_or_app. right. cbn [app]. right. apply in_or_app. right. now left.
Qed.

Lemma summary_file (options : Options) (h : ref -> Server) (hacking : Z)
    (serverEval : list ref) (g x : ref) (before : list Event) :
  In (FileWrite "/Temp/analyze-hack.txt" (map (rankedRecord h) serverEval) "w")
    (before ++ summary options h hacking serverEval g x).
Proof.
  apply in_or_app. right. unfold summary.
  apply in_or_app. right. cbn [app]. right. apply in_or_app. right. right. now left.
Qed.

Lemma evaluationOrder_In (ns : NS) (options : Options) (r : ref) :
  In r (evaluationOrder ns options)
  <-> (r < length (scanAllServers ns))%nat
      /\ reported options (runHacking ns options) (scanned ns r) = true.
Proof.
  split.
  - intros H. apply (Permutation_in r (evaluationOrder_Permutation ns options)) in H.
    unfold reportedServers in H. apply filter_In in H. destruct H as (Hs & Hr).
    apply in_seq in Hs. split; [lia | exact Hr].
  - intros (Hs & Hr).
    apply (Permutation_in r (Permutation_sym (evaluationOrder_Permutation ns options))).
    unfold reportedServers. apply filter_In. split; [apply in_seq; lia | exact Hr].
Qed.

(** X5.  A run that returns lists, in what it prints by gain and in the
    file it writes, every scanned server that passes the filter of lines
    192-199 (not purchased, some money, and either [--all] or admin rights
    and a required skill within the hack level), each exactly once, and no
    other server; the names are the names as scanned. *)
Theorem every_reported_server_is_listed_once (ns : NS) (options : Options) :
  inRange options ->
  unlockedOrder ns options <> [] ->
  exists st listed,
    main ns options (initial ns options) = (Ok tt, st)
    /\ In (PrintGainList (runHacking ns options) (numbered (gainLine (heap st)) 1 listed))
         (out st)
    /\ In (FileWrite "/Temp/analyze-hack.txt" (map (rankedRecord (heap st)) listed) "w")
         (out st)
    /\ NoDup listed
    /\ (forall r, In r listed
                  <-> (r < length (scanAllServers ns))%nat
                      /\ reported options (runHacking ns options)
                           (getServer ns (nth r (scanAllServers ns) ""%string)) = true)
    /\ (forall r, hostname (heap st r)
                  = hostname (getServer ns (nth r (scanAllServers ns) ""%string))).
Proof.
  intros Hrange Hne.
  destruct (main_returns ns options Hrange Hne)
    as (best & rest & g & gs & x & xs & Eb & Eg & Ex & Hm).
  eexists _, (evaluationOrder ns options). split; [exact Hm|].
  cbn [out heap]. split; [apply summary_gain_list|]. split; [apply summary_file|].
  split; [|split].
  - apply (Permutation_NoDup (Permutation_sym (evaluationOrder_Permutation ns options))).
    apply reportedServers_NoDup.
  - intros r. apply evaluationOrder_In.
  - intros r. destruct (lockedRated_servers ns options best r) as (Hh & _). exact Hh.
Qed.

(* ------------------------------------------------------------------ *)
(** ** The order of the lists *)

Lemma StronglySorted_filter {A : Type} (R : A -> A -> Prop) (f : A -> bool) (l : list A) :
  StronglySorted R l -> StronglySorted R (filter f l).
Proof.
  induction 1 as [|a l Hs IH Ha]; cbn [filter]; [constructor|].
  destruct (f a); [|exact IH].
  constructor; [exact IH|].
  rewrite Forall_forall in *. intros y Hy. apply filter_In in Hy. now apply Ha.
Qed.

Lemma seq_StronglySorted (start len : nat) : StronglySorted lt (seq start len).
Proof.
  revert start. induction len as [|len IH]; intros start; cbn [seq]; constructor.
  - apply IH.
  - rewrite Forall_forall. intros y Hy. apply in_seq in Hy. lia.
Qed.

(** The sort by required skill is stable: servers that need the same skill
    stay in the order of the scan. *)
Lemma insertBy_listedBefore (h : ref -> Server) (x : ref) (l : list ref) :
  Forall (lt x) l ->
  StronglySorted (listedBefore h) l ->
  StronglySorted (listedBefore h) (insertBy (byRequiredHackingSkill h) x l).
Proof.
  induction l as [|y l IH]; intros Hx Hs; cbn [insertBy].
  - constructor; constructor.
  - inversion Hs as [|? ? Hl Hy]; subst. inversion Hx as [|? ? Hxy Hxl]; subst.
    unfold byRequiredHackingSkill at 1.
    destruct (0 <? requiredHackingSkill (h x) - requiredHackingSkill (h y))%Z eqn:E.
    + apply Z.ltb_lt in E. constructor; [now apply IH|].
      apply (Permutation_Forall (Permutation_sym (insertBy_Permutation _ x l))).
      constructor; [left; lia | exact Hy].
    + apply Z.ltb_ge in E. constructor; [exact Hs|].
      assert (Hxy' : listedBefore h x y).
      { unfold listedBefore.
        destruct (Z.eq_dec (requiredHackingSkill (h x)) (requiredHackingSkill (h y)));
          [right; split; assumption | left; lia]. }
      constructor; [exact Hxy'|].
      rewrite Forall_forall in *. intros z Hz. specialize (Hy z Hz). specialize (Hxl z Hz).
      unfold listedBefore in *.
      destruct Hxy' as [H1|[H1 H1']], Hy as [H2|[H2 H2']];
        first [left; lia | right; split; lia].
Qed.

Lemma sortBy_listedBefore (h : ref -> Server) (l : list ref) :
  StronglySorted lt l ->
  StronglySorted (listedBefore h) (sortBy (byRequiredHackingSkill h) l).
Proof.
  induction 1 as [|x l Hs IH Hx]; [constructor|].
  rewrite sortBy_cons. apply insertBy_listedBefore; [|exact IH].
  apply (Permutation_Forall (Permutation_sym (sortBy_Permutation _ l))). exact Hx.
Qed.

Lemma listedBefore_ext (h h' : ref -> Server) (l : list ref) :
  (forall r, requiredHackingSkill (h' r) = requiredHackingSkill (h r)) ->
  StronglySorted (listedBefore h) l -> StronglySorted (listedBefore h') l.
Proof.
  intros Hreq Hs. induction Hs as [|a l Hs IH Ha]; constructor; [exact IH|].
  eapply Forall_impl; [|exact Ha]. cbn. intros b Hb.
  unfold listedBefore in *. now rewrite !Hreq.
Qed.

Lemma lockedOrder_listedBefore (ns : NS) (options : Options) :
  StronglySorted (listedBefore (scanned ns)) (lockedOrder ns options).
Proof.
  unfold lockedOrder. apply sortBy_listedBefore.
  unfold reportedServers.
  apply StronglySorted_filter, StronglySorted_filter, seq_StronglySorted.
Qed.

Lemma unlockedOrder_scan_order (ns : NS) (options : Options) :
  StronglySorted lt (unlockedOrder ns options).
Proof.
  unfold unlockedOrder, reportedServers.
  apply StronglySorted_filter, StronglySorted_filter, seq_StronglySorted.
Qed.

(** X6.  The list a run prints by gain is in the order of evaluation: first
    the servers within the hack level, in the order of the scan, then the
    servers above it, by rising required hacking skill, those that need
    the same skill in the order of the scan.  A server whose required skill
    equals the hack level counts as within it.  (A reference is the position
    of its server in the scan.) *)
Theorem listing_order (ns : NS) (options : Options) :
  inRange options ->
  unlockedOrder ns options <> [] ->
  exists st unlocked locked,
    main ns options (initial ns options) = (Ok tt, st)
    /\ In (PrintGainList (runHacking ns options)
             (numbered (gainLine (heap st)) 1 (unlocked ++ locked))) (out st)
    /\ StronglySorted lt unlocked
    /\ Forall (fun r => (requiredHackingSkill (heap st r) <= runHacking ns options)%Z)
         unlocked
    /\ Forall (fun r => (runHacking ns options < requiredHackingSkill (heap st r))%Z) locked
    /\ StronglySorted (listedBefore (heap st)) locked.
Proof.
  intros Hrange Hne.
  destruct (main_returns ns options Hrange Hne)
    as (best & rest & g & gs & x & xs & Eb & Eg & Ex & Hm).
  eexists _, (unlockedOrder ns options), (lockedOrder ns options).
  split; [exact Hm|]. cbn [out heap].
  assert (Hreq : forall r,
    requiredHackingSkill (heap (lockedRated ns options best) r)
    = requiredHackingSkill (scanned ns r)).
  { intros r. destruct (lockedRated_servers ns options best r)
      as (_ & _ & _ & _ & _ & _ & H). exact H. }
  split; [rewrite <- evaluationOrder_split; apply summary_gain_list|].
  split; [apply unlockedOrder_scan_order|]. split; [|split].
  - rewrite Forall_forall. intros r Hr. rewrite Hreq.
    unfold unlockedOrder in Hr. apply filter_In in Hr. destruct Hr as (_ & Hr).
    now apply Z.leb_le in Hr.
  - rewrite Forall_forall. intros r Hr. rewrite Hreq.
    unfold lockedOrder in Hr.
    apply (Permutation_in r (sortBy_Permutation _ _)) in Hr.
    apply filter_In in Hr. destruct Hr as (_ & Hr). now apply Z.ltb_lt in Hr.
  - apply (listedBefore_ext (scanned ns)); [exact Hreq|].
    apply lockedOrder_listedBefore.
Qed.

Lemma filter_none {A : Type} (f : A -> bool) (l : list A) :
  (forall x, In x l -> f x = false) -> filter f l = [].
Proof.
  induction l as [|a l IH]; intros H; [reflexivity|].
  cbn [filter]. rewrite (H a (or_introl eq_refl)). apply IH.
  intros x Hx. apply H. now right.
Qed.

(** X7.  Without [--all] no reported server is above the hack level:
    nothing is scaled, and the list by gain and the records of the file
    are the reported servers in the order of the scan. *)
Theorem without_all_lists_follow_the_scan (ns : NS) (options : Options) :
  all options = false ->
  inRange options ->
  reportedServers ns options <> [] ->
  exists st,
    main ns options (initial ns options) = (Ok tt, st)
    /\ In (PrintGainList (runHacking ns options)
             (numbered (gainLine (heap st)) 1 (reportedServers ns options))) (out st)
    /\ In (FileWrite "/Temp/analyze-hack.txt"
             (map (rankedRecord (heap st)) (reportedServers ns options)) "w") (out st)
    /\ forallb (fun e => match e with PrintScaled _ _ _ _ _ _ => false | _ => true end)
         (out st) = true.
Proof.
  intros Hall Hrange Hne.
  assert (Hle : forall r, In r (reportedServers ns options) ->
                 (requiredHackingSkill (scanned ns r) <=? runHacking ns options)%Z = true).
  { intros r Hr. unfold reportedServers in Hr. apply filter_In in Hr.
    destruct Hr as (_ & Hr). unfold reported in Hr. rewrite Hall in Hr. cbn [orb] in Hr.
    apply andb_prop in Hr. destruct Hr as (_ & Hr).
    apply andb_prop in Hr. destruct Hr as (_ & Hr). exact Hr. }
  assert (Hwithin : unlockedOrder ns options = reportedServers ns options).
  { unfold unlockedOrder. apply forallb_filter_id. apply forallb_forall. exact Hle. }
  assert (Habove : lockedOrder ns options = []).
  { unfold lockedOrder. rewrite filter_none; [reflexivity|].
    intros r Hr. rewrite Z.ltb_antisym. now rewrite (Hle r Hr). }
  assert (Heval : evaluationOrder ns options = reportedServers ns options)
    by (rewrite evaluationOrder_split, Habove, app_nil_r; exact Hwithin).
  assert (Hne' : unlockedOrder ns options <> []) by now rewrite Hwithin.
  destruct (main_returns ns options Hrange Hne')
    as (best & rest & g & gs & x & xs & Eb & Eg & Ex & Hm).
  eexists. split; [exact Hm|]. cbn [out heap]. rewrite Heval.
  split; [apply summary_gain_list|]. split; [apply summary_file|].
  assert (Hst2 : lockedRated ns options best = announced (unlockedRated ns options) best)
    by (unfold lockedRated; now rewrite Habove).
  rewrite Hst2. cbn [announced out heap].
  destruct (unlockedRated_logging ns options) as (e1 & He1 & Hl1).
  rewrite He1. cbn [started out].
  rewrite !forallb_app. cbn [forallb]. unfold summary.
  rewrite !forallb_app.
  assert (Hl : forallb (fun e => match e with PrintScaled _ _ _ _ _ _ => false | _ => true end) e1 = true).
  { rewrite forallb_forall in *. intros e He. specialize (Hl1 e He).
    now destruct e. }
  rewrite Hl. now destruct (silent options).
Qed.

(* ------------------------------------------------------------------ *)
(** ** The best servers *)

Lemma rated_gainRate (s : Server) : rated s -> gainRate s <> None.
Proof. intros (_ & H & _). exact H. Qed.

Lemma rated_expRate (s : Server) : rated s -> expRate s <> None.
Proof. intros (_ & _ & H). exact H. Qed.

(** X8.  The server a run announces on the terminal as the best server
    has a gain rate that is at least the gain rate of every record written
    to the file, and greater than that of every record before its own: of
    the servers with the best gain rate, the first in the order of
    evaluation is announced.  (Numbers are reals.) *)
Theorem best_server_has_the_best_gain_rate (ns : NS) (options : Options) :
  inRange options ->
  silent options = false ->
  unlockedOrder ns options <> [] ->
  exists st best before after,
    main ns options (initial ns options) = (Ok tt, st)
    /\ In (TPrintBest (hostname (heap st best)) (gainRate (heap st best))) (out st)
    /\ In (FileWrite "/Temp/analyze-hack.txt"
             (map (rankedRecord (heap st)) (before ++ best :: after)) "w") (out st)
    /\ (forall r, In r before -> better (gainRate (heap st best)) (gainRate (heap st r)))
    /\ (forall r, In r after -> atLeast (gainRate (heap st best)) (gainRate (heap st r))).
Proof.
  intros Hrange Hsilent Hne.
  destruct (main_returns ns options Hrange Hne)
    as (best & rest & g & gs & x & xs & Eb & Eg & Ex & Hm).
  assert (Hbest : In best (unlockedOrder ns options))
    by (eapply sortBy_head_In; exact Eb).
  destruct (sortBy_first_best (fun r => gainRate (heap (lockedRated ns options best) r))
              (evaluationOrder ns options) g gs) as (before & after & El & Hb & Ha).
  { intros r Hr. apply rated_gainRate. now apply lockedRated_rated. }
  { exact Eg. }
  eexists _, g, before, after. split; [exact Hm|]. cbn [out heap].
  split; [|split; [|split]].
  - apply in_or_app. right. unfold summary. rewrite Hsilent. now left.
  - rewrite <- El. apply summary_file.
  - exact Hb.
  - exact Ha.
Qed.

(** X9.  The server a run announces on the terminal as the best exp
    server has an experience rate that is at least the experience rate of
    every record written to the file, and greater than that of every record
    before its own.  (Numbers are reals.) *)
Theorem best_exp_server_has_the_best_exp_rate (ns : NS) (options : Options) :
  inRange options ->
  silent options = false ->
  unlockedOrder ns options <> [] ->
  exists st best before after,
    main ns options (initial ns options) = (Ok tt, st)
    /\ In (TPrintBestExp (hostname (heap st best)) (expRate (heap st best))) (out st)
    /\ In (FileWrite "/Temp/analyze-hack.txt"
             (map (rankedRecord (heap st)) (before ++ best :: after)) "w") (out st)
    /\ (forall r, In r before -> better (expRate (heap st best)) (expRate (heap st r)))
    /\ (forall r, In r after -> atLeast (expRate (heap st best)) (expRate (heap st r))).
Proof.
  intros Hrange Hsilent Hne.
  destruct (main_returns ns options Hrange Hne)
    as (best & rest & g & gs & x & xs & Eb & Eg & Ex & Hm).
  assert (Hbest : In best (unlockedOrder ns options))
    by (eapply sortBy_head_In; exact Eb).
  destruct (sortBy_first_best (fun r => expRate (heap (lockedRated ns options best) r))
              (evaluationOrder ns options) x xs) as (before & after & El & Hb & Ha).
  { intros r Hr. apply rated_expRate. now apply lockedRated_rated. }
  { exact Ex. }
  eexists _, x, before, after. split; [exact Hm|]. cbn [out heap].
  split; [|split; [|split]].
  - apply in_or_app. right. unfold summary. rewrite Hsilent.
    cbn [app]. right. right. now left.
  - rewrite <- El. apply summary_file.
  - exact Hb.
  - exact Ha.
Qed.

Lemma unlocked_not_locked (ns : NS) (options : Options) (r : ref) :
  In r (unlockedOrder ns options) -> ~ In r (lockedOrder ns options).
Proof.
  intros Hu Hl. unfold unlockedOrder in Hu. apply filter_In in Hu.
  destruct Hu as (_ & Hu). apply Z.leb_le in Hu.
  unfold lockedOrder in Hl. apply (Permutation_in r (sortBy_Permutation _ _)) in Hl.
  apply filter_In in Hl. destruct Hl as (_ & Hl). apply Z.ltb_lt in Hl. lia.
Qed.

(** The rates of a server within the hack level are final once it has
    been rated. *)
Lemma unlocked_rates_final (ns : NS) (options : Options) (best r : ref) :
  In r (unlockedOrder ns options) ->
  gainRate (heap (lockedRated ns options best) r)
  = gainRate (heap (unlockedRated ns options) r).
Proof.
  intros Hr.
  destruct (mapM_lockedCallback_keeps ns options (ramTotalOf ns options)
              (estimating options) best (lockedOrder ns options)
              (announced (unlockedRated ns options) best) r
              (unlocked_not_locked ns options r Hr)) as (_ & H & _).
  exact H.
Qed.

(** X10.  The server printed as best unlocked server, against which the
    servers above the hack level are scaled, has the best gain rate of the
    servers within the hack level, and is the first of them with that rate.
    The rate printed is the one still recorded on it when the run ends:
    rating the servers above the hack level does not change it. *)
Theorem reference_server_is_the_best_unlocked (ns : NS) (options : Options) :
  inRange options ->
  unlockedOrder ns options <> [] ->
  exists st best before after,
    main ns options (initial ns options) = (Ok tt, st)
    /\ unlockedOrder ns options = before ++ best :: after
    /\ In (PrintBestUnlocked (hostname (heap st best)) (gainRate (heap st best))) (out st)
    /\ (forall r, In r before -> better (gainRate (heap st best)) (gainRate (heap st r)))
    /\ (forall r, In r after -> atLeast (gainRate (heap st best)) (gainRate (heap st r))).
Proof.
  intros Hrange Hne.
  destruct (main_returns ns options Hrange Hne)
    as (best & rest & g & gs & x & xs & Eb & Eg & Ex & Hm).
  assert (Hbest : In best (unlockedOrder ns options))
    by (eapply sortBy_head_In; exact Eb).
  destruct (sortBy_first_best (fun r => gainRate (heap (unlockedRated ns options) r))
              (unlockedOrder ns options) best rest) as (before & after & El & Hb & Ha).
  { intros r Hr. apply rated_gainRate. now apply unlockedRated_rated. }
  { exact Eb. }
  assert (Hin : forall r, In r (before ++ best :: after) -> In r (unlockedOrder ns options))
    by (intros r Hr; now rewrite El).
  eexists _, best, before, after. split; [exact Hm|]. cbn [out heap].
  split; [exact El|].
  rewrite (unlocked_rates_final ns options best best Hbest).
  split; [|split].
  - destruct (lockedRated_evaluating ns options best) as (_ & Hs & e2 & He2 & _).
    destruct (Hs best) as (Hh & _). cbn [announced heap] in Hh. rewrite Hh.
    rewrite He2. cbn [announced out].
    apply in_or_app. left. apply in_or_app. left. apply in_or_app. right. now left.
  - intros r Hr. rewrite (unlocked_rates_final ns options best r).
    + now apply Hb.
    + apply Hin. apply in_or_app. now left.
  - intros r Hr. rewrite (unlocked_rates_final ns options best r).
    + now apply Ha.
    + apply Hin. apply in_or_app. right. now right.
Qed.

(* ------------------------------------------------------------------ *)
(** ** What a run keeps *)

(** X11.  However a run ends, no server object differs from what
    [ns.getServer] returned in [hostname], [hasAdminRights],
    [purchasedByPlayer], [maxRam], [moneyMax], [minDifficulty] or
    [requiredHackingSkill]: the script assigns [hackDifficulty],
    [moneyAvailable] and the four fields it attaches, and nothing else. *)
Theorem main_keeps_the_scanned_fields (ns : NS) (options : Options) (r : ref) :
  sameServer (getServer ns (nth r (scanAllServers ns) ""%string))
    (heap (snd (main ns options (initial ns options))) r).
Proof.
  destruct (inRange_dec options) as [Hrange | (Hne & Hout)].
  - pose proof (main_stages ns options Hrange) as H.
    destruct (sortBy (byGainRate (heap (unlockedRated ns options)))
                (unlockedOrder ns options)) as [|best rest].
    + rewrite H. cbn [snd].
      destruct (unlockedRated_evaluating ns options) as (_ & S1 & _). apply (S1 r).
    + cbv zeta in H. destruct H as (g & gs & x & xs & _ & _ & Hm).
      rewrite Hm. cbn [snd heap]. apply lockedRated_servers.
  - rewrite (main_refuses ns options Hne Hout). cbn [snd heap]. apply sameServer_refl.
Qed.

(* ------------------------------------------------------------------ *)
(** ** Silent runs *)

Lemma filter_keeps {A : Type} (f : A -> bool) (l : list A) :
  (forall x, In x l -> f x = true) -> filter f l = l.
Proof. intros H. apply forallb_filter_id. now apply forallb_forall. Qed.

Lemma logged_not_toTerminal (events : list Event) :
  forallb logged events = true ->
  filter (fun e => negb (toTerminal e)) events = events.
Proof.
  intros H. apply filter_keeps. intros e He.
  rewrite forallb_forall in H. specialize (H e He). now destruct e.
Qed.

(** X12.  For a hack percent that passes the check, a run with [--silent]
    ends as the run without it and prints and writes the same, less the
    messages to the terminal: the rates, the lists and the file do not
    depend on [--silent]. *)
Theorem silent_drops_the_terminal_output (ns : NS) (options : Options) :
  inRange options ->
  run ns (Some (silenced options))
  = (fst (run ns (Some options)),
     filter (fun e => negb (toTerminal e)) (snd (run ns (Some options)))).
Proof.
  intros Hrange.
  assert (Hrange' : inRange (silenced options)) by exact Hrange.
  destruct (unlockedOrder ns options) as [|u us] eqn:Eu.
  - unfold run. rewrite (main_throws ns options Hrange Eu).
    rewrite (main_throws ns (silenced options) Hrange' Eu).
    reflexivity.
  - assert (Hne : unlockedOrder ns options <> []) by (rewrite Eu; discriminate).
    destruct (main_returns ns options Hrange Hne)
      as (best & rest & g & gs & x & xs & Eb & Eg & Ex & Hm).
    destruct (main_returns ns (silenced options) Hrange' Hne)
      as (best' & rest' & g' & gs' & x' & xs' & Eb' & Eg' & Ex' & Hm').
    change (unlockedRated ns (silenced options)) with (unlockedRated ns options) in *.
    change (unlockedOrder ns (silenced options)) with (unlockedOrder ns options) in *.
    rewrite Eb in Eb'. injection Eb' as <- <-.
    change (lockedRated ns (silenced options) best)
      with (lockedRated ns options best) in *.
    change (evaluationOrder ns (silenced options)) with (evaluationOrder ns options) in *.
    rewrite Eg in Eg'. injection Eg' as <- <-.
    rewrite Ex in Ex'. injection Ex' as <- <-.
    change (runHacking ns (silenced options)) with (runHacking ns options) in *.
    unfold run. rewrite Hm, Hm'. cbn [fst snd out]. f_equal.
    rewrite filter_app.
    destruct (unlockedRated_evaluating ns options) as (_ & _ & e1 & He1 & L1).
    destruct (lockedRated_evaluating ns options best) as (_ & _ & e2 & He2 & L2).
    cbn [announced out] in He2. rewrite He1 in He2. cbn [started out] in He2.
    rewrite He2. rewrite !filter_app.
    rewrite (logged_not_toTerminal e1 L1), (logged_not_toTerminal e2 L2).
    cbn [filter toTerminal negb]. f_equal.
    unfold summary. cbn [silent silenced].
    destruct (silent options); cbn [filter toTerminal negb app]; reflexivity.
Qed.

(* ------------------------------------------------------------------ *)
(** ** What one evaluation prints *)

Lemma Rleb_true_inv (x y : R) : Rleb x y = true -> x <= y.
Proof. unfold Rleb. now destruct (Rle_dec x y). Qed.

(** A [try] block that throws has printed nothing but, at most, the
    warning about the hack gain, and has left [hackPercent] as it was unless
    the estimate is in use. *)
Lemma tryBlock_thrown
    (ns : NS) (ramTotal : R) (useEstHackPercent : bool)
    (server : ref) (hackLevel : Z) (st : State) :
  fst (tryBlock ns ramTotal useEstHackPercent server hackLevel st) = Thrown ->
  let st' := snd (tryBlock ns ramTotal useEstHackPercent server hackLevel st) in
  (out st' = out st
   \/ exists hg, hg <= minHackGain
                 /\ out st' = out st ++ [PrintWarnHackGain hg minHackGain
                                           (hostname (heap st server))])
  /\ (useEstHackPercent = false -> hackPercent st' = hackPercent st).
Proof.
  unfold tryBlock.
  destruct (assumeBestCase_run server hackLevel st) as (_ & Hp & Hs & _ & Hhp & Ho).
  cbv zeta in Hp, Hs, Hhp, Ho.
  destruct (snd (assumeBestCase server hackLevel st)) as [p0 h0 hp0 o0].
  cbn [player heap hackPercent out] in Hp, Hs, Hhp, Ho. subst p0 hp0 o0.
  assert (Hhost : hostname (h0 server) = hostname (heap st server))
    by (rewrite Hs; reflexivity).
  unfold formulasRates, bind, getField, gets, setServer, setHackPercent, emit, modify,
    ret, when, callFormulas.
  assert (Hend : forall hp, (false = false -> hp = hackPercent st) -> hp = hackPercent st)
    by auto.
  destruct (formulas ns) as [h|]; [|intros _; cbn; auto].
  norm.
  destruct (hacking.weakenTime h _ _) as [wt|]; [|intros _; cbn; auto]. norm.
  destruct (hacking.growTime h _ _) as [gt|]; [|intros _; cbn; auto]. norm.
  destruct (hacking.hackTime h _ _) as [ht|]; [|intros _; cbn; auto]. norm.
  destruct (hacking.growPercent h _ _ _ _) as [gp|]; [|intros _; cbn; auto]. norm.
  destruct (hacking.hackPercent h _ _) as [hg|]; [|intros _; cbn; auto]. norm.
  rewrite Hhost.
  destruct (Rleb hg minHackGain) eqn:Ew; destruct useEstHackPercent; norm.
  all: destruct (hacking.hackChance h _ _) as [ch|] eqn:E6;
    [|intros _; cbn; split;
      [ first [now left | right; exists hg; split;
                 [now apply Rleb_true_inv | reflexivity]]
      | intros E; first [discriminate E | reflexivity] ]]; norm.
  all: destruct (hacking.hackExp h _ _) as [he|];
    [|intros _; cbn; split;
      [ first [now left | right; exists hg; split;
                 [now apply Rleb_true_inv | reflexivity]]
      | intros E; first [discriminate E | reflexivity] ]]; norm.
  all: rewrite E6; norm; intros H; discriminate H.
Qed.

(** What one evaluation prints: at most the warning, then its rates. *)
Lemma getRatesAtHackLevel_prints
    (ns : NS) (options : Options) (ramTotal : R) (useEstHackPercent : bool)
    (server : ref) (hackLevel : Z) (st : State) :
  let st' :=
    snd (getRatesAtHackLevel ns options ramTotal useEstHackPercent server hackLevel st) in
  let host := hostname (heap st server) in
  exists warning message,
    out st' = out st ++ warning ++ [message]
    /\ (warning = []
        \/ exists hg, hg <= minHackGain
                      /\ warning = [PrintWarnHackGain hg minHackGain host])
    /\ (if usesFallback ns options ramTotal useEstHackPercent server hackLevel st
        then message = fallbackEvent ns (heap st server)
        else exists hp theoretical limit exp chance,
               message = PrintFormulasRates hackLevel hp theoretical limit exp chance host
               /\ (useEstHackPercent = false -> hp = hackPercent st)
               /\ (useEstHackPercent = true -> minHackGain <= hp <= 0.98))
    /\ (useEstHackPercent = false -> hackPercent st' = hackPercent st).
Proof.
  intros st' host. subst st' host.
  destruct (usesFallback ns options ramTotal useEstHackPercent server hackLevel st) eqn:F.
  - destruct (disable_formulas_api options) eqn:Hd.
    + exists [], (fallbackEvent ns (heap st server)).
      replace (getRatesAtHackLevel ns options ramTotal useEstHackPercent server hackLevel st)
        with (fallbackRates ns server st)
        by (unfold getRatesAtHackLevel; now rewrite Hd).
      rewrite fallbackRates_run. cbn [snd out hackPercent app].
      repeat split. now left.
    + unfold usesFallback in F. rewrite Hd in F. cbn [orb] in F.
      destruct (fst (tryBlock ns ramTotal useEstHackPercent server hackLevel st))
        as [r|] eqn:Et; [discriminate F|].
      destruct (tryBlock_thrown ns ramTotal useEstHackPercent server hackLevel st Et)
        as (Hout & Hhp).
      destruct (tryBlock_state ns ramTotal useEstHackPercent server hackLevel st)
        as (_ & _ & Hs & _).
      destruct (assumeBestCase_run server hackLevel st) as (Hok & _).
      unfold tryBlock in *.
      destruct (assumeBestCase server hackLevel st) as [o st0] eqn:E0.
      cbn [fst snd] in *. subst o.
      destruct (formulasRates ns ramTotal useEstHackPercent server hackLevel st0)
        as [[r|] st1] eqn:E1; cbn [fst snd] in *; [discriminate Et|].
      assert (Hrun :
        getRatesAtHackLevel ns options ramTotal useEstHackPercent server hackLevel st
        = fallbackRates ns server
            (mkState (mkPlayer (skills_hacking (player st))) (heap st1)
               (hackPercent st1) (out st1))).
      { unfold getRatesAtHackLevel. rewrite Hd. cbn [negb].
        unfold bind, tryCatchFinally, gets, ret, setPlayerHacking, modify.
        rewrite E0. rewrite E1. reflexivity. }
      rewrite Hrun, fallbackRates_run. cbn [fst snd player heap out hackPercent].
      assert (Hev : fallbackEvent ns (heap st1 server) = fallbackEvent ns (heap st server)).
      { rewrite Hs. now destruct (heap st server). }
      rewrite Hev.
      destruct Hout as [Ho | (hg & Hle & Ho)]; rewrite Ho.
      * exists [], (fallbackEvent ns (heap st server)). repeat split; auto.
      * eexists [_], (fallbackEvent ns (heap st server)).
        rewrite <- app_assoc. repeat split; auto.
        right. exists hg. split; [exact Hle | reflexivity].
  - assert (Hd : disable_formulas_api options = false).
    { unfold usesFallback in F. now destruct (disable_formulas_api options). }
    destruct (getRatesAtHackLevel_completed _ _ _ _ _ _ _ F) as (r & Hr & _).
    destruct (tryBlock_completes_inv _ _ _ _ _ _ _ Hr)
      as (h & wt & gt & ht & gp & hg & ch & he & Hh & H1 & H2 & H3 & H4 & H5 & H6 & H7).
    destruct (getRatesAtHackLevel_formulas ns options ramTotal useEstHackPercent server
                hackLevel st h wt gt ht gp hg ch he Hd Hh H1 H2 H3 H4 H5 H6 H7)
      as (_ & _ & _ & _ & Hhp & Ho).
    cbv zeta in Hhp, Ho. rewrite Ho, Hhp.
    eexists _, _. split; [reflexivity|]. split; [|split].
    + destruct (Rleb hg minHackGain) eqn:Ew; [right | now left].
      exists hg. split; [now apply Rleb_true_inv | reflexivity].
    + eexists _, _, _, _, _. split; [reflexivity|]. split; [now intros ->|].
      intros ->. apply estimateHackPercent_bounds.
    + now intros ->.
Qed.

(* ------------------------------------------------------------------ *)
(** ** Counting the evaluations *)

Lemma evaluations_app (a b : list Event) :
  evaluations (a ++ b) = (evaluations a + evaluations b)%nat.
Proof. unfold evaluations. now rewrite filter_app, length_app. Qed.

Lemma getRatesAtHackLevel_counts
    (ns : NS) (options : Options) (ramTotal : R) (useEstHackPercent : bool)
    (server : ref) (hackLevel : Z) (st : State) :
  evaluations
    (out (snd (getRatesAtHackLevel ns options ramTotal useEstHackPercent server
                 hackLevel st)))
  = S (evaluations (out st)).
Proof.
  destruct (getRatesAtHackLevel_prints ns options ramTotal useEstHackPercent server
              hackLevel st) as (w & m & Ho & Hw & Hm & _).
  rewrite Ho. rewrite !evaluations_app.
  assert (Ew : evaluations w = 0%nat).
  { destruct Hw as [-> | (hg & _ & ->)]; reflexivity. }
  assert (Em : evaluations [m] = 1%nat).
  { destruct (usesFallback ns options ramTotal useEstHackPercent server hackLevel st).
    - subst m. reflexivity.
    - destruct Hm as (hp & t & l & x & ch & -> & _). reflexivity. }
  rewrite Ew, Em. lia.
Qed.

Lemma unlockedCallback_counts
    (ns : NS) (options : Options) (ramTotal : R) (useEstHackPercent : bool)
    (server : ref) (st : State) :
  evaluations (out (snd (unlockedCallback ns options ramTotal useEstHackPercent server st)))
  = S (evaluations (out st)).
Proof.
  pose proof (getRatesAtHackLevel_counts ns options ramTotal useEstHackPercent server
                (skills_hacking (player st)) st) as H.
  unfold unlockedCallback, bind, gets, setServer, modify, ret.
  destruct (getRatesAtHackLevel ns options ramTotal useEstHackPercent server
              (skills_hacking (player st)) st) as [[[[t c] x]|] st1]; exact H.
Qed.

Lemma lockedCallback_counts
    (ns : NS) (options : Options) (ramTotal : R) (useEstHackPercent : bool)
    (bestUnlockedServer server : ref) (st : State) :
  evaluations
    (out (snd (lockedCallback ns options ramTotal useEstHackPercent bestUnlockedServer
                 server st)))
  = S (S (evaluations (out st))).
Proof.
  unfold lockedCallback, bind, getField, gets, setServer, emit, modify, ret.
  pose proof (getRatesAtHackLevel_counts ns options ramTotal useEstHackPercent
                bestUnlockedServer (requiredHackingSkill (heap st server)) st) as H1.
  destruct (getRatesAtHackLevel_total ns options ramTotal useEstHackPercent
              bestUnlockedServer (requiredHackingSkill (heap st server)) st)
    as ([[g c] e] & st1 & E1).
  rewrite E1 in *. cbn [snd] in H1.
  pose proof (getRatesAtHackLevel_counts ns options ramTotal useEstHackPercent
                server (requiredHackingSkill (heap st1 server)) st1) as H2.
  destruct (getRatesAtHackLevel_total ns options ramTotal useEstHackPercent
              server (requiredHackingSkill (heap st1 server)) st1)
    as ([[g' c'] e'] & st2 & E2).
  rewrite E2 in *. cbn [snd] in H2. cbn [snd out].
  rewrite evaluations_app, H2, H1. cbn. lia.
Qed.

Lemma mapM_unlockedCallback_counts
    (ns : NS) (options : Options) (ramTotal : R) (useEstHackPercent : bool)
    (l : list ref) (st : State) :
  evaluations (out (snd (mapM (unlockedCallback ns options ramTotal useEstHackPercent) l st)))
  = (length l + evaluations (out st))%nat.
Proof.
  revert st. induction l as [|x l IH]; intros st; [reflexivity|].
  destruct (unlockedCallback_run ns options ramTotal useEstHackPercent x st)
    as (st1 & Ex & _).
  destruct (mapM_unlockedCallback_run ns options ramTotal useEstHackPercent l st1)
    as (st2 & El & _).
  pose proof (unlockedCallback_counts ns options ramTotal useEstHackPercent x st) as Hx.
  specialize (IH st1). rewrite Ex in Hx. rewrite El in IH. cbn [snd] in Hx, IH.
  cbn [mapM]. unfold bind, ret. rewrite Ex, El. cbn [snd length]. lia.
Qed.

Lemma mapM_lockedCallback_counts
    (ns : NS) (options : Options) (ramTotal : R) (useEstHackPercent : bool)
    (bestUnlockedServer : ref) (l : list ref) (st : State) :
  evaluations
    (out (snd (mapM (lockedCallback ns options ramTotal useEstHackPercent
                       bestUnlockedServer) l st)))
  = (2 * length l + evaluations (out st))%nat.
Proof.
  revert st. induction l as [|x l IH]; intros st; [reflexivity|].
  destruct (lockedCallback_run ns options ramTotal useEstHackPercent
              bestUnlockedServer x st) as (st1 & Ex).
  destruct (mapM_lockedCallback_run ns options ramTotal useEstHackPercent
              bestUnlockedServer l st1) as (st2 & El).
  pose proof (lockedCallback_counts ns options ramTotal useEstHackPercent
                bestUnlockedServer x st) as Hx.
  specialize (IH st1). rewrite Ex in Hx. rewrite El in IH. cbn [snd] in Hx, IH.
  cbn [mapM]. unfold bind, ret. rewrite Ex, El. cbn [snd length]. lia.
Qed.

(** X13.  A run that returns makes one evaluation for each reported server
    within the hack level and two for each reported server above it, one of
    the reference server and one of the server itself: its output holds
    that many messages with rates. *)
Theorem evaluations_of_a_run (ns : NS) (options : Options) :
  inRange options ->
  unlockedOrder ns options <> [] ->
  fst (run ns (Some options)) = Ok tt
  /\ evaluations (snd (run ns (Some options)))
     = (length (unlockedOrder ns options) + 2 * length (lockedOrder ns options))%nat.
Proof.
  intros Hrange Hne.
  destruct (main_returns ns options Hrange Hne)
    as (best & rest & g & gs & x & xs & Eb & Eg & Ex & Hm).
  unfold run. rewrite Hm. cbn [fst snd out]. split; [reflexivity|].
  rewrite evaluations_app.
  unfold lockedRated. rewrite mapM_lockedCallback_counts.
  cbn [announced out]. rewrite evaluations_app.
  unfold unlockedRated. rewrite mapM_unlockedCallback_counts.
  cbn [started out].
  assert (Es : evaluations
                 (summary options
                    (heap (snd (mapM (lockedCallback ns options (ramTotalOf ns options)
                                        (estimating options) best)
                                  (lockedOrder ns options)
                                  (announced
                                     (snd (mapM (unlockedCallback ns options
                                                   (ramTotalOf ns options)
                                                   (estimating options))
                                             (unlockedOrder ns options)
                                             (started ns options))) best))))
                    (runHacking ns options) (evaluationOrder ns options) g x) = 0%nat).
  { unfold summary. now destruct (silent options). }
  rewrite Es. cbn. lia.
Qed.

(* ------------------------------------------------------------------ *)
(** ** An explicit hack percent *)

Lemma keepsPercent_refl (p : R) (st : State) : keepsPercent p st st.
Proof. intros H. split; [exact H|]. exists []. now rewrite app_nil_r. Qed.

Lemma keepsPercent_trans (p : R) (a b c : State) :
  keepsPercent p a b -> keepsPercent p b c -> keepsPercent p a c.
Proof.
  intros Hab Hbc Ha. destruct (Hab Ha) as (Hb & e1 & H1 & F1).
  destruct (Hbc Hb) as (Hc & e2 & H2 & F2). split; [exact Hc|].
  exists (e1 ++ e2). split.
  - rewrite H2, H1. now rewrite app_assoc.
  - apply Forall_app. now split.
Qed.

Lemma keepsPercent_setServer (p : R) (server : ref) (f : Server -> Server) :
  preserves (keepsPercent p) (setServer server f).
Proof. intros st H. split; [exact H|]. exists []. cbn. now rewrite app_nil_r. Qed.

Lemma keepsPercent_emit (p : R) (e : Event) :
  forPercent p e -> preserves (keepsPercent p) (emit e).
Proof. intros He st H. split; [exact H|]. exists [e]. cbn. split; [reflexivity|]. now constructor. Qed.

Lemma getRatesAtHackLevel_keepsPercent
    (ns : NS) (options : Options) (ramTotal : R) (server : ref) (hackLevel : Z) (p : R) :
  preserves (keepsPercent p)
    (getRatesAtHackLevel ns options ramTotal false server hackLevel).
Proof.
  intros st Hp.
  destruct (getRatesAtHackLevel_prints ns options ramTotal false server hackLevel st)
    as (w & m & Ho & Hw & Hm & Hhp).
  split; [now rewrite Hhp|].
  exists (w ++ [m]). split; [exact Ho|].
  apply Forall_app. split.
  - destruct Hw as [-> | (hg & _ & ->)]; repeat constructor.
  - constructor; [|constructor].
    destruct (usesFallback ns options ramTotal false server hackLevel st).
    + subst m. exact I.
    + destruct Hm as (hp & t & l & x & ch & -> & Hhp' & _). cbn.
      rewrite Hhp' by reflexivity. exact Hp.
Qed.

Ltac keepsPercent_steps p :=
  repeat first
    [ apply (along_bind (keepsPercent p) (keepsPercent_trans p)); [ | intros ? ]
    | apply getRatesAtHackLevel_keepsPercent
    | apply (along_gets (keepsPercent p) (keepsPercent_refl p))
    | apply (along_ret (keepsPercent p) (keepsPercent_refl p))
    | apply keepsPercent_emit; exact I
    | apply keepsPercent_setServer ].

Lemma unlockedCallback_keepsPercent
    (ns : NS) (options : Options) (ramTotal : R) (server : ref) (p : R) :
  preserves (keepsPercent p) (unlockedCallback ns options ramTotal false server).
Proof.
  unfold unlockedCallback.
  apply (along_bind (keepsPercent p) (keepsPercent_trans p));
    [apply (along_gets _ (keepsPercent_refl p)) | intros hacking].
  apply (along_bind (keepsPercent p) (keepsPercent_trans p));
    [apply getRatesAtHackLevel_keepsPercent | intros [[t c] x]].
  keepsPercent_steps p.
Qed.

Lemma lockedCallback_keepsPercent
    (ns : NS) (options : Options) (ramTotal : R) (bestUnlockedServer server : ref) (p : R) :
  preserves (keepsPercent p)
    (lockedCallback ns options ramTotal false bestUnlockedServer server).
Proof.
  unfold lockedCallback, getField.
  apply (along_bind (keepsPercent p) (keepsPercent_trans p));
    [apply (along_gets _ (keepsPercent_refl p)) | intros required].
  apply (along_bind (keepsPercent p) (keepsPercent_trans p));
    [apply getRatesAtHackLevel_keepsPercent | intros [[g c] e]].
  apply (along_bind (keepsPercent p) (keepsPercent_trans p));
    [apply (along_gets _ (keepsPercent_refl p)) | intros bestTheoretical].
  apply (along_bind (keepsPercent p) (keepsPercent_trans p));
    [apply (along_gets _ (keepsPercent_refl p)) | intros bestExp].
  apply (along_bind (keepsPercent p) (keepsPercent_trans p));
    [apply (along_gets _ (keepsPercent_refl p)) | intros required'].
  apply (along_bind (keepsPercent p) (keepsPercent_trans p));
    [apply getRatesAtHackLevel_keepsPercent | intros [[t c'] x]].
  keepsPercent_steps p.
Qed.

Lemma estimating_explicit (options : Options) :
  hack_percent options <> -1 -> estimating options = false.
Proof.
  intros H. unfold estimating.
  destruct (Req_dec_T (hack_percent options) (-1)); [contradiction | reflexivity].
Qed.

(** X14.  With a hack percent given on the command line, every message
    about rates from the formulas API that a run prints is for that percent
    (over 100), not for the estimate the evaluation records on the server:
    no evaluation changes [hackPercent]. *)
Theorem explicit_hack_percent_is_used (ns : NS) (options : Options) :
  hack_percent options <> -1 ->
  Forall (forPercent (hack_percent options / 100)) (snd (run ns (Some options))).
Proof.
  intros Hexplicit.
  set (p := hack_percent options / 100).
  assert (H1 : keepsPercent p (started ns options) (unlockedRated ns options)).
  { unfold unlockedRated. rewrite (estimating_explicit options Hexplicit).
    apply (along_mapM _ (keepsPercent_refl p) (keepsPercent_trans p)).
    intros x. apply unlockedCallback_keepsPercent. }
  destruct (H1 eq_refl) as (Hp1 & e1 & He1 & F1).
  destruct (inRange_dec options) as [Hrange | (Hne & Hout)].
  - pose proof (main_stages ns options Hrange) as H.
    destruct (sortBy (byGainRate (heap (unlockedRated ns options)))
                (unlockedOrder ns options)) as [|best rest].
    + unfold run. rewrite H. cbn [snd]. rewrite He1. cbn [started out].
      apply Forall_app. split; [repeat constructor | exact F1].
    + cbv zeta in H. destruct H as (g & gs & x & xs & _ & _ & Hm).
      assert (H2 : keepsPercent p (announced (unlockedRated ns options) best)
                     (lockedRated ns options best)).
      { unfold lockedRated. rewrite (estimating_explicit options Hexplicit).
        apply (along_mapM _ (keepsPercent_refl p) (keepsPercent_trans p)).
        intros y. apply lockedCallback_keepsPercent. }
      destruct (H2 Hp1) as (_ & e2 & He2 & F2).
      unfold run. rewrite Hm. cbn [snd out]. rewrite He2. cbn [announced out].
      rewrite He1. cbn [started out].
      apply Forall_app. split; [apply Forall_app; split; [apply Forall_app; split|]|].
      * apply Forall_app. split; [repeat constructor | exact F1].
      * repeat constructor.
      * exact F2.
      * unfold summary. destruct (silent options); repeat constructor.
  - unfold run. rewrite (main_refuses ns options Hne Hout). cbn [snd out].
    repeat constructor.
Qed.

(* ------------------------------------------------------------------ *)
(** ** One evaluation *)

(** An evaluation changes the server object it is about and no other. *)
Lemma getRatesAtHackLevel_others
    (ns : NS) (options : Options) (ramTotal : R) (useEstHackPercent : bool)
    (server : ref) (hackLevel : Z) (st : State) (r : ref) :
  r <> server ->
  heap (snd (getRatesAtHackLevel ns options ramTotal useEstHackPercent server
               hackLevel st)) r
  = heap st r.
Proof.
  intros Hne.
  destruct (usesFallback ns options ramTotal useEstHackPercent server hackLevel st) eqn:E.
  - destruct (getRatesAtHackLevel_fallback _ _ _ _ _ _ _ E) as (_ & _ & Ho & _).
    now apply Ho.
  - destruct (getRatesAtHackLevel_completed _ _ _ _ _ _ _ E)
      as (rates & _ & _ & _ & Hh & _).
    rewrite Hh.
    destruct (tryBlock_state ns ramTotal useEstHackPercent server hackLevel st)
      as (_ & Ho & _).
    now apply Ho.
Qed.

(** X15.  An evaluation changes no server object but the one it is
    about, and on that one neither the rates recorded earlier nor any field
    the script only reads.  With the formulas API disabled, all it changes
    on the server is [estHackPercent], which becomes 1. *)
Theorem evaluation_changes_its_target_only
    (ns : NS) (options : Options) (ramTotal : R) (useEstHackPercent : bool)
    (server : ref) (hackLevel : Z) (st : State) :
  let st' :=
    snd (getRatesAtHackLevel ns options ramTotal useEstHackPercent server hackLevel st) in
  (forall r, r <> server -> heap st' r = heap st r)
  /\ theoreticalGainRate (heap st' server) = theoreticalGainRate (heap st server)
  /\ gainRate (heap st' server) = gainRate (heap st server)
  /\ expRate (heap st' server) = expRate (heap st server)
  /\ sameServer (heap st server) (heap st' server)
  /\ (disable_formulas_api options = true ->
      heap st' server = set_estHackPercent (Some 1) (heap st server)).
Proof.
  intros st'. subst st'. split; [intros r Hr; now apply getRatesAtHackLevel_others|].
  destruct (getRatesAtHackLevel_frame ns options ramTotal useEstHackPercent server
              hackLevel st server) as (e & m & d & Hs).
  rewrite Hs. repeat split.
  intros Hd. rewrite <- Hs.
  assert (F : usesFallback ns options ramTotal useEstHackPercent server hackLevel st = true)
    by (unfold usesFallback; now rewrite Hd).
  destruct (getRatesAtHackLevel_fallback _ _ _ _ _ _ _ F) as (_ & _ & _ & Hh & _).
  now rewrite Hh, Hd.
Qed.

(** Every evaluation records an estimate on its server. *)
Lemma getRatesAtHackLevel_estimates
    (ns : NS) (options : Options) (ramTotal : R) (useEstHackPercent : bool)
    (server : ref) (hackLevel : Z) (st : State) :
  exists f,
    estHackPercent
      (heap (snd (getRatesAtHackLevel ns options ramTotal useEstHackPercent server
                    hackLevel st)) server) = Some f.
Proof.
  destruct (usesFallback ns options ramTotal useEstHackPercent server hackLevel st) eqn:E.
  - destruct (getRatesAtHackLevel_fallback _ _ _ _ _ _ _ E) as (_ & _ & _ & Hs & _).
    rewrite Hs. now exists 1.
  - destruct (completed_estimate _ _ _ _ _ _ _ E)
      as (h & wt & gt & ht & gp & hg & _ & _ & _ & _ & _ & _ & Hs).
    rewrite Hs. eexists. reflexivity.
Qed.

(** X16.  Rating a server above the hack level evaluates the reference
    server again, at the required skill of that server, and leaves the
    reference server as that evaluation left it: with the estimate for the
    higher skill, and with the rates recorded for it before. *)
Theorem scaling_reevaluates_the_reference_server
    (ns : NS) (options : Options) (ramTotal : R) (useEstHackPercent : bool)
    (bestUnlockedServer server : ref) (st : State) :
  bestUnlockedServer <> server ->
  let reference :=
    getRatesAtHackLevel ns options ramTotal useEstHackPercent bestUnlockedServer
      (requiredHackingSkill (heap st server)) st in
  let after :=
    heap (snd (lockedCallback ns options ramTotal useEstHackPercent
                 bestUnlockedServer server st)) bestUnlockedServer in
  after = heap (snd reference) bestUnlockedServer
  /\ estHackPercent after <> None
  /\ theoreticalGainRate after = theoreticalGainRate (heap st bestUnlockedServer)
  /\ gainRate after = gainRate (heap st bestUnlockedServer)
  /\ expRate after = expRate (heap st bestUnlockedServer).
Proof.
  intros Hne reference after.
  assert (Hafter : after = heap (snd reference) bestUnlockedServer).
  { subst after reference.
    unfold lockedCallback, bind, getField, gets, setServer, emit, modify, ret.
    destruct (getRatesAtHackLevel_total ns options ramTotal useEstHackPercent
                bestUnlockedServer (requiredHackingSkill (heap st server)) st)
      as ([[g c] e] & st1 & E1).
    rewrite E1. cbn [snd].
    pose proof (getRatesAtHackLevel_others ns options ramTotal useEstHackPercent
                  server (requiredHackingSkill (heap st1 server)) st1
                  bestUnlockedServer Hne) as Ho.
    destruct (getRatesAtHackLevel_total ns options ramTotal useEstHackPercent
                server (requiredHackingSkill (heap st1 server)) st1)
      as ([[g' c'] e'] & st2 & E2).
    rewrite E2 in *. cbn [snd] in Ho. cbn [snd heap].
    rewrite !upd_other by assumption. exact Ho. }
  split; [exact Hafter|]. rewrite Hafter. subst reference.
  destruct (getRatesAtHackLevel_estimates ns options ramTotal useEstHackPercent bestUnlockedServer
              (requiredHackingSkill (heap st server)) st) as (f & Hf).
  destruct (getRatesAtHackLevel_frame ns options ramTotal useEstHackPercent
              bestUnlockedServer (requiredHackingSkill (heap st server)) st
              bestUnlockedServer) as (e & m & d & Hs).
  split; [rewrite Hf; discriminate|].
  rewrite Hs. repeat split.
Qed.

(** X17.  In the fallback the cap on the time to hack of 200 ms acts for
    weaken times up to 800 ms: from 800 ms on the capped rate is the
    theoretical rate, up to 800 ms it is [moneyMax / 200].  For a positive
    weaken time and money that is not negative the capped rate never
    exceeds the theoretical rate. *)
Theorem fallback_cap
    (ns : NS) (options : Options) (ramTotal : R) (useEstHackPercent : bool)
    (server : ref) (hackLevel : Z) (st : State) :
  usesFallback ns options ramTotal useEstHackPercent server hackLevel st = true ->
  let target := heap st server in
  let weakenTime := getWeakenTime ns (hostname target) in
  exists theoretical capped exp,
    fst (getRatesAtHackLevel ns options ramTotal useEstHackPercent server hackLevel st)
    = Ok (theoretical, capped, exp)
    /\ (800 <= weakenTime -> capped = theoretical)
    /\ (weakenTime <= 800 -> capped = moneyMax target / 200)
    /\ (0 < weakenTime -> 0 <= moneyMax target -> capped <= theoretical).
Proof.
  intros Hf target weakenTime.
  apply getRatesAtHackLevel_fallback in Hf. destruct Hf as (Hr & _).
  rewrite Hr. unfold fallbackTriple. fold target. fold weakenTime.
  eexists _, _, _. split; [reflexivity|]. split; [|split].
  - intros Hw. rewrite Rmax_left by lra. reflexivity.
  - intros Hw. rewrite Rmax_right by lra. reflexivity.
  - intros Hw Hm. unfold Rdiv at 1 3.
    apply Rmult_le_compat_l; [exact Hm|].
    apply Rinv_le_contravar; [lra | apply Rmax_l].
Qed.

(** Scenario A: the weaken time is 400,000 ms, and the cap does not act. *)
Lemma fallback_cap_scenario_A :
  exists theoretical capped exp,
    fst (getRatesAtHackLevel scenarioA_ns scenarioA_options 0 true 0%nat 1 scenarioA_state)
    = Ok (theoretical, capped, exp)
    /\ capped = theoretical.
Proof.
  destruct (fallback_cap scenarioA_ns scenarioA_options 0 true 0%nat 1 scenarioA_state
              eq_refl) as (t & c & x & Hr & Hlong & _).
  exists t, c, x. split; [exact Hr|]. apply Hlong. cbn. lra.
Defined.



(* ------------------------------------------------------------------ *)
(** ** Servers above the hack level: experience *)

(** X19.  For a server above the hack level, the experience rate recorded
    on it is its own experience rate at its required skill times the scale
    factor: the experience rate recorded on the reference server over the
    reference server's rate at that skill, or 1 when the latter is 0. *)
Theorem locked_exp_rate
    (ns : NS) (options : Options) (ramTotal : R) (useEstHackPercent : bool)
    (bestUnlockedServer server : ref) (st : State)
    (bestExp scaledGain scaledCapped scaledExp theoretical capped exp : R) :
  let required := requiredHackingSkill (heap st server) in
  let reference :=
    getRatesAtHackLevel ns options ramTotal useEstHackPercent bestUnlockedServer
      required st in
  let own :=
    getRatesAtHackLevel ns options ramTotal useEstHackPercent server required
      (snd reference) in
  let expScale := if truthy scaledExp then bestExp / scaledExp else 1 in
  let after :=
    heap (snd (lockedCallback ns options ramTotal useEstHackPercent
                 bestUnlockedServer server st)) server in
  expRate (heap st bestUnlockedServer) = Some bestExp ->
  fst reference = Ok (scaledGain, scaledCapped, scaledExp) ->
  fst own = Ok (theoretical, capped, exp) ->
  expRate after = Some (exp * expScale).
Proof.
  intros required reference own expScale after Hbest Href Hown.
  assert (Hreq : requiredHackingSkill (heap (snd reference) server) = required).
  { destruct (getRatesAtHackLevel_frame ns options ramTotal useEstHackPercent
                bestUnlockedServer required st server) as (e & m & d & Hs).
    subst reference. now rewrite Hs. }
  assert (Hex : expRate (heap (snd reference) bestUnlockedServer) = Some bestExp).
  { destruct (getRatesAtHackLevel_frame ns options ramTotal useEstHackPercent
                bestUnlockedServer required st bestUnlockedServer) as (e & m & d & Hs).
    subst reference. now rewrite Hs. }
  subst after.
  unfold lockedCallback, bind, getField, gets, setServer, emit, modify, ret.
  fold required. fold reference.
  destruct reference as [o1 st1]. cbn [fst snd] in *. subst o1.
  rewrite Hreq, Hex. fold own.
  destruct own as [o2 st2]. cbn [fst snd] in *. subst o2.
  cbn. rewrite !upd_same. cbn.
  subst expScale. destruct (truthy scaledExp); reflexivity.
Qed.

(** Server a gains 1040 experience at level 1 and at level 10, so the scale
    factor is 1; server b keeps the 1040 of its own evaluation. *)
Lemma locked_exp_rate_example :
  expRate
    (heap (snd (lockedCallback skill_ns skill_options 16 false 0%nat 1%nat skill_state))
       1%nat)
  = Some 1040.
Proof.
  assert (Ex : expRateOf 17 (hackCostOf 0 10) = 1040)
    by (unfold expRateOf, hackCostOf, hackRam, weakenRam; lra).
  pose proof (getRatesAtHackLevel_formulas skill_ns skill_options 16 false
                0%nat 1 (initial skill_ns skill_options) skill_formulas
                0 4 10 2 (50 / 100) (1 / 2) 17
                eq_refl eq_refl eq_refl eq_refl eq_refl eq_refl eq_refl eq_refl eq_refl)
    as (Hnow & _).
  cbv zeta in Hnow.
  destruct (unlockedCallback_records skill_ns skill_options 16 false 0%nat
              (initial skill_ns skill_options) _ _ _ Hnow) as (_ & _ & Hbest).
  fold skill_state in Hbest.
  assert (Hreq : requiredHackingSkill (heap skill_state 1%nat) = 10%Z).
  { unfold skill_state.
    rewrite (proj2 (unlockedCallback_keeps skill_ns skill_options 16 false 0%nat
                      (initial skill_ns skill_options) 1%nat)).
    reflexivity. }
  pose proof (getRatesAtHackLevel_formulas skill_ns skill_options 16 false
                0%nat 10 skill_state skill_formulas 0 4 10 2 (50 / 100) 1 17
                eq_refl eq_refl eq_refl eq_refl eq_refl eq_refl eq_refl eq_refl eq_refl)
    as (Href & _).
  cbv zeta in Href.
  pose proof (getRatesAtHackLevel_formulas skill_ns skill_options 16 false
                1%nat 10
                (snd (getRatesAtHackLevel skill_ns skill_options 16 false
                        0%nat 10 skill_state))
                skill_formulas 0 4 10 2 (50 / 100) 1 17
                eq_refl eq_refl eq_refl eq_refl eq_refl eq_refl eq_refl eq_refl eq_refl)
    as (Hown & _).
  cbv zeta in Hown.
  eassert (Href' :
    fst (getRatesAtHackLevel skill_ns skill_options 16 false 0%nat
           (requiredHackingSkill (heap skill_state 1%nat)) skill_state) = _)
    by (rewrite Hreq; exact Href).
  eassert (Hown' :
    fst (getRatesAtHackLevel skill_ns skill_options 16 false 1%nat
           (requiredHackingSkill (heap skill_state 1%nat))
           (snd (getRatesAtHackLevel skill_ns skill_options 16 false 0%nat
                   (requiredHackingSkill (heap skill_state 1%nat)) skill_state))) = _)
    by (rewrite Hreq; exact Hown).
  pose proof (locked_exp_rate skill_ns skill_options 16 false 0%nat 1%nat skill_state
                _ _ _ _ _ _ _ Hbest Href' Hown') as Hlocked.
  cbv zeta in Hlocked.
  rewrite Hlocked. rewrite Ex.
  rewrite (truthy_true 1040) by lra. f_equal. lra.
Defined.

(** X20.  Every evaluation prints exactly one message with rates, and
    prints it last: the message of the fallback when it ends there, the one
    of the formulas API otherwise.  Before it comes at most one warning,
    about a hack gain of at most 1e-10; this also holds when the formulas
    API throws after the warning. *)
Theorem evaluation_prints_its_rates_last
    (ns : NS) (options : Options) (ramTotal : R) (useEstHackPercent : bool)
    (server : ref) (hackLevel : Z) (st : State) :
  let st' :=
    snd (getRatesAtHackLevel ns options ramTotal useEstHackPercent server hackLevel st) in
  let host := hostname (heap st server) in
  exists warning message,
    out st' = out st ++ warning ++ [message]
    /\ (warning = []
        \/ exists hackGain,
             hackGain <= 1e-10
             /\ warning = [PrintWarnHackGain hackGain 1e-10 host])
    /\ (if usesFallback ns options ramTotal useEstHackPercent server hackLevel st
        then exists moneyMax timeToHack cappedTimeToHack theoretical capped exp,
               message = PrintFallbackRates moneyMax timeToHack cappedTimeToHack
                           theoretical capped exp host
        else exists percent theoretical limit exp chance,
               message = PrintFormulasRates hackLevel percent theoretical limit exp
                           chance host).
Proof.
  intros st' host.
  destruct (getRatesAtHackLevel_prints ns options ramTotal useEstHackPercent server
              hackLevel st) as (w & m & Ho & Hw & Hm & _).
  exists w, m. split; [exact Ho|]. split; [exact Hw|].
  destruct (usesFallback ns options ramTotal useEstHackPercent server hackLevel st).
  - subst m. unfold fallbackEvent. eexists _, _, _, _, _, _. reflexivity.
  - destruct Hm as (hp & t & l & x & ch & -> & _). eexists _, _, _, _, _. reflexivity.
Qed.

(* ------------------------------------------------------------------ *)
(** ** The numbering of the lists *)

Lemma numbered_map {A B C : Type} (f : nat -> A -> B) (g : B -> C) (h : nat -> A -> C)
    (order : nat) (l : list A) :
  (forall n a, g (f n a) = h n a) ->
  map g (numbered f order l) = numbered h order l.
Proof.
  intros Hgf. revert order. induction l as [|a l IH]; intros order; [reflexivity|].
  cbn [numbered map]. now rewrite Hgf, IH.
Qed.

Lemma numbered_orders {A : Type} (order : nat) (l : list A) :
  numbered (fun n _ => n) order l = seq order (length l).
Proof.
  revert order. induction l as [|a l IH]; intros order; [reflexivity|].
  cbn [numbered length seq]. now rewrite IH.
Qed.

Lemma numbered_values {A B : Type} (f : A -> B) (order : nat) (l : list A) :
  numbered (fun _ a => f a) order l = map f l.
Proof.
  revert order. induction l as [|a l IH]; intros order; [reflexivity|].
  cbn [numbered map]. now rewrite IH.
Qed.

(** X21.  The lines of both lists are numbered from 1.  The list by
    experience has five lines, or as many as there are reported servers if
    these are fewer, and names the servers of the first lines of the list by
    gain, in the same order. *)
Theorem exp_list_repeats_the_gain_list (ns : NS) (options : Options) :
  inRange options ->
  unlockedOrder ns options <> [] ->
  exists st gainLines expLines,
    main ns options (initial ns options) = (Ok tt, st)
    /\ In (PrintGainList (runHacking ns options) gainLines) (out st)
    /\ In (PrintExpList (runHacking ns options) expLines) (out st)
    /\ map gl_order gainLines = seq 1 (length (reportedServers ns options))
    /\ map el_order expLines = seq 1 (Nat.min 5 (length (reportedServers ns options)))
    /\ map el_hostname expLines = firstn 5 (map gl_hostname gainLines).
Proof.
  intros Hrange Hne.
  destruct (main_returns ns options Hrange Hne)
    as (best & rest & g & gs & x & xs & Eb & Eg & Ex & Hm).
  eexists _, _, _. split; [exact Hm|]. cbn [out heap].
  split; [apply summary_gain_list|]. split; [apply summary_exp_list|].
  assert (Hlen : length (evaluationOrder ns options) = length (reportedServers ns options))
    by apply Permutation_length, evaluationOrder_Permutation.
  split; [|split].
  - rewrite (numbered_map _ gl_order (fun n _ => n)) by reflexivity.
    now rewrite numbered_orders, Hlen.
  - rewrite (numbered_map _ el_order (fun n _ => n)) by reflexivity.
    rewrite numbered_orders, length_firstn, Hlen.
    f_equal. lia.
  - rewrite (numbered_map _ el_hostname
               (fun _ r => hostname (heap (lockedRated ns options best) r)))
      by reflexivity.
    rewrite (numbered_map _ gl_hostname
               (fun _ r => hostname (heap (lockedRated ns options best) r)))
      by reflexivity.
    rewrite !numbered_values. rewrite firstn_map. f_equal.
    destruct (Nat.le_ge_cases 5 (length (evaluationOrder ns options))) as [H|H].
    + rewrite Nat.min_l by exact H. reflexivity.
    + rewrite Nat.min_r by exact H. rewrite !firstn_all2; [reflexivity | lia | lia].
Qed.

(* ------------------------------------------------------------------ *)
(** ** The server as it is at the moment *)

Lemma assumeBestCase_atTheMoment (server : ref) (hackLevel : Z) (d m : R) (st : State) :
  assumeBestCase server hackLevel (atTheMoment server d m st)
  = assumeBestCase server hackLevel st.
Proof.
  unfold assumeBestCase, atTheMoment, bind, getField, gets, setServer, setPlayerHacking,
    modify.
  cbn. rewrite !upd_same. cbn. rewrite !upd_shadow. reflexivity.
Qed.

Lemma fallbackRates_atTheMoment (ns : NS) (server : ref) (d m : R) (st : State) :
  fst (fallbackRates ns server (atTheMoment server d m st)) = fst (fallbackRates ns server st)
  /\ out (snd (fallbackRates ns server (atTheMoment server d m st)))
     = out (snd (fallbackRates ns server st)).
Proof.
  rewrite !fallbackRates_run. cbn [fst snd out atTheMoment heap].
  rewrite upd_same. split; reflexivity.
Qed.

(** X22.  The rates an evaluation returns and the messages it prints do
    not depend on the security and the money the server has at the moment:
    the evaluation first takes the server to its minimum security and its
    maximum money, and the fallback reads neither.  With the formulas API
    enabled the whole state the evaluation leaves is the same. *)
Theorem rates_ignore_current_security_and_money
    (ns : NS) (options : Options) (ramTotal : R) (useEstHackPercent : bool)
    (server : ref) (hackLevel : Z) (st : State) (difficulty money : R) :
  let now := atTheMoment server difficulty money st in
  let evaluation :=
    getRatesAtHackLevel ns options ramTotal useEstHackPercent server hackLevel in
  fst (evaluation now) = fst (evaluation st)
  /\ out (snd (evaluation now)) = out (snd (evaluation st))
  /\ (disable_formulas_api options = false -> snd (evaluation now) = snd (evaluation st)).
Proof.
  intros now evaluation. subst now evaluation.
  destruct (disable_formulas_api options) eqn:Hd.
  - replace (getRatesAtHackLevel ns options ramTotal useEstHackPercent server hackLevel st)
      with (fallbackRates ns server st)
      by (unfold getRatesAtHackLevel; now rewrite Hd).
    replace (getRatesAtHackLevel ns options ramTotal useEstHackPercent server hackLevel
               (atTheMoment server difficulty money st))
      with (fallbackRates ns server (atTheMoment server difficulty money st))
      by (unfold getRatesAtHackLevel; now rewrite Hd).
    destruct (fallbackRates_atTheMoment ns server difficulty money st) as (H1 & H2).
    repeat split; [exact H1 | exact H2 | discriminate].
  - assert (E : getRatesAtHackLevel ns options ramTotal useEstHackPercent server hackLevel
                  (atTheMoment server difficulty money st)
                = getRatesAtHackLevel ns options ramTotal useEstHackPercent server hackLevel
                    st).
    { unfold getRatesAtHackLevel. rewrite Hd. cbn [negb].
      unfold bind at 1 3. unfold bind at 1 3. unfold gets at 1 2.
      cbn [atTheMoment player].
      change (mkState (player st)
                (upd (heap st) server
                   (set_moneyAvailable money
                      (set_hackDifficulty difficulty (heap st server))))
                (hackPercent st) (out st))
        with (atTheMoment server difficulty money st).
      unfold bind at 1 3.
      rewrite assumeBestCase_atTheMoment. reflexivity. }
    rewrite E. repeat split.
Qed.

(* ------------------------------------------------------------------ *)
(** ** The numbers of the lists *)

(** An evaluation records such an estimate on its server and leaves the
    estimates of the other servers. *)
Lemma getRatesAtHackLevel_estimated
    (ns : NS) (options : Options) (ramTotal : R) (useEstHackPercent : bool)
    (server : ref) (hackLevel : Z) (st : State) (r : ref) :
  r = server \/ estimated (heap st r) ->
  estimated
    (heap (snd (getRatesAtHackLevel ns options ramTotal useEstHackPercent server
                  hackLevel st)) r).
Proof.
  intros Hr. destruct (Nat.eq_dec r server) as [-> | Hne].
  - destruct (usesFallback ns options ramTotal useEstHackPercent server hackLevel st) eqn:E.
    + destruct (getRatesAtHackLevel_fallback _ _ _ _ _ _ _ E) as (_ & _ & _ & Hs & _).
      rewrite Hs. exists 1. split; [reflexivity | now left].
    + destruct (completed_estimate _ _ _ _ _ _ _ E)
        as (h & wt & gt & ht & gp & hg & _ & _ & _ & _ & _ & _ & Hs).
      rewrite Hs. eexists. split; [reflexivity|]. right.
      apply estimateHackPercent_bounds.
  - destruct Hr as [E|Hr]; [contradiction|].
    now rewrite getRatesAtHackLevel_others.
Qed.

Lemma estimated_ext (s s' : Server) :
  estHackPercent s' = estHackPercent s -> estimated s -> estimated s'.
Proof. unfold estimated. now intros ->. Qed.

Lemma unlockedCallback_estimated
    (ns : NS) (options : Options) (ramTotal : R) (useEstHackPercent : bool)
    (server : ref) (st : State) (r : ref) :
  r = server \/ estimated (heap st r) ->
  estimated (heap (snd (unlockedCallback ns options ramTotal useEstHackPercent server st)) r).
Proof.
  intros Hr.
  pose proof (getRatesAtHackLevel_estimated ns options ramTotal useEstHackPercent server
                (skills_hacking (player st)) st r Hr) as H.
  unfold unlockedCallback, bind, gets, setServer, modify, ret.
  destruct (getRatesAtHackLevel ns options ramTotal useEstHackPercent server
              (skills_hacking (player st)) st) as [[[[t c] x]|] st1];
    cbn [snd] in H; cbn; [|exact H].
  unfold upd. destruct (Nat.eqb_spec r server) as [-> | Hne]; cbn;
    rewrite ?Nat.eqb_refl; cbn; [|exact H].
  eapply estimated_ext; [|exact H]. reflexivity.
Qed.

Lemma lockedCallback_estimated
    (ns : NS) (options : Options) (ramTotal : R) (useEstHackPercent : bool)
    (bestUnlockedServer server : ref) (st : State) (r : ref) :
  r = server \/ estimated (heap st r) ->
  estimated
    (heap (snd (lockedCallback ns options ramTotal useEstHackPercent bestUnlockedServer
                  server st)) r).
Proof.
  intros Hr.
  unfold lockedCallback, bind, getField, gets, setServer, emit, modify, ret.
  destruct (getRatesAtHackLevel_total ns options ramTotal useEstHackPercent
              bestUnlockedServer (requiredHackingSkill (heap st server)) st)
    as ([[g c] e] & st1 & E1).
  assert (H1 : r = server \/ estimated (heap st1 r)).
  { destruct Hr as [E|Hr]; [now left | right].
    pose proof (getRatesAtHackLevel_estimated ns options ramTotal useEstHackPercent
                  bestUnlockedServer (requiredHackingSkill (heap st server)) st r
                  (or_intror Hr)) as H.
    now rewrite E1 in H. }
  rewrite E1.
  pose proof (getRatesAtHackLevel_estimated ns options ramTotal useEstHackPercent
                server (requiredHackingSkill (heap st1 server)) st1 r H1) as H2.
  destruct (getRatesAtHackLevel_total ns options ramTotal useEstHackPercent
              server (requiredHackingSkill (heap st1 server)) st1)
    as ([[g' c'] e'] & st2 & E2).
  rewrite E2 in *. cbn [snd] in H2. cbn.
  unfold upd. destruct (Nat.eqb_spec r server) as [-> | Hne]; cbn;
    rewrite ?Nat.eqb_refl; cbn; [|exact H2].
  eapply estimated_ext; [|exact H2]. reflexivity.
Qed.

Lemma mapM_unlockedCallback_estimated
    (ns : NS) (options : Options) (ramTotal : R) (useEstHackPercent : bool)
    (l : list ref) (st : State) (r : ref) :
  In r l \/ estimated (heap st r) ->
  estimated (heap (snd (mapM (unlockedCallback ns options ramTotal useEstHackPercent) l st)) r).
Proof.
  revert st. induction l as [|x l IH]; intros st Hr.
  - destruct Hr as [[]|Hr]. exact Hr.
  - destruct (unlockedCallback_run ns options ramTotal useEstHackPercent x st)
      as (st1 & Ex & _).
    destruct (mapM_unlockedCallback_run ns options ramTotal useEstHackPercent l st1)
      as (st2 & El & _).
    specialize (IH st1). rewrite El in IH. cbn [snd] in IH.
    cbn [mapM]. unfold bind, ret. rewrite Ex, El. cbn [snd].
    apply IH.
    pose proof (unlockedCallback_estimated ns options ramTotal useEstHackPercent x st r)
      as H. rewrite Ex in H. cbn [snd] in H.
    destruct Hr as [[E|Hr]|Hr]; [right; apply H; now left | now left | right; apply H; now right].
Qed.

Lemma mapM_lockedCallback_estimated
    (ns : NS) (options : Options) (ramTotal : R) (useEstHackPercent : bool)
    (bestUnlockedServer : ref) (l : list ref) (st : State) (r : ref) :
  In r l \/ estimated (heap st r) ->
  estimated
    (heap (snd (mapM (lockedCallback ns options ramTotal useEstHackPercent
                        bestUnlockedServer) l st)) r).
Proof.
  revert st. induction l as [|x l IH]; intros st Hr.
  - destruct Hr as [[]|Hr]. exact Hr.
  - destruct (lockedCallback_run ns options ramTotal useEstHackPercent
                bestUnlockedServer x st) as (st1 & Ex).
    destruct (mapM_lockedCallback_run ns options ramTotal useEstHackPercent
                bestUnlockedServer l st1) as (st2 & El).
    specialize (IH st1). rewrite El in IH. cbn [snd] in IH.
    cbn [mapM]. unfold bind, ret. rewrite Ex, El. cbn [snd].
    apply IH.
    pose proof (lockedCallback_estimated ns options ramTotal useEstHackPercent
                  bestUnlockedServer x st r) as H.
    rewrite Ex in H. cbn [snd] in H.
    destruct Hr as [[E|Hr]|Hr]; [right; apply H; now left | now left | right; apply H; now right].
Qed.

(** X23.  When a run returns, every server of the list by gain and of the
    file has its numbers: a theoretical rate, a gain rate and an experience
    rate have been recorded on it, and an estimated hack percent that is
    either 1 (from the fallback) or between 1e-10 and 0.98.  No line and no
    record holds an undefined value.  (Numbers are reals.) *)
Theorem listed_servers_have_all_their_numbers (ns : NS) (options : Options) :
  inRange options ->
  unlockedOrder ns options <> [] ->
  exists st listed,
    main ns options (initial ns options) = (Ok tt, st)
    /\ In (PrintGainList (runHacking ns options) (numbered (gainLine (heap st)) 1 listed))
         (out st)
    /\ In (FileWrite "/Temp/analyze-hack.txt" (map (rankedRecord (heap st)) listed) "w")
         (out st)
    /\ forall r, In r listed ->
         exists theoretical gain exp estimate,
           theoreticalGainRate (heap st r) = Some theoretical
           /\ gainRate (heap st r) = Some gain
           /\ expRate (heap st r) = Some exp
           /\ estHackPercent (heap st r) = Some estimate
           /\ (estimate = 1 \/ 1e-10 <= estimate <= 0.98).
Proof.
  intros Hrange Hne.
  destruct (main_returns ns options Hrange Hne)
    as (best & rest & g & gs & x & xs & Eb & Eg & Ex & Hm).
  assert (Hbest : In best (unlockedOrder ns options))
    by (eapply sortBy_head_In; exact Eb).
  eexists _, (evaluationOrder ns options). split; [exact Hm|]. cbn [out heap].
  split; [apply summary_gain_list|]. split; [apply summary_file|].
  intros r Hr.
  destruct (lockedRated_rated ns options best r Hbest Hr) as (Ht & Hg & Hx).
  assert (He : estimated (heap (lockedRated ns options best) r)).
  { apply mapM_lockedCallback_estimated.
    rewrite evaluationOrder_split in Hr. apply in_app_or in Hr.
    destruct Hr as [Hr|Hr]; [right | now left].
    cbn [announced heap]. apply mapM_unlockedCallback_estimated. now left. }
  destruct He as (f & Hf & Hb).
  destruct (theoreticalGainRate (heap (lockedRated ns options best) r)) as [t|];
    [|contradiction].
  destruct (gainRate (heap (lockedRated ns options best) r)) as [c|]; [|contradiction].
  destruct (expRate (heap (lockedRated ns options best) r)) as [e|]; [|contradiction].
  exists t, c, e, f. auto.
Qed.

(* ------------------------------------------------------------------ *)
(** ** The hack percent of a cycle *)

Lemma keepsFraction_refl (b : bool) (st : State) : keepsFraction b st st.
Proof. intros H. split; [reflexivity|]. exists []. now rewrite app_nil_r. Qed.

Lemma keepsFraction_trans (b : bool) (x y z : State) :
  keepsFraction b x y -> keepsFraction b y z -> keepsFraction b x z.
Proof.
  intros Hxy Hyz Hx. destruct (Hxy Hx) as (Hy & e1 & H1 & F1).
  assert (Hy' : b = false -> 0 < hackPercent y < 1)
    by (intros E; rewrite (Hy E); exact (Hx E)).
  destruct (Hyz Hy') as (Hz & e2 & H2 & F2). split.
  - intros E. now rewrite (Hz E), (Hy E).
  - exists (e1 ++ e2). split.
    + rewrite H2, H1. now rewrite app_assoc.
    + apply Forall_app. now split.
Qed.

Lemma keepsFraction_setServer (b : bool) (server : ref) (f : Server -> Server) :
  preserves (keepsFraction b) (setServer server f).
Proof. intros st H. split; [reflexivity|]. exists []. cbn. now rewrite app_nil_r. Qed.

Lemma keepsFraction_emit (b : bool) (e : Event) :
  forFraction e -> preserves (keepsFraction b) (emit e).
Proof.
  intros He st H. split; [reflexivity|]. exists [e]. cbn. split; [reflexivity|].
  now constructor.
Qed.

Lemma getRatesAtHackLevel_keepsFraction
    (ns : NS) (options : Options) (ramTotal : R) (useEstHackPercent : bool)
    (server : ref) (hackLevel : Z) :
  preserves (keepsFraction useEstHackPercent)
    (getRatesAtHackLevel ns options ramTotal useEstHackPercent server hackLevel).
Proof.
  intros st Hp.
  destruct (getRatesAtHackLevel_prints ns options ramTotal useEstHackPercent server
              hackLevel st) as (w & m & Ho & Hw & Hm & Hhp).
  split; [exact Hhp|].
  exists (w ++ [m]). split; [exact Ho|].
  apply Forall_app. split.
  - destruct Hw as [-> | (hg & _ & ->)]; repeat constructor.
  - constructor; [|constructor].
    destruct (usesFallback ns options ramTotal useEstHackPercent server hackLevel st).
    + subst m. exact I.
    + destruct Hm as (hp & t & l & x & ch & -> & Hexplicit & Hauto). cbn.
      destruct useEstHackPercent.
      * specialize (Hauto eq_refl). unfold minHackGain in Hauto. lra.
      * rewrite Hexplicit by reflexivity. now apply Hp.
Qed.

Ltac keepsFraction_steps b :=
  repeat first
    [ apply (along_bind (keepsFraction b) (keepsFraction_trans b)); [ | intros ? ]
    | apply getRatesAtHackLevel_keepsFraction
    | apply (along_gets (keepsFraction b) (keepsFraction_refl b))
    | apply (along_ret (keepsFraction b) (keepsFraction_refl b))
    | apply keepsFraction_emit; exact I
    | apply keepsFraction_setServer ].

Lemma unlockedCallback_keepsFraction
    (ns : NS) (options : Options) (ramTotal : R) (useEstHackPercent : bool)
    (server : ref) :
  preserves (keepsFraction useEstHackPercent)
    (unlockedCallback ns options ramTotal useEstHackPercent server).
Proof.
  unfold unlockedCallback.
  apply (along_bind _ (keepsFraction_trans useEstHackPercent));
    [apply (along_gets _ (keepsFraction_refl useEstHackPercent)) | intros hacking].
  apply (along_bind _ (keepsFraction_trans useEstHackPercent));
    [apply getRatesAtHackLevel_keepsFraction | intros [[t c] x]].
  keepsFraction_steps useEstHackPercent.
Qed.

Lemma lockedCallback_keepsFraction
    (ns : NS) (options : Options) (ramTotal : R) (useEstHackPercent : bool)
    (bestUnlockedServer server : ref) :
  preserves (keepsFraction useEstHackPercent)
    (lockedCallback ns options ramTotal useEstHackPercent bestUnlockedServer server).
Proof.
  unfold lockedCallback, getField.
  apply (along_bind _ (keepsFraction_trans useEstHackPercent));
    [apply (along_gets _ (keepsFraction_refl useEstHackPercent)) | intros required].
  apply (along_bind _ (keepsFraction_trans useEstHackPercent));
    [apply getRatesAtHackLevel_keepsFraction | intros [[g c] e]].
  apply (along_bind _ (keepsFraction_trans useEstHackPercent));
    [apply (along_gets _ (keepsFraction_refl useEstHackPercent)) | intros bestTheoretical].
  apply (along_bind _ (keepsFraction_trans useEstHackPercent));
    [apply (along_gets _ (keepsFraction_refl useEstHackPercent)) | intros bestExp].
  apply (along_bind _ (keepsFraction_trans useEstHackPercent));
    [apply (along_gets _ (keepsFraction_refl useEstHackPercent)) | intros required'].
  apply (along_bind _ (keepsFraction_trans useEstHackPercent));
    [apply getRatesAtHackLevel_keepsFraction | intros [[t c'] x]].
  keepsFraction_steps useEstHackPercent.
Qed.

(** X24.  Whatever the options, every message about rates from the
    formulas API that a run prints is for a hack percent strictly between 0
    and 1, so that [1 - hackPercent], of which the evaluation takes the
    logarithm, is positive: a percent from the command line has passed the
    check of lines 42-45, and an estimate is at least 1e-10 and at most
    0.98. *)
Theorem every_cycle_steals_a_fraction (ns : NS) (options : Options) :
  Forall forFraction (snd (run ns (Some options))).
Proof.
  destruct (inRange_dec options) as [Hrange | (Hne & Hout)].
  - assert (Hstart : estimating options = false -> 0 < hackPercent (started ns options) < 1).
    { unfold estimating. cbn [started hackPercent]. intros E.
      destruct Hrange as [Hauto | Hr]; [|exact Hr].
      destruct (Req_dec_T (hack_percent options) (-1)); [discriminate E | contradiction]. }
    assert (H1 : keepsFraction (estimating options) (started ns options)
                   (unlockedRated ns options)).
    { apply (along_mapM _ (keepsFraction_refl _) (keepsFraction_trans _)).
      intros x. apply unlockedCallback_keepsFraction. }
    destruct (H1 Hstart) as (Hp1 & e1 & He1 & F1).
    pose proof (main_stages ns options Hrange) as H.
    destruct (sortBy (byGainRate (heap (unlockedRated ns options)))
                (unlockedOrder ns options)) as [|best rest].
    + unfold run. rewrite H. cbn [snd]. rewrite He1. cbn [started out].
      apply Forall_app. split; [repeat constructor | exact F1].
    + cbv zeta in H. destruct H as (g & gs & x & xs & _ & _ & Hm).
      assert (H2 : keepsFraction (estimating options)
                     (announced (unlockedRated ns options) best)
                     (lockedRated ns options best)).
      { apply (along_mapM _ (keepsFraction_refl _) (keepsFraction_trans _)).
        intros y. apply lockedCallback_keepsFraction. }
      destruct H2 as (_ & e2 & He2 & F2).
      { intros E. cbn [announced hackPercent]. rewrite (Hp1 E). exact (Hstart E). }
      unfold run. rewrite Hm. cbn [snd out]. rewrite He2. cbn [announced out].
      rewrite He1. cbn [started out].
      apply Forall_app. split; [apply Forall_app; split; [apply Forall_app; split|]|].
      * apply Forall_app. split; [repeat constructor | exact F1].
      * repeat constructor.
      * exact F2.
      * unfold summary. destruct (silent options); repeat constructor.
  - unfold run. rewrite (main_refuses ns options Hne Hout). cbn [snd out].
    repeat constructor.
Qed.

(* ------------------------------------------------------------------ *)
(** ** The formulas API, disabled or missing *)

Lemma getRatesAtHackLevel_disabled
    (ns : NS) (options : Options) (f : option hacking.t) :
  disable_formulas_api options = true ->
  getRatesAtHackLevel (withFormulas f ns) options = getRatesAtHackLevel ns options.
Proof.
  intros Hd. unfold getRatesAtHackLevel. rewrite Hd. reflexivity.
Qed.

(** X25.  Under [--disable-formulas-api] a run does not depend on the
    formulas API: whatever [ns.formulas] is, there or not, answering or
    throwing, the run ends the same way and prints and writes the same. *)
Theorem disabled_formulas_are_never_asked
    (ns : NS) (options : Options) (f : option hacking.t) :
  disable_formulas_api options = true ->
  run (withFormulas f ns) (Some options) = run ns (Some options).
Proof.
  intros Hd.
  assert (Hmain : main (withFormulas f ns) options = main ns options).
  { unfold main, unlockedCallback, lockedCallback.
    rewrite (getRatesAtHackLevel_disabled ns options f Hd). reflexivity. }
  unfold run. rewrite Hmain. reflexivity.
Qed.






















(* ------------------------------------------------------------------ *)
(** ** The properties on the scenarios *)

(** The first of the six servers is reported and within the hack level. *)
Lemma six_has_unlocked : unlockedOrder six_ns six_options <> [].
Proof.
  assert (H : In 0%nat (unlockedOrder six_ns six_options)).
  { unfold unlockedOrder, reportedServers. apply filter_In. split; [|reflexivity].
    apply filter_In. split; [now left|].
    unfold reported, scanned. cbn. now rewrite Rltb_true by lra. }
  intros E. now rewrite E in H.
Qed.

Lemma six_has_reported : reportedServers six_ns six_options <> [].
Proof.
  assert (H : In 0%nat (reportedServers six_ns six_options)).
  { unfold reportedServers. apply filter_In. split; [now left|].
    unfold reported, scanned. cbn. now rewrite Rltb_true by lra. }
  intros E. now rewrite E in H.
Qed.

Lemma skill_has_unlocked : unlockedOrder skill_ns skill_options <> [].
Proof.
  assert (H : In 0%nat (unlockedOrder skill_ns skill_options)).
  { unfold unlockedOrder, reportedServers. apply filter_In. split; [|reflexivity].
    apply filter_In. split; [now left|].
    unfold reported, scanned. cbn. now rewrite Rltb_true by lra. }
  intros E. now rewrite E in H.
Qed.

Lemma skill_inRange : inRange skill_options.
Proof. right. cbn. lra. Qed.

(** A hack percent of 100 is refused, on the terminal, also under [--silent]. *)
Lemma hack_percent_100_is_out_of_range :
  run scenarioA_ns (Some hundred_options) = (Ok tt, [TPrintOutOfRange]).
Proof.
  apply (hack_percent_out_of_range scenarioA_ns hundred_options).
  - cbn. lra.
  - right. cbn. lra.
Defined.

(** The run on the six servers returns. *)
Lemma main_returns_on_six_servers :
  exists events records,
    run six_ns (Some six_options)
    = (Ok tt,
       PrintSettings (all six_options) (runHacking six_ns six_options)
         (ramTotalOf six_ns six_options)
       :: events ++ [FileWrite "/Temp/analyze-hack.txt" records "w"])
    /\ length records = length (reportedServers six_ns six_options).
Proof.
  exact (main_returns_with_unlocked_server six_ns six_options (or_introl eq_refl)
           six_has_unlocked).
Defined.

(** The six servers all have admin rights and none is a hacknet server. *)
Lemma ram_total_of_six_servers :
  exists rest,
    snd (run six_ns (Some six_options))
    = PrintSettings false 1
        (fold_right Rplus 0
           (map maxRam
              (filter (countsForRam six_options)
                 (map (getServer six_ns) (scanAllServers six_ns)))))
      :: rest.
Proof. exact (ram_total_counts six_ns six_options (or_introl eq_refl)). Defined.

Lemma six_servers_are_listed_once :
  exists st listed,
    main six_ns six_options (initial six_ns six_options) = (Ok tt, st)
    /\ In (PrintGainList (runHacking six_ns six_options)
             (numbered (gainLine (heap st)) 1 listed)) (out st)
    /\ In (FileWrite "/Temp/analyze-hack.txt" (map (rankedRecord (heap st)) listed) "w")
         (out st)
    /\ NoDup listed
    /\ (forall r, In r listed
                  <-> (r < length (scanAllServers six_ns))%nat
                      /\ reported six_options (runHacking six_ns six_options)
                           (getServer six_ns (nth r (scanAllServers six_ns) ""%string))
                         = true)
    /\ (forall r, hostname (heap st r)
                  = hostname (getServer six_ns (nth r (scanAllServers six_ns) ""%string))).
Proof.
  exact (every_reported_server_is_listed_once six_ns six_options (or_introl eq_refl)
           six_has_unlocked).
Defined.

(** Server a is within the hack level, server b needs level 10. *)
Lemma listing_order_of_two_servers :
  exists st unlocked locked,
    main skill_ns skill_options (initial skill_ns skill_options) = (Ok tt, st)
    /\ In (PrintGainList (runHacking skill_ns skill_options)
             (numbered (gainLine (heap st)) 1 (unlocked ++ locked))) (out st)
    /\ StronglySorted lt unlocked
    /\ Forall (fun r => (requiredHackingSkill (heap st r)
                         <= runHacking skill_ns skill_options)%Z) unlocked
    /\ Forall (fun r => (runHacking skill_ns skill_options
                         < requiredHackingSkill (heap st r))%Z) locked
    /\ StronglySorted (listedBefore (heap st)) locked.
Proof. exact (listing_order skill_ns skill_options skill_inRange skill_has_unlocked). Defined.

Lemma six_servers_follow_the_scan :
  exists st,
    main six_ns six_options (initial six_ns six_options) = (Ok tt, st)
    /\ In (PrintGainList (runHacking six_ns six_options)
             (numbered (gainLine (heap st)) 1 (reportedServers six_ns six_options)))
         (out st)
    /\ In (FileWrite "/Temp/analyze-hack.txt"
             (map (rankedRecord (heap st)) (reportedServers six_ns six_options)) "w")
         (out st)
    /\ forallb (fun e => match e with PrintScaled _ _ _ _ _ _ => false | _ => true end)
         (out st) = true.
Proof.
  exact (without_all_lists_follow_the_scan six_ns six_options eq_refl (or_introl eq_refl)
           six_has_reported).
Defined.

Lemma best_of_six_servers :
  exists st best before after,
    main six_ns six_options (initial six_ns six_options) = (Ok tt, st)
    /\ In (TPrintBest (hostname (heap st best)) (gainRate (heap st best))) (out st)
    /\ In (FileWrite "/Temp/analyze-hack.txt"
             (map (rankedRecord (heap st)) (before ++ best :: after)) "w") (out st)
    /\ (forall r, In r before -> better (gainRate (heap st best)) (gainRate (heap st r)))
    /\ (forall r, In r after -> atLeast (gainRate (heap st best)) (gainRate (heap st r))).
Proof.
  exact (best_server_has_the_best_gain_rate six_ns six_options (or_introl eq_refl) eq_refl
           six_has_unlocked).
Defined.

Lemma best_exp_of_six_servers :
  exists st best before after,
    main six_ns six_options (initial six_ns six_options) = (Ok tt, st)
    /\ In (TPrintBestExp (hostname (heap st best)) (expRate (heap st best))) (out st)
    /\ In (FileWrite "/Temp/analyze-hack.txt"
             (map (rankedRecord (heap st)) (before ++ best :: after)) "w") (out st)
    /\ (forall r, In r before -> better (expRate (heap st best)) (expRate (heap st r)))
    /\ (forall r, In r after -> atLeast (expRate (heap st best)) (expRate (heap st r))).
Proof.
  exact (best_exp_server_has_the_best_exp_rate six_ns six_options (or_introl eq_refl)
           eq_refl six_has_unlocked).
Defined.

Lemma reference_server_of_two :
  exists st best before after,
    main skill_ns skill_options (initial skill_ns skill_options) = (Ok tt, st)
    /\ unlockedOrder skill_ns skill_options = before ++ best :: after
    /\ In (PrintBestUnlocked (hostname (heap st best)) (gainRate (heap st best))) (out st)
    /\ (forall r, In r before -> better (gainRate (heap st best)) (gainRate (heap st r)))
    /\ (forall r, In r after -> atLeast (gainRate (heap st best)) (gainRate (heap st r))).
Proof.
  exact (reference_server_is_the_best_unlocked skill_ns skill_options skill_inRange
           skill_has_unlocked).
Defined.

Lemma exp_list_of_six_servers :
  exists st gainLines expLines,
    main six_ns six_options (initial six_ns six_options) = (Ok tt, st)
    /\ In (PrintGainList (runHacking six_ns six_options) gainLines) (out st)
    /\ In (PrintExpList (runHacking six_ns six_options) expLines) (out st)
    /\ map gl_order gainLines = seq 1 (length (reportedServers six_ns six_options))
    /\ map el_order expLines
       = seq 1 (Nat.min 5 (length (reportedServers six_ns six_options)))
    /\ map el_hostname expLines = firstn 5 (map gl_hostname gainLines).
Proof.
  exact (exp_list_repeats_the_gain_list six_ns six_options (or_introl eq_refl)
           six_has_unlocked).
Defined.

Lemma silent_run_on_six_servers :
  run six_ns (Some (silenced six_options))
  = (fst (run six_ns (Some six_options)),
     filter (fun e => negb (toTerminal e)) (snd (run six_ns (Some six_options)))).
Proof. exact (silent_drops_the_terminal_output six_ns six_options (or_introl eq_refl)). Defined.

Lemma evaluations_of_two_servers :
  fst (run skill_ns (Some skill_options)) = Ok tt
  /\ evaluations (snd (run skill_ns (Some skill_options)))
     = (length (unlockedOrder skill_ns skill_options)
        + 2 * length (lockedOrder skill_ns skill_options))%nat.
Proof. exact (evaluations_of_a_run skill_ns skill_options skill_inRange skill_has_unlocked). Defined.

Lemma hack_percent_50_is_used :
  Forall (forPercent (50 / 100)) (snd (run skill_ns (Some skill_options))).
Proof.
  apply (explicit_hack_percent_is_used skill_ns skill_options). cbn. lra.
Defined.

Lemma scaling_reevaluates_server_a :
  let reference :=
    getRatesAtHackLevel skill_ns skill_options 16 false 0%nat
      (requiredHackingSkill (heap skill_state 1%nat)) skill_state in
  let after :=
    heap (snd (lockedCallback skill_ns skill_options 16 false 0%nat 1%nat skill_state))
      0%nat in
  after = heap (snd reference) 0%nat
  /\ estHackPercent after <> None
  /\ theoreticalGainRate after = theoreticalGainRate (heap skill_state 0%nat)
  /\ gainRate after = gainRate (heap skill_state 0%nat)
  /\ expRate after = expRate (heap skill_state 0%nat).
Proof.
  apply (scaling_reevaluates_the_reference_server skill_ns skill_options 16 false
           0%nat 1%nat skill_state).
  discriminate.
Defined.

Lemma six_servers_have_all_their_numbers :
  exists st listed,
    main six_ns six_options (initial six_ns six_options) = (Ok tt, st)
    /\ In (PrintGainList (runHacking six_ns six_options)
             (numbered (gainLine (heap st)) 1 listed)) (out st)
    /\ In (FileWrite "/Temp/analyze-hack.txt" (map (rankedRecord (heap st)) listed) "w")
         (out st)
    /\ forall r, In r listed ->
         exists theoretical gain exp estimate,
           theoreticalGainRate (heap st r) = Some theoretical
           /\ gainRate (heap st r) = Some gain
           /\ expRate (heap st r) = Some exp
           /\ estHackPercent (heap st r) = Some estimate
           /\ (estimate = 1 \/ 1e-10 <= estimate <= 0.98).
Proof.
  exact (listed_servers_have_all_their_numbers six_ns six_options (or_introl eq_refl)
           six_has_unlocked).
Defined.

Lemma six_servers_without_formulas :
  run (withFormulas (Some scenarioB_formulas) six_ns) (Some six_options)
  = run six_ns (Some six_options).
Proof.
  exact (disabled_formulas_are_never_asked six_ns six_options (Some scenarioB_formulas)
           eq_refl).
Defined.

